(** * Konsole display layer: the retained character image and its differencer

    A shallow embedding of the image-handling code of
    [src/konsole/TerminalDisplay.cpp] ([clearImage], [calcGeometry],
    [makeImage], [updateImageSize], [scrollImage], [updateImage] and the
    double-width probe of [paintContents]) together with the line store
    declared in [HistoryScrollFile].

    C++ [int]s are modelled as [Z]; flat [Character*] arrays as
    [list Character] indexed through [cell_at]; the widget's member
    variables as the record [TerminalDisplay]. *)

From Stdlib Require Import ZArith List Bool Lia FinFun.
Import ListNotations.
Open Scope Z_scope.

(* ------------------------------------------------------------------ *)
(** ** Cells *)

(** Modelled from the spec: [CharacterColor] is declared in a header that is
    not among the sources.  The spec describes a colour descriptor as either
    a palette index or an explicit RGB triple; the constructor used by
    [clearImage], [CharacterColor(space, index)], takes a colour space tag
    and a value, so a descriptor is a tag with three components. *)
Record CharacterColor : Type := mkCharacterColor
  { colorSpace : Z; colorU : Z; colorV : Z; colorW : Z }.

(** [CharacterColor(space, co)] as [clearImage] calls it. *)
Definition CharacterColor_of (space co : Z) : CharacterColor :=
  mkCharacterColor space co 0 0.

Definition CharacterColor_eqb (a b : CharacterColor) : bool :=
  (colorSpace a =? colorSpace b) && (colorU a =? colorU b) &&
  (colorV a =? colorV b) && (colorW a =? colorW b).

(** Modelled from the spec: the [Character] class is declared in a header
    that is not among the sources.  Its four members are the ones
    [clearImage] assigns: the code point, the two colours and the rendition
    bit set; its [!=] compares all four. *)
Record Character : Type := mkCharacter
  { character : Z;
    rendition : Z;
    foregroundColor : CharacterColor;
    backgroundColor : CharacterColor }.

Definition Character_eqb (a b : Character) : bool :=
  (character a =? character b) && (rendition a =? rendition b) &&
  CharacterColor_eqb (foregroundColor a) (foregroundColor b) &&
  CharacterColor_eqb (backgroundColor a) (backgroundColor b).

(** [operator!=] on cells. *)
Definition Character_neqb (a b : Character) : bool := negb (Character_eqb a b).

(** The constants of the headers that are not among the sources.  Their
    values play no role in the properties below, so they are taken as
    parameters of the whole development. *)
Class HeaderConstants : Type :=
  { COLOR_SPACE_DEFAULT : Z;
    DEFAULT_FORE_COLOR : Z;
    DEFAULT_BACK_COLOR : Z;
    DEFAULT_RENDITION : Z;
    RE_BLINK : Z;
    LINE_DOUBLEHEIGHT : Z }.

(** [static inline bool isLineChar(Q_UINT16 c)]. *)
Definition isLineChar (c : Z) : bool := Z.land c 0xFF80 =? 0x2500.

(** The cell [clearImage] writes: [' '], default colours, default
    rendition. *)
Definition blankCharacter `{HeaderConstants} : Character :=
  {| character := 32;
     rendition := DEFAULT_RENDITION;
     foregroundColor := CharacterColor_of COLOR_SPACE_DEFAULT DEFAULT_FORE_COLOR;
     backgroundColor := CharacterColor_of COLOR_SPACE_DEFAULT DEFAULT_BACK_COLOR |}.

(* ------------------------------------------------------------------ *)
(** ** Flat arrays *)

(** [a[i]] on a flat array; [d] is what a read outside the allocation
    yields.  Such a read is undefined in C++; the theorems that depend on
    the value read carry the bounds that keep the read inside. *)
Definition get_at {A : Type} (d : A) (a : list A) (i : Z) : A :=
  if i <? 0 then d else nth (Z.to_nat i) a d.

(** [mapi_from k f l] applies [f] to every element together with its index,
    the first element having index [k]. *)
Fixpoint mapi_from {A B : Type} (k : Z) (f : Z -> A -> B) (l : list A) : list B :=
  match l with
  | [] => []
  | a :: l' => f k a :: mapi_from (k + 1) f l'
  end.

(** [a[i] = v]; a write outside the allocation is dropped. *)
Definition set_at {A : Type} (a : list A) (i : Z) (v : A) : list A :=
  mapi_from 0 (fun j old => if j =? i then v else old) a.

(** The cell a stray read yields. *)
Definition strayCharacter : Character :=
  mkCharacter 0 0 (mkCharacterColor 0 0 0 0) (mkCharacterColor 0 0 0 0).

Definition cell_at (a : list Character) (i : Z) : Character :=
  get_at strayCharacter a i.

(** [memcpy(&dst[doff], &src[soff], n * sizeof(Character))], also used for
    [memmove]: the source is read as it was before the copy.  A write that
    would fall outside [dst] is dropped. *)
Definition memcpy (dst : list Character) (doff : Z)
                  (src : list Character) (soff n : Z) : list Character :=
  mapi_from 0
    (fun i d => if (doff <=? i) && (i <? doff + n)
                then cell_at src (soff + (i - doff)) else d)
    dst.

(** [for (x = a; x < a + n; x++) s = body(x, s)] *)
Fixpoint for_loop {S : Type} (n : nat) (x : Z) (body : Z -> S -> S) (s : S) : S :=
  match n with
  | O => s
  | Datatypes.S n' => for_loop n' (x + 1) body (body x s)
  end.

(** [for (x = a; x < b; x++) ...] *)
Definition for_range {S : Type} (a b : Z) (body : Z -> S -> S) (s : S) : S :=
  for_loop (Z.to_nat (b - a)) a body s.

(* ------------------------------------------------------------------ *)
(** ** Rectangles and regions (Qt) *)

(** [QRect(x, y, w, h)] *)
Record QRect : Type := mkQRect { rx : Z; ry : Z; rw : Z; rh : Z }.

Definition QRect_isEmpty (r : QRect) : bool := (rw r <=? 0) || (rh r <=? 0).

Definition QRect_contains (r : QRect) (px py : Z) : bool :=
  (rx r <=? px) && (px <? rx r + rw r) && (ry r <=? py) && (py <? ry r + rh r).

(** A [QRegion] is kept as the rectangles united into it, in order;
    [region |= rect] appends.  The point set of the region is the union of
    the point sets of its rectangles. *)
Definition QRegion : Type := list QRect.

Definition QRegion_unite (rg : QRegion) (r : QRect) : QRegion := rg ++ [r].

Definition QRegion_contains (rg : QRegion) (px py : Z) : bool :=
  existsb (fun r => QRect_contains r px py) rg.

Definition QRegion_isEmpty (rg : QRegion) : bool := forallb QRect_isEmpty rg.

(* ------------------------------------------------------------------ *)
(** ** The widget's state *)

Inductive ScrollBarLocation : Type :=
  | SCROLLBAR_NONE | SCROLLBAR_LEFT | SCROLLBAR_RIGHT.

(** The members describing the input method's pre-edit text. *)
Record InputMethodState : Type := mkInputMethodState
  { m_imPreeditLength : Z;
    m_imStartLine : Z;
    m_imStart : Z;
    m_imEnd : Z;
    m_imSelStart : Z;
    m_imSelEnd : Z }.

(** What the toolkit reports about the widget: [contentsRect()], the rims,
    the scroll bar and the font metrics. *)
Record WidgetGeometry : Type := mkWidgetGeometry
  { contentsRect : QRect;
    rimX : Z;
    rimY : Z;
    scrollLoc : ScrollBarLocation;
    scrollbarWidth : Z;
    font_w : Z;
    font_h : Z }.

(** The members of [TerminalDisplay] the image code reads or writes.
    [image] is [None] for the null pointer. *)
Record TerminalDisplay : Type := mkTerminalDisplay
  { image : option (list Character);
    image_size : Z;
    lines : Z;
    columns : Z;
    usedLines : Z;
    usedColumns : Z;
    contentWidth : Z;
    contentHeight : Z;
    bX : Z;
    bY : Z;
    lineProperties : list Z;
    hasBlinker : bool;
    blinking : bool;
    blinkT_isActive : bool;
    resizing : bool;
    isFixedSize : bool;
    m_isIMEdit : bool;
    m_isIMSel : bool;
    imState : InputMethodState;
    widget : WidgetGeometry }.

(** The part of [ScreenWindow] that [updateImage] consults. *)
Record ScreenWindow : Type := mkScreenWindow
  { scrollCount : Z;
    getImage : list Character;
    windowLines : Z;
    windowColumns : Z }.

Definition resetScrollCount (w : ScreenWindow) : ScreenWindow :=
  mkScreenWindow 0 (getImage w) (windowLines w) (windowColumns w).

(** [#define loc(X,Y) ((Y)*columns+(X))] *)
Definition loc (d : TerminalDisplay) (X Y : Z) : Z := Y * columns d + X.

Definition tLx (d : TerminalDisplay) : Z := rx (contentsRect (widget d)).
Definition tLy (d : TerminalDisplay) : Z := ry (contentsRect (widget d)).

(* ------------------------------------------------------------------ *)
(** ** Allocating, clearing and resizing the image *)

(** [calcGeometry].  The scroll bar is resized, moved, shown or hidden as a
    side effect on the toolkit, which the model leaves out.  [/] on [int]
    truncates, hence [Z.quot]; [fontChange] keeps [font_w] at 1 or more, and
    a division by 0, undefined in C++, would give 0 here. *)
Definition calcGeometry (d : TerminalDisplay) : TerminalDisplay :=
  let g := widget d in
  let bX' :=
    match scrollLoc g with
    | SCROLLBAR_NONE => rimX g
    | SCROLLBAR_LEFT => rimX g + scrollbarWidth g
    | SCROLLBAR_RIGHT => rimX g
    end in
  let contentWidth' :=
    match scrollLoc g with
    | SCROLLBAR_NONE => rw (contentsRect g) - 2 * rimX g
    | SCROLLBAR_LEFT => rw (contentsRect g) - 2 * rimX g - scrollbarWidth g
    | SCROLLBAR_RIGHT => rw (contentsRect g) - 2 * rimX g - scrollbarWidth g
    end in
  let bY' := rimY g in
  let contentHeight' := rh (contentsRect g) - 2 * rimY g + 1 in
  let columns' :=
    if isFixedSize d then columns d else Z.max 1 (Z.quot contentWidth' (font_w g)) in
  let usedColumns' :=
    if isFixedSize d then usedColumns d else Z.min (usedColumns d) columns' in
  let lines' :=
    if isFixedSize d then lines d else Z.max 1 (Z.quot contentHeight' (font_h g)) in
  let usedLines' :=
    if isFixedSize d then usedLines d else Z.min (usedLines d) lines' in
  {| image := image d; image_size := image_size d;
     lines := lines'; columns := columns';
     usedLines := usedLines'; usedColumns := usedColumns';
     contentWidth := contentWidth'; contentHeight := contentHeight';
     bX := bX'; bY := bY';
     lineProperties := lineProperties d;
     hasBlinker := hasBlinker d; blinking := blinking d;
     blinkT_isActive := blinkT_isActive d;
     resizing := resizing d; isFixedSize := isFixedSize d;
     m_isIMEdit := m_isIMEdit d; m_isIMSel := m_isIMSel d;
     imState := imState d; widget := widget d |}.

(** [clearImage] on an array of [image_size + 1] cells:
    [for (int i = 0; i <= image_size; i++) image[i] = blank]. *)
Definition clearImage `{HeaderConstants} (size : Z) (img : list Character)
  : list Character :=
  for_range 0 (size + 1) (fun i a => set_at a i blankCharacter) img.

(** [malloc(n * sizeof(Character))]: [n] cells of unspecified content. *)
Definition malloc_cells (n : Z) : list Character :=
  repeat strayCharacter (Z.to_nat n).

Definition with_image (d : TerminalDisplay) (size : Z) (img : option (list Character))
  : TerminalDisplay :=
  {| image := img; image_size := size;
     lines := lines d; columns := columns d;
     usedLines := usedLines d; usedColumns := usedColumns d;
     contentWidth := contentWidth d; contentHeight := contentHeight d;
     bX := bX d; bY := bY d;
     lineProperties := lineProperties d;
     hasBlinker := hasBlinker d; blinking := blinking d;
     blinkT_isActive := blinkT_isActive d;
     resizing := resizing d; isFixedSize := isFixedSize d;
     m_isIMEdit := m_isIMEdit d; m_isIMSel := m_isIMSel d;
     imState := imState d; widget := widget d |}.

Definition with_resizing (d : TerminalDisplay) (b : bool) : TerminalDisplay :=
  {| image := image d; image_size := image_size d;
     lines := lines d; columns := columns d;
     usedLines := usedLines d; usedColumns := usedColumns d;
     contentWidth := contentWidth d; contentHeight := contentHeight d;
     bX := bX d; bY := bY d;
     lineProperties := lineProperties d;
     hasBlinker := hasBlinker d; blinking := blinking d;
     blinkT_isActive := blinkT_isActive d;
     resizing := b; isFixedSize := isFixedSize d;
     m_isIMEdit := m_isIMEdit d; m_isIMSel := m_isIMSel d;
     imState := imState d; widget := widget d |}.

(** [makeImage]; [None] when one of its assertions fails. *)
Definition makeImage `{HeaderConstants} (d : TerminalDisplay) : option TerminalDisplay :=
  let d1 := calcGeometry d in
  if (0 <? lines d1) && (0 <? columns d1) &&
     (usedLines d1 <=? lines d1) && (usedColumns d1 <=? columns d1)
  then
    let size := lines d1 * columns d1 in
    Some (with_image d1 size (Some (clearImage size (malloc_cells (size + 1)))))
  else None.

(** The row copy of [updateImageSize]:
    [for (lin = 0; lin < lins; lin++)
       memcpy(&image[columns*lin], &oldimg[oldcol*lin], cols*sizeof(Character))] *)
Definition copyOldImage (img oldimg : list Character) (columns' oldcol lins cols : Z)
  : list Character :=
  for_range 0 lins
    (fun lin a => memcpy a (columns' * lin) oldimg (oldcol * lin) cols) img.

(** [updateImageSize].  While [resizing] is set the code emits
    [changedContentSizeSignal]; the slots connected to it are outside this
    file, and [resizing] is false again on return. *)
Definition updateImageSize `{HeaderConstants} (d : TerminalDisplay)
  : option TerminalDisplay :=
  let oldimg := image d in
  let oldlin := lines d in
  let oldcol := columns d in
  match makeImage d with
  | None => None
  | Some d1 =>
      let lins := Z.min oldlin (lines d1) in
      let cols := Z.min oldcol (columns d1) in
      let d2 :=
        match oldimg, image d1 with
        | Some old, Some img =>
            with_image d1 (image_size d1)
              (Some (copyOldImage img old (columns d1) oldcol lins cols))
        | _, _ => d1
        end in
      Some (with_resizing d2 false)
  end.

(** [setFixedSize(cols, lins)] *)
Definition setFixedSize `{HeaderConstants} (d : TerminalDisplay) (cols lins : Z)
  : option TerminalDisplay :=
  let columns' := Z.max 1 cols in
  let lines' := Z.max 1 lins in
  let d1 :=
    {| image := image d; image_size := image_size d;
       lines := lines'; columns := columns';
       usedLines := Z.min (usedLines d) lines';
       usedColumns := Z.min (usedColumns d) columns';
       contentWidth := contentWidth d; contentHeight := contentHeight d;
       bX := bX d; bY := bY d;
       lineProperties := lineProperties d;
       hasBlinker := hasBlinker d; blinking := blinking d;
       blinkT_isActive := blinkT_isActive d;
       resizing := resizing d; isFixedSize := true;
       m_isIMEdit := m_isIMEdit d; m_isIMSel := m_isIMSel d;
       imState := imState d; widget := widget d |} in
  match image d with
  | Some _ => makeImage d1
  | None => Some d1
  end.

(** [scrollImage(lines)]; [None] when its assertion fails.  The call of
    [QWidget::scroll] that moves the pixels is left out. *)
Definition scrollImage (d : TerminalDisplay) (n : Z) : option TerminalDisplay :=
  match image d with
  | None => Some d
  | Some img =>
      if (n =? 0) || (usedLines d <=? Z.abs n) then Some d
      else if 0 <? n then
        if n * usedColumns d <? image_size d then
          Some (with_image d (image_size d)
                  (Some (memcpy img 0 img (n * usedColumns d)
                                ((usedLines d - n) * usedColumns d))))
        else None
      else
        Some (with_image d (image_size d)
                (Some (memcpy img (Z.abs n * usedColumns d) img 0
                              ((usedLines d - Z.abs n) * usedColumns d))))
  end.

(* ------------------------------------------------------------------ *)
(** ** [updateImage]: the differencer *)

(** The input-method half of the dirty test, with the precedence the
    expression has in the source ([&&] binds tighter than [||]):
[[
   (m_imPreeditLength > 0)
   && (   (m_imStartLine == y)
          && ((m_imStart < m_imEnd) && (x > m_imStart) && (x < m_imEnd))
       || ((m_imSelStart < m_imSelEnd) && (x > m_imSelStart)))
]] *)
Definition inPreeditSpan (im : InputMethodState) (y x : Z) : bool :=
  (0 <? m_imPreeditLength im) &&
  (((m_imStartLine im =? y) &&
    ((m_imStart im <? m_imEnd im) && (m_imStart im <? x) && (x <? m_imEnd im)))
   || ((m_imSelStart im <? m_imSelEnd im) && (m_imSelStart im <? x))).

(** The condition under which column [x] of a row marks the mask:
    [inPreeditSpan || newLine[x] != currentLine[x]]. *)
Definition cellDirty (im : InputMethodState) (y : Z)
                     (newLine currentLine : Z -> Character) (x : Z) : bool :=
  inPreeditSpan im y x || Character_neqb (newLine x) (currentLine x).

(** The mask as allocated: [columnsToUpdate + 2] bytes, zeroed by [memset],
    then [dirtyMask[x] = dirtyMask[x+1] = dirtyMask[x+2] = 1] for every
    column [x] that passes the test. *)
Definition buildDirtyMask (test : Z -> bool) (columnsToUpdate : Z) : list bool :=
  for_range 0 columnsToUpdate
    (fun x m =>
       if test x
       then set_at (set_at (set_at m (x + 2) true) (x + 1) true) x true
       else m)
    (repeat false (Z.to_nat (columnsToUpdate + 2))).

(** [dirtyMask[x]] after [dirtyMask++]. *)
Definition dirtyMask_at (raw : list bool) (x : Z) : bool := get_at false raw (x + 1).

(** A run of cells found by the scan: where it starts, how many columns it
    spans, the code points collected in [disstrU], and its two glyph
    properties. *)
Record Run : Type := mkRun
  { run_x : Z;
    run_len : Z;
    run_str : list Z;
    run_lineDraw : bool;
    run_doubleWidth : bool }.

(** Whether the cell at offset [len] of a run stops it: the [if ... break]
    of the inner loop. *)
Definition breaksRun (newLine : Z -> Character) (dirty : Z -> bool) (x : Z)
    (cf cb : CharacterColor) (cr : Z) (lineDraw doubleWidth : bool) (len : Z) : bool :=
  negb (CharacterColor_eqb (foregroundColor (newLine (x + len))) cf)
  || negb (CharacterColor_eqb (backgroundColor (newLine (x + len))) cb)
  || negb (rendition (newLine (x + len)) =? cr)
  || negb (dirty (x + len))
  || negb (Bool.eqb (isLineChar (character (newLine (x + len)))) lineDraw)
  || negb (Bool.eqb (character (newLine (x + len + 1)) =? 0) doubleWidth).

(** The inner loop [for (len = 1; len < lln; len++)]: [n] is the number of
    iterations still allowed by [len < lln]; the result is the value of
    [len] on exit and the code points collected. *)
Fixpoint extendRun (newLine : Z -> Character) (dirty : Z -> bool) (x : Z)
    (cf cb : CharacterColor) (cr : Z) (lineDraw doubleWidth : bool)
    (n : nat) (len : Z) (str : list Z) : Z * list Z :=
  match n with
  | O => (len, str)
  | S n' =>
      let c := character (newLine (x + len)) in
      if c =? 0
      then extendRun newLine dirty x cf cb cr lineDraw doubleWidth n' (len + 1) str
      else if breaksRun newLine dirty x cf cb cr lineDraw doubleWidth len
      then (len, str)
      else extendRun newLine dirty x cf cb cr lineDraw doubleWidth n' (len + 1)
                     (str ++ [c])
  end.

(** The run that starts at column [x] (whose code point is not 0). *)
Definition runFrom (newLine : Z -> Character) (dirty : Z -> bool)
    (columnsToUpdate x : Z) : Run :=
  let c := character (newLine x) in
  let lineDraw := isLineChar c in
  let doubleWidth := character (newLine (x + 1)) =? 0 in
  let cr := rendition (newLine x) in
  let cb := backgroundColor (newLine x) in
  let cf := foregroundColor (newLine x) in
  let lln := columnsToUpdate - x in
  let '(len, str) :=
    extendRun newLine dirty x cf cb cr lineDraw doubleWidth
              (Z.to_nat (lln - 1)) 1 [c] in
  mkRun x len str lineDraw doubleWidth.

(** What the column loop of one row carries: [updateLine], the members
    [hasBlinker], [m_isIMEdit] and [m_isIMSel], and, as a record of what the
    loop did, the runs it found from left to right. *)
Record RowScan : Type := mkRowScan
  { rs_updateLine : bool;
    rs_hasBlinker : bool;
    rs_isIMEdit : bool;
    rs_isIMSel : bool;
    rs_runs : list Run }.

(** The settings of [m_isIMEdit] and [m_isIMSel] after a run. *)
Definition imEditAfterRun (im : InputMethodState) (y : Z) (r : Run) : bool :=
  if m_imStartLine im =? y then
    (m_imStart im <? m_imEnd im) && (m_imStart im - 1 <=? run_x r) &&
    (run_x r + Z.of_nat (length (run_str r)) <=? m_imEnd im)
  else if m_imStartLine im <? y then m_imStart im <? m_imEnd im
  else false.

Definition imSelAfterRun (im : InputMethodState) (y : Z) (r : Run) : bool :=
  if m_imStartLine im =? y then
    (m_imSelStart im <? m_imSelEnd im) && (m_imStart im - 1 <=? run_x r) &&
    (run_x r + Z.of_nat (length (run_str r)) <=? m_imEnd im)
  else if m_imStartLine im <? y then m_imSelStart im <? m_imSelEnd im
  else false.

(** The column loop [for (x = 0; x < columnsToUpdate; x++)], which a run
    advances by its length.  Every iteration moves [x] forward by at least
    one, so [fuel = columnsToUpdate - x] iterations reach the end. *)
Fixpoint scanRow `{HeaderConstants} (im : InputMethodState) (y : Z)
    (newLine : Z -> Character) (dirty : Z -> bool) (columnsToUpdate : Z)
    (fuel : nat) (x : Z) (acc : RowScan) : RowScan :=
  match fuel with
  | O => acc
  | S fuel' =>
      if x <? columnsToUpdate then
        let acc1 :=
          mkRowScan (rs_updateLine acc)
                    (rs_hasBlinker acc
                     || negb (Z.land (rendition (newLine x)) RE_BLINK =? 0))
                    (rs_isIMEdit acc) (rs_isIMSel acc) (rs_runs acc) in
        if dirty x then
          if character (newLine x) =? 0
          then scanRow im y newLine dirty columnsToUpdate fuel' (x + 1) acc1
          else
            let r := runFrom newLine dirty columnsToUpdate x in
            let acc2 :=
              mkRowScan true (rs_hasBlinker acc1)
                        (imEditAfterRun im y r) (imSelAfterRun im y r)
                        (rs_runs acc1 ++ [r]) in
            scanRow im y newLine dirty columnsToUpdate fuel'
                    (x + (run_len r - 1) + 1) acc2
        else scanRow im y newLine dirty columnsToUpdate fuel' (x + 1) acc1
      else acc
  end.

(** What the row loop did for one row: the row, the runs found in it and
    the final value of [updateLine]. *)
Record RowReport : Type := mkRowReport
  { row_y : Z;
    row_runs : list Run;
    row_updateLine : bool }.

(** What the row loop of [updateImage] carries: the retained image, the
    region, the three members the column loop writes, [dirtyLineCount], and
    the reports of the rows visited so far. *)
Record DiffState : Type := mkDiffState
  { ds_image : list Character;
    ds_region : QRegion;
    ds_hasBlinker : bool;
    ds_isIMEdit : bool;
    ds_isIMSel : bool;
    ds_dirtyLineCount : Z;
    ds_rows : list RowReport }.

(** [lineProperties.count() > y && (lineProperties[y] & LINE_DOUBLEHEIGHT)] *)
Definition isDoubleHeight `{HeaderConstants} (lineProperties : list Z) (y : Z) : bool :=
  (y <? Z.of_nat (length lineProperties)) &&
  negb (Z.land (get_at 0 lineProperties y) LINE_DOUBLEHEIGHT =? 0).

(** The rectangle a flagged row adds:
    [QRect(bX+tLx, bY+tLy+font_h*y, font_w*columnsToUpdate, font_h)]. *)
Definition rowRect (d : TerminalDisplay) (columnsToUpdate y : Z) : QRect :=
  mkQRect (bX d + tLx d) (bY d + tLy d + font_h (widget d) * y)
          (font_w (widget d) * columnsToUpdate) (font_h (widget d)).

(** [newLine = &newimg[y*columns]] and [currentLine = &image[y*this->columns]],
    as the functions [x |-> newLine[x]] and [x |-> currentLine[x]]. *)
Definition newLine_of (newimg : list Character) (columns' y : Z) : Z -> Character :=
  fun x => cell_at newimg (y * columns' + x).

Definition currentLine_of (d : TerminalDisplay) (img : list Character) (y : Z)
  : Z -> Character :=
  fun x => cell_at img (y * columns d + x).

(** The dirty mask of row [y], as allocated. *)
Definition rowDirtyMask (d : TerminalDisplay) (newimg : list Character)
    (columns' columnsToUpdate y : Z) (img : list Character) : list bool :=
  buildDirtyMask
    (cellDirty (imState d) y (newLine_of newimg columns' y) (currentLine_of d img y))
    columnsToUpdate.

(** The column scan of row [y], guarded by [if (!resizing)]. *)
Definition scanOfRow `{HeaderConstants} (d : TerminalDisplay)
    (newimg : list Character) (columns' columnsToUpdate y : Z)
    (img : list Character) (blinker imEdit imSel : bool) : RowScan :=
  let raw := rowDirtyMask d newimg columns' columnsToUpdate y img in
  let start := mkRowScan false blinker imEdit imSel [] in
  if resizing d then start
  else scanRow (imState d) y (newLine_of newimg columns' y) (dirtyMask_at raw)
               columnsToUpdate (Z.to_nat columnsToUpdate) 0 start.

(** The body of [for (y = 0; y < linesToUpdate; y++)]. *)
Definition updateRow `{HeaderConstants} (d : TerminalDisplay)
    (newimg : list Character) (columns' columnsToUpdate : Z)
    (y : Z) (s : DiffState) : DiffState :=
  let sc := scanOfRow d newimg columns' columnsToUpdate y (ds_image s)
                      (ds_hasBlinker s) (ds_isIMEdit s) (ds_isIMSel s) in
  let updateLine := rs_updateLine sc || isDoubleHeight (lineProperties d) y in
  {| ds_image := memcpy (ds_image s) (y * columns d) newimg (y * columns')
                        columnsToUpdate;
     ds_region := if updateLine
                  then QRegion_unite (ds_region s) (rowRect d columnsToUpdate y)
                  else ds_region s;
     ds_hasBlinker := rs_hasBlinker sc;
     ds_isIMEdit := rs_isIMEdit sc;
     ds_isIMSel := rs_isIMSel sc;
     ds_dirtyLineCount := if updateLine then ds_dirtyLineCount s + 1
                          else ds_dirtyLineCount s;
     ds_rows := ds_rows s ++ [mkRowReport y (rs_runs sc) updateLine] |}.

(** The two rectangles that clear the area the image no longer uses. *)
Definition clearLinesRect (d : TerminalDisplay) (linesToUpdate : Z) : QRect :=
  mkQRect (bX d + tLx d) (bY d + tLy d + font_h (widget d) * linesToUpdate)
          (font_w (widget d) * columns d)
          (font_h (widget d) * (usedLines d - linesToUpdate)).

Definition clearColumnsRect (d : TerminalDisplay) (columnsToUpdate : Z) : QRect :=
  mkQRect (bX d + tLx d + columnsToUpdate * font_w (widget d)) (bY d + tLy d)
          (font_w (widget d) * (usedColumns d - columnsToUpdate))
          (font_h (widget d) * lines d).

(** What [updateImage] leaves behind: the widget, the window (its scroll
    count reset), the region passed to [update], and the row reports. *)
Record UpdateResult : Type := mkUpdateResult
  { ur_display : TerminalDisplay;
    ur_window : ScreenWindow;
    ur_dirtyRegion : QRegion;
    ur_rows : list RowReport }.

(** [if (!image) updateImageSize();] *)
Definition ensureImage `{HeaderConstants} (d : TerminalDisplay)
  : option TerminalDisplay :=
  match image d with
  | Some _ => Some d
  | None => updateImageSize d
  end.

Definition linesToUpdate_of (d : TerminalDisplay) (w : ScreenWindow) : Z :=
  Z.min (lines d) (Z.max 0 (windowLines w)).

Definition columnsToUpdate_of (d : TerminalDisplay) (w : ScreenWindow) : Z :=
  Z.min (columns d) (Z.max 0 (windowColumns w)).

(** [updateImage] once the image exists and the assertions hold. *)
Definition diffImage `{HeaderConstants} (d : TerminalDisplay) (w : ScreenWindow)
    (img : list Character) : UpdateResult :=
  let newimg := getImage w in
  let linesToUpdate := linesToUpdate_of d w in
  let columnsToUpdate := columnsToUpdate_of d w in
  let s := for_range 0 linesToUpdate
             (updateRow d newimg (windowColumns w) columnsToUpdate)
             (mkDiffState img [] false (m_isIMEdit d) (m_isIMSel d) 0 []) in
  let rg1 := if linesToUpdate <? usedLines d
             then QRegion_unite (ds_region s) (clearLinesRect d linesToUpdate)
             else ds_region s in
  let rg2 := if columnsToUpdate <? usedColumns d
             then QRegion_unite rg1 (clearColumnsRect d columnsToUpdate)
             else rg1 in
  let blinker := ds_hasBlinker s in
  {| ur_display :=
       {| image := Some (ds_image s); image_size := image_size d;
          lines := lines d; columns := columns d;
          usedLines := linesToUpdate; usedColumns := columnsToUpdate;
          contentWidth := contentWidth d; contentHeight := contentHeight d;
          bX := bX d; bY := bY d;
          lineProperties := lineProperties d;
          hasBlinker := blinker;
          blinking := if negb blinker && blinkT_isActive d then false
                      else blinking d;
          blinkT_isActive := blinker;
          resizing := resizing d; isFixedSize := isFixedSize d;
          m_isIMEdit := ds_isIMEdit s; m_isIMSel := ds_isIMSel s;
          imState := imState d; widget := widget d |};
     ur_window := w;
     ur_dirtyRegion := rg2;
     ur_rows := ds_rows s |}.

(** [updateImage]; [None] when an assertion fails.  [setScroll], the
    repaint request [update(dirtyRegion)] and [showResizeNotification] act
    on the toolkit only; the region is returned instead. *)
Definition updateImage `{HeaderConstants} (d : TerminalDisplay) (w : ScreenWindow)
  : option UpdateResult :=
  match scrollImage d (scrollCount w) with
  | None => None
  | Some d1 =>
      let w1 := resetScrollCount w in
      match ensureImage d1 with
      | None => None
      | Some d2 =>
          match image d2 with
          | None => None
          | Some img =>
              if (usedLines d2 <=? lines d2) && (usedColumns d2 <=? columns d2)
              then Some (diffImage d2 w1 img)
              else None
          end
      end
  end.

(* ------------------------------------------------------------------ *)
(** ** The double-width probe of [paintContents] *)

(** The index [qMin(loc(x,y)+1, image_size)] at which [paintContents] looks
    for the trailing half of a double-width glyph. *)
Definition probeIndex (d : TerminalDisplay) (x y : Z) : Z :=
  Z.min (loc d x y + 1) (image_size d).

(** [bool doubleWidth = (image[qMin(loc(x,y)+1,image_size)].character == 0)] *)
Definition paintContents_doubleWidth (d : TerminalDisplay) (img : list Character)
    (x y : Z) : bool :=
  character (cell_at img (probeIndex d x y)) =? 0.

(* ------------------------------------------------------------------ *)
(** ** The line store of the history *)

Module History.

(** Modelled from the spec: only the declaration of [HistoryScrollFile] is
    among the sources; its member functions and [HistoryFile] are missing.
    The spec describes three parallel append-only arrays: an index array of
    increasing offsets, one per line boundary, a cell array holding the
    cells of all lines one after the other, and a flag array with one byte
    per line. *)
Record HistoryScrollFile : Type := mkHistoryScrollFile
  { _index : list Z;
    _cells : list Character;
    _lineflags : list Z }.

(** Modelled from the spec: the store without lines.  The spec's formula for
    the length of line 0, [index[1] - index[0]], needs the boundary before
    the first line, so the index array starts out holding offset 0. *)
Definition empty : HistoryScrollFile :=
  mkHistoryScrollFile [0] [] [].

(** Modelled from the spec: one line per boundary after the first. *)
Definition getLines (h : HistoryScrollFile) : Z :=
  Z.of_nat (length (_index h)) - 1.

(** Modelled from the spec: the offset [index[lineno]] at which a line
    starts. *)
Definition startOfLine (h : HistoryScrollFile) (lineno : Z) : Z :=
  get_at 0 (_index h) lineno.

(** Modelled from the spec: [getLineLen(lineno) = index[lineno+1] -
    index[lineno]]. *)
Definition getLineLen (h : HistoryScrollFile) (lineno : Z) : Z :=
  startOfLine h (lineno + 1) - startOfLine h lineno.

(** Modelled from the spec: [getCells] copies [count] cells starting at
    [index[lineno] + colno]; it fails with an out-of-range error unless
    [colno + count <= getLineLen(lineno)], and also for a line that does not
    exist or a negative column or count. *)
Definition getCells (h : HistoryScrollFile) (lineno colno count : Z)
  : option (list Character) :=
  if (0 <=? lineno) && (lineno <? getLines h) && (0 <=? colno) && (0 <=? count)
     && (colno + count <=? getLineLen h lineno)
  then Some (firstn (Z.to_nat count)
                    (skipn (Z.to_nat (startOfLine h lineno + colno)) (_cells h)))
  else None.

(** Modelled from the spec: [addCells(cells, count)] appends the first
    [count] cells of the argument to the cell array. *)
Definition addCells (h : HistoryScrollFile) (text : list Character) (count : Z)
  : HistoryScrollFile :=
  mkHistoryScrollFile (_index h)
                      (_cells h ++ firstn (Z.to_nat count) text)
                      (_lineflags h).

(** Modelled from the spec: [addLine(previousWrapped)] appends a new index
    boundary, the current end of the cell array, and a flag byte holding the
    wrapped flag. *)
Definition addLine (h : HistoryScrollFile) (previousWrapped : bool)
  : HistoryScrollFile :=
  mkHistoryScrollFile (_index h ++ [Z.of_nat (length (_cells h))])
                      (_cells h)
                      (_lineflags h ++ [if previousWrapped then 1 else 0]).

(** A run of [addCells] calls, one per [(text, count)] pair. *)
Definition addCellsAll (h : HistoryScrollFile) (chunks : list (list Character * Z))
  : HistoryScrollFile :=
  fold_left (fun s tc => addCells s (fst tc) (snd tc)) chunks h.

(** The cells such a run of calls hands over. *)
Definition written (chunks : list (list Character * Z)) : list Character :=
  concat (map (fun tc => firstn (Z.to_nat (snd tc)) (fst tc)) chunks).

(** The stores that can arise: the empty one and what [addCells] and
    [addLine] make of a store. *)
Inductive reachable : HistoryScrollFile -> Prop :=
  | reach_empty : reachable empty
  | reach_addCells h text count :
      reachable h -> reachable (addCells h text count)
  | reach_addLine h wrapped :
      reachable h -> reachable (addLine h wrapped).

(** No cell has been appended since the last [addLine]. *)
Definition lineComplete (h : HistoryScrollFile) : Prop :=
  last (_index h) 0 = Z.of_nat (length (_cells h)).

(** The cells appended since the last [addLine]: the line being built. *)
Definition pending (h : HistoryScrollFile) : list Character :=
  skipn (Z.to_nat (last (_index h) 0)) (_cells h).

End History.

(* ------------------------------------------------------------------ *)
(** ** Vocabulary of the statements *)

(** The cell at offset [k] of the run that starts at column [x] agrees with
    the run's first cell in foreground, background, rendition, line-drawing
    status and double-width status, and is marked dirty. *)
Definition continuesRun (newLine : Z -> Character) (dirty : Z -> bool) (x k : Z) : Prop :=
  foregroundColor (newLine (x + k)) = foregroundColor (newLine x) /\
  backgroundColor (newLine (x + k)) = backgroundColor (newLine x) /\
  rendition (newLine (x + k)) = rendition (newLine x) /\
  dirty (x + k) = true /\
  isLineChar (character (newLine (x + k))) = isLineChar (character (newLine x)) /\
  (character (newLine (x + k + 1)) =? 0) = (character (newLine (x + 1)) =? 0).

(** The code points other than 0 of the [n] cells from column [a] on. *)
Fixpoint nonzeroCodePoints (newLine : Z -> Character) (a : Z) (n : nat) : list Z :=
  match n with
  | O => []
  | S n' =>
      if character (newLine a) =? 0
      then nonzeroCodePoints newLine (a + 1) n'
      else character (newLine a) :: nonzeroCodePoints newLine (a + 1) n'
  end.

(** Row [y] holds a place where the column scan starts a run: the scan is
    not suppressed by [resizing], and some column of the compared width is
    marked dirty and has a code point other than 0. *)
Definition rowHasRun (d : TerminalDisplay) (newimg : list Character)
    (columns' columnsToUpdate y : Z) (img : list Character) : Prop :=
  resizing d = false /\
  exists x, 0 <= x < columnsToUpdate /\
            dirtyMask_at (rowDirtyMask d newimg columns' columnsToUpdate y img) x = true /\
            character (newLine_of newimg columns' y x) <> 0.

(** The rows [0], [1], ..., [n - 1]. *)
Definition rowsUpTo (n : Z) : list Z := map Z.of_nat (seq 0 (Z.to_nat n)).

(** The rows whose report says [updateLine], in the order visited. *)
Definition flaggedRows (reports : list RowReport) : list Z :=
  map row_y (filter row_updateLine reports).

(** What holds after the rows [0 .. k-1]: the rows of the image below [k]
    hold the new cells over the compared width and nothing else has changed;
    every row has been visited once, in order; a row's report says
    [updateLine] exactly when a run was found in it or it is double height,
    and a run was found exactly when the row, compared with the image as it
    was on entry, has a dirty column with a code point; the region consists
    of the rectangles of the flagged rows. *)
Definition rowLoopInv `{HeaderConstants} (d : TerminalDisplay)
    (newimg img : list Character) (columns' columnsToUpdate : Z)
    (k : Z) (st : DiffState) : Prop :=
  length (ds_image st) = length img /\
  (forall y x, 0 <= y -> 0 <= x < columns d ->
     cell_at (ds_image st) (y * columns d + x) =
     if (y <? k) && (x <? columnsToUpdate)
        && (y * columns d + x <? Z.of_nat (length img))
     then cell_at newimg (y * columns' + x)
     else cell_at img (y * columns d + x)) /\
  map row_y (ds_rows st) = rowsUpTo k /\
  (forall rep, In rep (ds_rows st) ->
     (row_updateLine rep = true <->
      row_runs rep <> [] \/ isDoubleHeight (lineProperties d) (row_y rep) = true) /\
     (row_runs rep <> [] <->
      rowHasRun d newimg columns' columnsToUpdate (row_y rep) img)) /\
  ds_region st = map (rowRect d columnsToUpdate) (flaggedRows (ds_rows st)) /\
  ds_dirtyLineCount st = Z.of_nat (length (flaggedRows (ds_rows st))).

(** The rectangles [updateImage] adds after the row loop. *)
Definition clearRects (d : TerminalDisplay) (linesToUpdate columnsToUpdate : Z)
  : list QRect :=
  (if linesToUpdate <? usedLines d then [clearLinesRect d linesToUpdate] else [])
  ++ (if columnsToUpdate <? usedColumns d then [clearColumnsRect d columnsToUpdate]
      else []).

(** The display has a sensible extent, and its image, once allocated, has
    [lines * columns + 1] cells. *)
Definition wellFormed (d : TerminalDisplay) : Prop :=
  0 < lines d /\ 0 < columns d /\
  usedLines d <= lines d /\ usedColumns d <= columns d /\
  match image d with
  | None => True
  | Some img =>
      image_size d = lines d * columns d /\
      Z.of_nat (length img) = image_size d + 1
  end.

(** The window's grid and the retained image [img] have the same
    dimensions and hold the same cell at every row and column. *)
Definition sameGrid (d : TerminalDisplay) (img : list Character) (w : ScreenWindow)
  : Prop :=
  windowLines w = lines d /\ windowColumns w = columns d /\
  forall y x, 0 <= y < lines d -> 0 <= x < columns d ->
    cell_at (getImage w) (y * windowColumns w + x) = cell_at img (loc d x y).

(** No row of the first [n] carries the double-height flag. *)
Definition noDoubleHeight `{HeaderConstants} (d : TerminalDisplay) (n : Z) : Prop :=
  forall y, 0 <= y < n -> isDoubleHeight (lineProperties d) y = false.

(** A reading of "the row iteration skips the row below a double-height
    row": no such row is among the rows the loop visited. *)
Definition skipsBottomHalves `{HeaderConstants} (d : TerminalDisplay)
    (res : UpdateResult) : Prop :=
  forall y, isDoubleHeight (lineProperties d) y = true ->
            ~ In (y + 1) (map row_y (ur_rows res)).

(** A reading of "the region is the union of the per-row rectangles": a
    point lies in the region exactly when it lies in the rectangle of a
    flagged row. *)
Definition regionIsRowRects (d : TerminalDisplay) (columnsToUpdate : Z)
    (res : UpdateResult) : Prop :=
  forall px py,
    QRegion_contains (ur_dirtyRegion res) px py = true <->
    exists y, In y (flaggedRows (ur_rows res)) /\
              QRect_contains (rowRect d columnsToUpdate y) px py = true.

(** The members that describe the image and its extent are the same in two
    displays. *)
Definition sameImageMembers (d d' : TerminalDisplay) : Prop :=
  image d' = image d /\ image_size d' = image_size d /\
  lines d' = lines d /\ columns d' = columns d /\
  usedLines d' = usedLines d /\ usedColumns d' = usedColumns d.

(** The displays that can arise once the image has been created: by
    [updateImageSize] from any display, and from there by [setFixedSize],
    [scrollImage] and [updateImage], and by whatever changes the other
    members only. *)
Inductive reachableDisplay `{HeaderConstants} : TerminalDisplay -> Prop :=
  | reach_updateImageSize d d' :
      updateImageSize d = Some d' -> reachableDisplay d'
  | reach_setFixedSize d cols lins d' :
      reachableDisplay d -> setFixedSize d cols lins = Some d' -> reachableDisplay d'
  | reach_scrollImage d n d' :
      reachableDisplay d -> scrollImage d n = Some d' -> reachableDisplay d'
  | reach_updateImage d w res :
      reachableDisplay d -> updateImage d w = Some res ->
      reachableDisplay (ur_display res)
  | reach_otherMembers d d' :
      reachableDisplay d -> sameImageMembers d d' -> reachableDisplay d'.

(** The image exists, the display is well formed, and the extra cell
    [image[image_size]] holds the blank cell. *)
Definition sentinelBlank `{HeaderConstants} (d : TerminalDisplay) : Prop :=
  wellFormed d /\
  exists img, image d = Some img /\ cell_at img (image_size d) = blankCharacter.

(* ------------------------------------------------------------------ *)
(** ** Concrete displays and windows *)

(** A choice of the header constants on which the definitions can be
    evaluated. *)
Definition exampleConstants : HeaderConstants :=
  {| COLOR_SPACE_DEFAULT := 1;
     DEFAULT_FORE_COLOR := 0;
     DEFAULT_BACK_COLOR := 1;
     DEFAULT_RENDITION := 0;
     RE_BLINK := 2;
     LINE_DOUBLEHEIGHT := 4 |}.

(** A cell with code point [c], the default colours and no rendition. *)
Definition plainCell (c : Z) : Character :=
  mkCharacter c 0 (CharacterColor_of 1 0) (CharacterColor_of 1 1).

(** A widget whose contents rectangle is 30 by 41 pixels, with rims of one
    pixel, no scroll bar and a font of 10 by 20 pixels: room for a grid of 2
    lines by 2 columns. *)
Definition exampleWidget : WidgetGeometry :=
  mkWidgetGeometry (mkQRect 0 0 30 41) 1 1 SCROLLBAR_NONE 0 10 20.

Definition idleInputMethod : InputMethodState := mkInputMethodState 0 0 0 0 0 0.

(** A display of fixed size holding [img], with the given extent and line
    properties. *)
Definition exampleDisplay (img : list Character)
    (lines' columns' usedLines' usedColumns' : Z) (lineProps : list Z)
  : TerminalDisplay :=
  {| image := Some img; image_size := lines' * columns';
     lines := lines'; columns := columns';
     usedLines := usedLines'; usedColumns := usedColumns';
     contentWidth := 28; contentHeight := 40; bX := 1; bY := 1;
     lineProperties := lineProps;
     hasBlinker := false; blinking := false; blinkT_isActive := false;
     resizing := false; isFixedSize := true;
     m_isIMEdit := false; m_isIMSel := false;
     imState := idleInputMethod; widget := exampleWidget |}.

(** The display as its constructor leaves it: one line, one column, no
    image yet, free to follow the widget's size. *)
Definition freshDisplay : TerminalDisplay :=
  {| image := None; image_size := 0;
     lines := 1; columns := 1; usedLines := 1; usedColumns := 1;
     contentWidth := 0; contentHeight := 0; bX := 0; bY := 0;
     lineProperties := [];
     hasBlinker := false; blinking := false; blinkT_isActive := false;
     resizing := false; isFixedSize := false;
     m_isIMEdit := false; m_isIMSel := false;
     imState := idleInputMethod; widget := exampleWidget |}.

(** One row of four columns: blank on the display; the window shows [A],
    a double-width glyph (code point 0x3042 and its trailing half) and [B]. *)
Definition wideOld : list Character :=
  [plainCell 32; plainCell 32; plainCell 32; plainCell 32; plainCell 32].
Definition wideNew : list Character :=
  [plainCell 65; plainCell 0x3042; plainCell 0; plainCell 66; plainCell 32].
Definition wideDisplay : TerminalDisplay := exampleDisplay wideOld 1 4 1 4 [0].
Definition wideRun : Run := mkRun 1 2 [0x3042] false true.

(** One row of two columns showing [AB], on the display and in the window. *)
Definition rowAB : list Character := [plainCell 65; plainCell 66; plainCell 32].
Definition rowBlank : list Character := [plainCell 32; plainCell 32; plainCell 32].
Definition windowAB : ScreenWindow := mkScreenWindow 0 rowAB 1 2.

Definition displayAB : TerminalDisplay := exampleDisplay rowAB 1 2 1 2 [0].
Definition displayAB_doubleHeight : TerminalDisplay := exampleDisplay rowAB 1 2 1 2 [4].
Definition displayBlank : TerminalDisplay := exampleDisplay rowBlank 1 2 1 2 [0].
Definition displayBlank_doubleHeight : TerminalDisplay :=
  exampleDisplay rowBlank 1 2 1 2 [4].

(** Two rows of two columns, both double height and blank on the display;
    the window shows [AA] in both. *)
Definition gridBlank : list Character :=
  [plainCell 32; plainCell 32; plainCell 32; plainCell 32; plainCell 32].
Definition gridAA : list Character :=
  [plainCell 65; plainCell 65; plainCell 65; plainCell 65; plainCell 32].
Definition displayTwoRows_doubleHeight : TerminalDisplay :=
  exampleDisplay gridBlank 2 2 2 2 [4; 4].
Definition windowAA : ScreenWindow := mkScreenWindow 0 gridAA 2 2.

(** Two rows of two columns in use on the display; the window has shrunk to
    one row, or to one row of one column, holding what the display holds. *)
Definition displayTwoRows : TerminalDisplay := exampleDisplay gridBlank 2 2 2 2 [0; 0].
Definition windowOneRow : ScreenWindow := mkScreenWindow 0 gridBlank 1 2.

(** One row of three columns on a display that follows the widget's size:
    [updateImageSize] turns it into two rows of two columns. *)
Definition rowABC : list Character :=
  [plainCell 65; plainCell 66; plainCell 67; plainCell 32].
Definition displayABC : TerminalDisplay :=
  {| image := Some rowABC; image_size := 3;
     lines := 1; columns := 3; usedLines := 1; usedColumns := 3;
     contentWidth := 38; contentHeight := 20; bX := 1; bY := 1;
     lineProperties := [0];
     hasBlinker := false; blinking := false; blinkT_isActive := false;
     resizing := false; isFixedSize := false;
     m_isIMEdit := false; m_isIMSel := false;
     imState := idleInputMethod; widget := exampleWidget |}.

(** Two rows of five columns, blank on the display; the window shows
    [AB CD] in row 0. *)
Definition gridTwoByFive : list Character := repeat (plainCell 32) 11.
Definition gridAB_CD : list Character :=
  [plainCell 65; plainCell 66; plainCell 32; plainCell 67; plainCell 68]
  ++ repeat (plainCell 32) 6.
Definition displayTwoByFive : TerminalDisplay :=
  exampleDisplay gridTwoByFive 2 5 2 5 [0; 0].
Definition windowAB_CD : ScreenWindow := mkScreenWindow 0 gridAB_CD 2 5.



(** Two calls of [addCells] that make up the line [ABC]. *)
Definition chunksABC : list (list Character * Z) :=
  [([plainCell 65; plainCell 66], 2); ([plainCell 67; plainCell 68], 1)].

(* ------------------------------------------------------------------ *)
(** ** The history of terminal displays ([src/src/ViewManager.cpp]) *)

Module ViewManager.

(** A [TerminalDisplay*] other than [nullptr]: the address stands for the
    display. *)
Definition DisplayId : Type := nat.

(** The two members that record in which order the displays were used:
    [_terminalDisplayHistory], most recently used first, and
    [_terminalDisplayHistoryIndex], which is [-1] unless the user is walking
    through the history. *)
Record History : Type := mkHistory
  { _terminalDisplayHistory : list DisplayId;
    _terminalDisplayHistoryIndex : Z }.

Definition count (h : History) : Z :=
  Z.of_nat (length (_terminalDisplayHistory h)).

(** [_terminalDisplayHistory[i]]; [None] outside the list, where
    [QList::operator[]] asserts. *)
Definition at_index (h : History) (i : Z) : option DisplayId :=
  if i <? 0 then None else nth_error (_terminalDisplayHistory h) (Z.to_nat i).

(** [attachView] and [createView] end with
    [_terminalDisplayHistory.append(display)]. *)
Definition attachView (h : History) (display : DisplayId) : History :=
  mkHistory (_terminalDisplayHistory h ++ [display])
            (_terminalDisplayHistoryIndex h).

(** The loop of [updateTerminalDisplayHistory] on the list: the first entry
    equal to [terminalDisplay] is removed ([removeAt(i)], then [break]); the
    result is what is left of the list, or [None] when no entry is equal. *)
Fixpoint removeFirst (terminalDisplay : DisplayId) (l : list DisplayId)
  : option (list DisplayId) :=
  match l with
  | [] => None
  | a :: l' =>
      if Nat.eqb a terminalDisplay then Some l'
      else match removeFirst terminalDisplay l' with
           | Some r => Some (a :: r)
           | None => None
           end
  end.

(** [updateTerminalDisplayHistory] from its second [if] on, for a display
    that is not [nullptr]. *)
Definition reorder (h : History) (terminalDisplay : DisplayId) (remove : bool)
  : History :=
  if (0 <=? _terminalDisplayHistoryIndex h) && negb remove then h
  else
    match removeFirst terminalDisplay (_terminalDisplayHistory h) with
    | None => h
    | Some rest =>
        mkHistory (if remove then rest else terminalDisplay :: rest)
                  (_terminalDisplayHistoryIndex h)
    end.

(** [updateTerminalDisplayHistory(terminalDisplay, remove)];
    [terminalDisplay = None] is [nullptr].  The result is [None] when the
    index used to read the list is out of range. *)
Definition updateTerminalDisplayHistory (h : History)
    (terminalDisplay : option DisplayId) (remove : bool) : option History :=
  match terminalDisplay with
  | Some td => Some (reorder h td remove)
  | None =>
      if 0 <=? _terminalDisplayHistoryIndex h then
        match at_index h (_terminalDisplayHistoryIndex h) with
        | Some td => Some (reorder (mkHistory (_terminalDisplayHistory h) (-1)) td remove)
        | None => None
        end
      else Some h
  end.

(** [activateLastUsedView(reverse)]: the history with its new index, and the
    display handed to [switchToTerminalDisplay], if any.  The result is
    [None] when the index used to read the list is out of range.  What
    [switchToTerminalDisplay] does to the focus is left out. *)
Definition activateLastUsedView (h : History) (reverse : bool)
  : option (History * option DisplayId) :=
  if count h <=? 1 then Some (h, None)
  else
    let i := _terminalDisplayHistoryIndex h in
    let i' :=
      if i =? -1 then (if reverse then count h - 1 else 1)
      else if reverse then (if i =? 0 then count h - 1 else i - 1)
      else (if count h - 1 <=? i then 0 else i + 1) in
    let h' := mkHistory (_terminalDisplayHistory h) i' in
    match at_index h' i' with
    | Some td => Some (h', Some td)
    | None => None
    end.

(** [toggleTwoViews]: the display handed to [switchToTerminalDisplay]. *)
Definition toggleTwoViews (h : History) : option DisplayId :=
  if count h <=? 1 then None else at_index h 1.

(** What [focusAnotherTerminal] does. *)
Inductive FocusChoice : Type :=
  | SetFocus (terminalDisplay : DisplayId)
  | SwitchTo (terminalDisplay : DisplayId)
  | NoFocus.

(** [focusAnotherTerminal]; [tabTerminalDisplays] are the displays found in
    the tab. *)
Definition focusAnotherTerminal (h : History) (tabTerminalDisplays : list DisplayId)
  : FocusChoice :=
  if (1 <? length tabTerminalDisplays)%nat then
    match find (fun historyItem =>
                  existsb (fun terminalDisplay => Nat.eqb terminalDisplay historyItem)
                          tabTerminalDisplays)
               (_terminalDisplayHistory h) with
    | Some historyItem => SetFocus historyItem
    | None => NoFocus
    end
  else
    match _terminalDisplayHistory h with
    | first :: _ => SwitchTo first
    | [] => NoFocus
    end.

(** The end of [sessionFinished]: [updateTerminalDisplayHistory(view, true)]
    followed by [focusAnotherTerminal(toplevelSplitter)], whose displays are
    [tabTerminalDisplays]. *)
Definition sessionFinished (h : History) (view : DisplayId)
    (tabTerminalDisplays : list DisplayId) : option (History * FocusChoice) :=
  match updateTerminalDisplayHistory h (Some view) true with
  | Some h' => Some (h', focusAnotherTerminal h' tabTerminalDisplays)
  | None => None
  end.

End ViewManager.

(* ------------------------------------------------------------------ *)
(** ** Further functions of [TerminalDisplay.cpp] *)

(** [characterPosition(widgetPoint, line, column)]: the line and the column
    of the cell under a point of the widget, as the pair [(line, column)]. *)
Definition characterPosition (d : TerminalDisplay) (px py : Z) : Z * Z :=
  let column := Z.quot (px - rx (contentsRect (widget d)) - bX d) (font_w (widget d)) in
  let line := Z.quot (py - ry (contentsRect (widget d)) - bY d) (font_h (widget d)) in
  let line := if line <? 0 then 0 else line in
  let column := if column <? 0 then 0 else column in
  let line := if usedLines d <=? line then usedLines d - 1 else line in
  let column := if usedColumns d <=? column then usedColumns d - 1 else column in
  (line, column).

(** What [drawLineChar] asks the painter to draw: [drawLine(x1,y1,x2,y2)] or
    [drawPoint(x,y)]. *)
Inductive Primitive : Type :=
  | DrawLine (x1 y1 x2 y2 : Z)
  | DrawPoint (x y : Z).

(** [enum LineEncode] *)
Definition TopL : Z := Z.shiftl 1 1.
Definition TopC : Z := Z.shiftl 1 2.
Definition TopR : Z := Z.shiftl 1 3.
Definition LeftT : Z := Z.shiftl 1 5.
Definition Int11 : Z := Z.shiftl 1 6.
Definition Int12 : Z := Z.shiftl 1 7.
Definition Int13 : Z := Z.shiftl 1 8.
Definition RightT : Z := Z.shiftl 1 9.
Definition LeftC : Z := Z.shiftl 1 10.
Definition Int21 : Z := Z.shiftl 1 11.
Definition Int22 : Z := Z.shiftl 1 12.
Definition Int23 : Z := Z.shiftl 1 13.
Definition RightC : Z := Z.shiftl 1 14.
Definition LeftB : Z := Z.shiftl 1 15.
Definition Int31 : Z := Z.shiftl 1 16.
Definition Int32 : Z := Z.shiftl 1 17.
Definition Int33 : Z := Z.shiftl 1 18.
Definition RightB : Z := Z.shiftl 1 19.
Definition BotL : Z := Z.shiftl 1 21.
Definition BotC : Z := Z.shiftl 1 22.
Definition BotR : Z := Z.shiftl 1 23.

(** [if (toDraw & bit) paint.draw...] *)
Definition whenSet (toDraw bit : Z) (p : Primitive) : list Primitive :=
  if Z.land toDraw bit =? 0 then [] else [p].

(** [drawLineChar(paint, x, y, w, h, code)]: the primitives drawn, in order.
    The table [LineChars] comes from [linefont.h], which is not among the
    sources, and is a parameter. *)
Definition drawLineChar (LineChars : Z -> Z) (x y w h code : Z) : list Primitive :=
  let cx := x + Z.quot w 2 in
  let cy := y + Z.quot h 2 in
  let ex := x + w - 1 in
  let ey := y + h - 1 in
  let toDraw := LineChars code in
  whenSet toDraw TopL (DrawLine (cx - 1) y (cx - 1) (cy - 2))
  ++ whenSet toDraw TopC (DrawLine cx y cx (cy - 2))
  ++ whenSet toDraw TopR (DrawLine (cx + 1) y (cx + 1) (cy - 2))
  ++ whenSet toDraw BotL (DrawLine (cx - 1) (cy + 2) (cx - 1) ey)
  ++ whenSet toDraw BotC (DrawLine cx (cy + 2) cx ey)
  ++ whenSet toDraw BotR (DrawLine (cx + 1) (cy + 2) (cx + 1) ey)
  ++ whenSet toDraw LeftT (DrawLine x (cy - 1) (cx - 2) (cy - 1))
  ++ whenSet toDraw LeftC (DrawLine x cy (cx - 2) cy)
  ++ whenSet toDraw LeftB (DrawLine x (cy + 1) (cx - 2) (cy + 1))
  ++ whenSet toDraw RightT (DrawLine (cx + 2) (cy - 1) ex (cy - 1))
  ++ whenSet toDraw RightC (DrawLine (cx + 2) cy ex cy)
  ++ whenSet toDraw RightB (DrawLine (cx + 2) (cy + 1) ex (cy + 1))
  ++ whenSet toDraw Int11 (DrawPoint (cx - 1) (cy - 1))
  ++ whenSet toDraw Int12 (DrawPoint cx (cy - 1))
  ++ whenSet toDraw Int13 (DrawPoint (cx + 1) (cy - 1))
  ++ whenSet toDraw Int21 (DrawPoint (cx - 1) cy)
  ++ whenSet toDraw Int22 (DrawPoint cx cy)
  ++ whenSet toDraw Int23 (DrawPoint (cx + 1) cy)
  ++ whenSet toDraw Int31 (DrawPoint (cx - 1) (cy + 1))
  ++ whenSet toDraw Int32 (DrawPoint cx (cy + 1))
  ++ whenSet toDraw Int33 (DrawPoint (cx + 1) (cy + 1)).

(** [QChar::cell()]: the low byte of the code point. *)
Definition QChar_cell (c : Z) : Z := Z.land c 0xFF.

(** [drawLineCharString(painter, x, y, str, attributes)]: the primitives
    drawn for the characters [str[i]], [i] counting from [i0]; the width of
    the pen, which the rendition sets, is left out. *)
Fixpoint drawLineCharString_from (LineChars : Z -> Z) (font_w' font_h' x y : Z)
    (i0 : Z) (str : list Z) : list Primitive :=
  match str with
  | [] => []
  | c :: rest =>
      let code := QChar_cell c in
      (if LineChars code =? 0 then []
       else drawLineChar LineChars (x + font_w' * i0) y font_w' font_h' code)
      ++ drawLineCharString_from LineChars font_w' font_h' x y (i0 + 1) rest
  end.

Definition drawLineCharString (LineChars : Z -> Z) (d : TerminalDisplay)
    (x y : Z) (str : list Z) : list Primitive :=
  drawLineCharString_from LineChars (font_w (widget d)) (font_h (widget d)) x y 0 str.

(** A primitive stays inside the rectangle with corners [(x0, y0)] and
    [(x1, y1)], both included; a line runs from left to right or from top
    to bottom. *)
Definition primitiveInside (x0 y0 x1 y1 : Z) (p : Primitive) : Prop :=
  match p with
  | DrawLine a b c e =>
      x0 <= a /\ a <= c /\ c <= x1 /\ y0 <= b /\ b <= e /\ e <= y1 /\ (a = c \/ b = e)
  | DrawPoint a b => x0 <= a <= x1 /\ y0 <= b <= y1
  end.

(** [qAlpha], [qRed], [qGreen], [qBlue] of Qt, on a 32-bit [QRgb]. *)
Definition qAlpha (rgb : Z) : Z := Z.land (Z.shiftr rgb 24) 0xff.
Definition qRed (rgb : Z) : Z := Z.land (Z.shiftr rgb 16) 0xff.
Definition qGreen (rgb : Z) : Z := Z.land (Z.shiftr rgb 8) 0xff.
Definition qBlue (rgb : Z) : Z := Z.land rgb 0xff.

(** One channel of the background blend of [drawAttrStr]:
    [qMin((c * salpha) / 255 + (blend * dalpha) / 255, 255)] with
    [salpha = 192] and [dalpha = 255 - salpha]. *)
Definition blendChannel (c blend : Z) : Z :=
  Z.min (Z.quot (c * 192) 255 + Z.quot (blend * (255 - 192)) 255) 255.

(** The colour [drawAttrStr] fills the background with when true
    transparency is on: [a << 24 | r << 16 | g << 8 | b]. *)
Definition blendBackground (col blend_color : Z) : Z :=
  let a := blendChannel (qAlpha col) (qAlpha blend_color) in
  let r := blendChannel (qRed col) (qRed blend_color) in
  let g := blendChannel (qGreen col) (qGreen blend_color) in
  let b := blendChannel (qBlue col) (qBlue blend_color) in
  Z.lor (Z.lor (Z.lor (Z.shiftl a 24) (Z.shiftl r 16)) (Z.shiftl g 8)) b.

(* ------------------------------------------------------------------ *)
(** ** [paintContents]: repainting a rectangle *)

(** A read of [image[i]]; [None] outside the allocation, where the read is
    undefined. *)
Definition readCell (img : list Character) (i : Z) : option Character :=
  if (0 <=? i) && (i <? Z.of_nat (length img)) then Some (cell_at img i) else None.

(** One call of [drawAttrStr]: a text fragment of [frag_len] cells that
    starts at column [frag_x] of row [frag_y], with the code points put into
    [disstrU] and the two flags that switch the fixed font off. *)
Record Fragment : Type := mkFragment
  { frag_x : Z;
    frag_y : Z;
    frag_len : Z;
    frag_str : list Z;
    frag_lineDraw : bool;
    frag_doubleWidth : bool }.

(** [QRect textArea = QRect(bX+tLx+font_w*x, bY+tLy+font_h*y, font_w*len, font_h)],
    before the painter's scaling is taken into account. *)
Definition textArea (d : TerminalDisplay) (f : Fragment) : QRect :=
  mkQRect (bX d + tLx d + font_w (widget d) * frag_x f)
          (bY d + tLy d + font_h (widget d) * frag_y f)
          (font_w (widget d) * frag_len f) (font_h (widget d)).

(** The condition of the [while] loop at offset [len], with its reads in
    the order [&&] makes them: [None] when a read falls outside the
    allocation, [Some None] when the condition is false, [Some (Some c)]
    when it is true, [c] being the code point the condition assigns. *)
Definition sameFragment (d : TerminalDisplay) (img : list Character) (rlx x y : Z)
    (cf cb : CharacterColor) (cr : Z) (lineDraw doubleWidth : bool) (len : Z)
  : option (option Z) :=
  if x + len <=? rlx then
    match readCell img (loc d (x + len) y) with
    | None => None
    | Some cell =>
        if CharacterColor_eqb (foregroundColor cell) cf
           && CharacterColor_eqb (backgroundColor cell) cb
           && (rendition cell =? cr)
        then
          match readCell img (probeIndex d (x + len) y) with
          | None => None
          | Some probe =>
              if Bool.eqb (character probe =? 0) doubleWidth
                 && Bool.eqb (isLineChar (character cell)) lineDraw
              then Some (Some (character cell))
              else Some None
          end
        else Some None
    end
  else Some None.

(** The [while] loop, which adds one cell to the fragment, or two when the
    fragment is one of double-width glyphs.  Every iteration moves [len]
    forward, so [rlx - x] iterations reach the end. *)
Fixpoint extendFragment (d : TerminalDisplay) (img : list Character) (rlx x y : Z)
    (cf cb : CharacterColor) (cr : Z) (lineDraw doubleWidth : bool)
    (fuel : nat) (len : Z) (str : list Z) : option (Z * list Z) :=
  match fuel with
  | O => Some (len, str)
  | S fuel' =>
      match sameFragment d img rlx x y cf cb cr lineDraw doubleWidth len with
      | None => None
      | Some None => Some (len, str)
      | Some (Some c) =>
          extendFragment d img rlx x y cf cb cr lineDraw doubleWidth fuel'
            ((if doubleWidth then len + 1 else len) + 1)
            (if c =? 0 then str else str ++ [c])
      end
  end.

(** The body of the column loop up to the call of [drawAttrStr]: the
    fragment that starts at column [x] of row [y].  [extra] is added to the
    fuel of the [while] loop. *)
Definition fragmentAt (d : TerminalDisplay) (img : list Character) (rlx : Z)
    (extra : nat) (x y : Z) : option Fragment :=
  match readCell img (loc d x y) with
  | None => None
  | Some cell =>
      let c := character cell in
      let lineDraw := isLineChar c in
      match readCell img (probeIndex d x y) with
      | None => None
      | Some probe =>
          let doubleWidth := character probe =? 0 in
          match extendFragment d img rlx x y (foregroundColor cell)
                  (backgroundColor cell) (rendition cell) lineDraw doubleWidth
                  (Z.to_nat (rlx - x) + extra) 1 (if c =? 0 then [] else [c]) with
          | None => None
          | Some (len, str) =>
              if x + len <? usedColumns d then
                match readCell img (loc d (x + len) y) with
                | None => None
                | Some next =>
                    Some (mkFragment x y
                            (if character next =? 0 then len + 1 else len)
                            str lineDraw doubleWidth)
                end
              else Some (mkFragment x y len str lineDraw doubleWidth)
          end
      end
  end.

(** The column loop [for (; x <= rlx; x++)], which a fragment advances by
    its length and in which [y] moves on after a fragment of a double-height
    line: the value of [y] on exit and the fragments drawn, in order. *)
Fixpoint paintRow `{HeaderConstants} (d : TerminalDisplay) (img : list Character)
    (rlx : Z) (extra : nat) (fuel : nat) (x y : Z) : option (Z * list Fragment) :=
  match fuel with
  | O => Some (y, [])
  | S fuel' =>
      if x <=? rlx then
        match fragmentAt d img rlx extra x y with
        | None => None
        | Some f =>
            let y' := if isDoubleHeight (lineProperties d) y then y + 1 else y in
            match paintRow d img rlx extra fuel' (x + (frag_len f - 1) + 1) y' with
            | None => None
            | Some (yend, rest) => Some (yend, f :: rest)
            end
        end
      else Some (y, [])
  end.

(** The row loop [for (int y = luy; y <= rly; y++)]. *)
Fixpoint paintRows `{HeaderConstants} (d : TerminalDisplay) (img : list Character)
    (lux rlx rly : Z) (extra : nat) (fuel : nat) (y : Z) : option (list Fragment) :=
  match fuel with
  | O => Some []
  | S fuel' =>
      if y <=? rly then
        match readCell img (loc d lux y) with
        | None => None
        | Some cell =>
            let x := if (character cell =? 0) && negb (lux =? 0) then lux - 1 else lux in
            match paintRow d img rlx extra (Z.to_nat (rlx - x + 1) + extra) x y with
            | None => None
            | Some (yend, row) =>
                match paintRows d img lux rlx rly extra fuel' (yend + 1) with
                | None => None
                | Some rest => Some (row ++ rest)
                end
            end
        end
      else Some []
  end.

(** The four corners of the loop: [lux], [luy], [rlx], [rly]. *)
Definition cellColumn (d : TerminalDisplay) (px : Z) : Z :=
  Z.min (usedColumns d - 1)
        (Z.max 0 (Z.quot (px - tLx d - bX d) (font_w (widget d)))).

Definition cellLine (d : TerminalDisplay) (py : Z) : Z :=
  Z.min (usedLines d - 1)
        (Z.max 0 (Z.quot (py - tLy d - bY d) (font_h (widget d)))).

(** [paintContents(paint, rect)], [rect] given by its [left()], [top()],
    [right()] and [bottom()]: the fragments handed to [drawAttrStr], or
    [None] when a read falls outside the image.  The scaling of the painter
    for double-width and double-height lines is left out.  Every loop has
    the fuel its bound allows, and [extra] units more. *)
Definition paintContents_fuel `{HeaderConstants} (d : TerminalDisplay)
    (rect_left rect_top rect_right rect_bottom : Z) (extra : nat)
  : option (list Fragment) :=
  let img := match image d with Some img => img | None => [] end in
  let lux := cellColumn d rect_left in
  let luy := cellLine d rect_top in
  let rlx := cellColumn d rect_right in
  let rly := cellLine d rect_bottom in
  paintRows d img lux rlx rly extra (Z.to_nat (rly - luy + 1) + extra) luy.

Definition paintContents `{HeaderConstants} (d : TerminalDisplay)
    (rect_left rect_top rect_right rect_bottom : Z) : option (list Fragment) :=
  paintContents_fuel d rect_left rect_top rect_right rect_bottom 0.

(** The fragments [frs] follow one another in row [y] from column [x0] to
    column [xend]: each starts where the one before it ends. *)
Fixpoint tilesRow (y x0 : Z) (frs : list Fragment) (xend : Z) : Prop :=
  match frs with
  | [] => xend = x0
  | f :: rest =>
      frag_y f = y /\ frag_x f = x0 /\ 1 <= frag_len f /\
      tilesRow y (x0 + frag_len f) rest xend
  end.

(* ------------------------------------------------------------------ *)
(** ** Selecting a word or a line with the mouse *)

(** A position of the search for the boundary of a word: the index [i] into
    the image, the column [x] and the line [y]. *)
Record WordScan : Type := mkWordScan { ws_i : Z; ws_x : Z; ws_y : Z }.

Section Selection.
(** [LINE_WRAPPED] comes from a header that is not among the sources, and
    [charClass] rests on [QChar::isSpace], [QChar::isLetterOrNumber] and the
    word characters chosen by the user: both are parameters. *)
Variable LINE_WRAPPED : Z.
Variable charClass : Z -> Z.

(** [lineProperties[y] & LINE_WRAPPED]; [None] outside the vector, where
    [QVector::operator[]] asserts. *)
Definition lineWrapped (d : TerminalDisplay) (y : Z) : option bool :=
  if (0 <=? y) && (y <? Z.of_nat (length (lineProperties d)))
  then Some (negb (Z.land (get_at 0 (lineProperties d) y) LINE_WRAPPED =? 0))
  else None.

(** The condition of the loop that looks for the start of the word:
[[
   ((x>0) || (bgnSel.y()>0 && (lineProperties[bgnSel.y()-1] & LINE_WRAPPED)))
   && charClass(image[i-1].character) == selClass
]] *)
Definition wordStartGoesOn (d : TerminalDisplay) (img : list Character)
    (selClass : Z) (s : WordScan) : option bool :=
  match (if 0 <? ws_x s then Some true
         else if 0 <? ws_y s then lineWrapped d (ws_y s - 1)
         else Some false) with
  | None => None
  | Some false => Some false
  | Some true =>
      match readCell img (ws_i s - 1) with
      | None => None
      | Some cell => Some (charClass (character cell) =? selClass)
      end
  end.

(** The loop itself; [lastColumn] is [usedColumns-1] in
    [mouseDoubleClickEvent] and [columns-1] in [mouseTripleClickEvent].
    Every iteration moves [i] back by one. *)
Fixpoint findWordStart (d : TerminalDisplay) (img : list Character)
    (selClass lastColumn : Z) (fuel : nat) (s : WordScan) : option WordScan :=
  match fuel with
  | O => Some s
  | S fuel' =>
      match wordStartGoesOn d img selClass s with
      | None => None
      | Some false => Some s
      | Some true =>
          findWordStart d img selClass lastColumn fuel'
            (if 0 <? ws_x s
             then mkWordScan (ws_i s - 1) (ws_x s - 1) (ws_y s)
             else mkWordScan (ws_i s - 1) lastColumn (ws_y s - 1))
      end
  end.

(** The condition of the loop that looks for the end of the word:
[[
   ((x<usedColumns-1) || (endSel.y()<usedLines-1 && (lineProperties[endSel.y()] & LINE_WRAPPED)))
   && charClass(image[i+1].character) == selClass
]] *)
Definition wordEndGoesOn (d : TerminalDisplay) (img : list Character)
    (selClass : Z) (s : WordScan) : option bool :=
  match (if ws_x s <? usedColumns d - 1 then Some true
         else if ws_y s <? usedLines d - 1 then lineWrapped d (ws_y s)
         else Some false) with
  | None => None
  | Some false => Some false
  | Some true =>
      match readCell img (ws_i s + 1) with
      | None => None
      | Some cell => Some (charClass (character cell) =? selClass)
      end
  end.

Fixpoint findWordEnd (d : TerminalDisplay) (img : list Character)
    (selClass : Z) (fuel : nat) (s : WordScan) : option WordScan :=
  match fuel with
  | O => Some s
  | S fuel' =>
      match wordEndGoesOn d img selClass s with
      | None => None
      | Some false => Some s
      | Some true =>
          findWordEnd d img selClass fuel'
            (if ws_x s <? usedColumns d - 1
             then mkWordScan (ws_i s + 1) (ws_x s + 1) (ws_y s)
             else mkWordScan (ws_i s + 1) 0 (ws_y s + 1))
      end
  end.

(** The selection made by [mouseDoubleClickEvent] for a click of the left
    button at the point [(px, py)], when the mouse marks text: the pairs
    [(x, y)] handed to [setSelectionStart] and to [setSelectionEnd].  The
    loops have the fuel their bounds allow, and [extra] units more. *)
Definition mouseDoubleClickEvent (d : TerminalDisplay) (px py : Z) (extra : nat)
  : option ((Z * Z) * (Z * Z)) :=
  let img := match image d with Some img => img | None => [] end in
  let '(charLine, charColumn) := characterPosition d px py in
  let i := loc d charColumn charLine in
  match readCell img i with
  | None => None
  | Some cell =>
      let selClass := charClass (character cell) in
      match findWordStart d img selClass (usedColumns d - 1)
              (Z.to_nat i + extra) (mkWordScan i charColumn charLine) with
      | None => None
      | Some bgn =>
          match findWordEnd d img selClass
                  (Z.to_nat (image_size d - i) + extra)
                  (mkWordScan i charColumn charLine) with
          | None => None
          | Some fin =>
              match readCell img (ws_i fin) with
              | None => None
              | Some last =>
                  let endX :=
                    if (character last =? 64) && (0 <? ws_x fin - ws_x bgn)
                    then ws_x fin - 1 else ws_x fin in
                  Some ((ws_x bgn, ws_y bgn), (endX, ws_y fin))
              end
          end
      end
  end.

(** [while (iPntSel.y()>0 && (lineProperties[iPntSel.y()-1] & LINE_WRAPPED))
      iPntSel.ry()--;] *)
Fixpoint findLineStart (d : TerminalDisplay) (fuel : nat) (y : Z) : option Z :=
  match fuel with
  | O => Some y
  | S fuel' =>
      if 0 <? y then
        match lineWrapped d (y - 1) with
        | None => None
        | Some true => findLineStart d fuel' (y - 1)
        | Some false => Some y
        end
      else Some y
  end.

(** [while (iPntSel.y()<lines-1 && (lineProperties[iPntSel.y()] & LINE_WRAPPED))
      iPntSel.ry()++;] *)
Fixpoint findLineEnd (d : TerminalDisplay) (fuel : nat) (y : Z) : option Z :=
  match fuel with
  | O => Some y
  | S fuel' =>
      if y <? lines d - 1 then
        match lineWrapped d y with
        | None => None
        | Some true => findLineEnd d fuel' (y + 1)
        | Some false => Some y
        end
      else Some y
  end.

(** The selection made by [mouseTripleClickEvent]: the pairs [(x, y)]
    handed to [setSelectionStart] and to [setSelectionEnd]. *)
Definition mouseTripleClickEvent (d : TerminalDisplay) (cuttobeginningofline : bool)
    (px py : Z) (extra : nat) : option ((Z * Z) * (Z * Z)) :=
  let img := match image d with Some img => img | None => [] end in
  let '(charLine, charColumn) := characterPosition d px py in
  match findLineStart d (Z.to_nat charLine + extra) charLine with
  | None => None
  | Some y1 =>
      match (if cuttobeginningofline then
               let i := loc d charColumn y1 in
               match readCell img i with
               | None => None
               | Some cell =>
                   match findWordStart d img (charClass (character cell))
                           (columns d - 1) (Z.to_nat i + extra)
                           (mkWordScan i charColumn y1) with
                   | None => None
                   | Some bgn => Some (ws_x bgn, ws_y bgn)
                   end
               end
             else Some (0, y1)) with
      | None => None
      | Some (x, y2) =>
          match findLineEnd d (Z.to_nat (lines d - 1 - y2) + extra) y2 with
          | None => None
          | Some y3 => Some ((x, y2), (columns d - 1, y3))
          end
      end
  end.
End Selection.

(* ------------------------------------------------------------------ *)
(** ** Vocabulary of the further properties *)

(** The cell of row [y], column [x] of the new image asks to blink:
    [newLine[x].rendition & RE_BLINK] is not 0. *)
Definition asksToBlink `{HeaderConstants} (newimg : list Character)
    (columns' y x : Z) : Prop :=
  Z.land (rendition (newLine_of newimg columns' y x)) RE_BLINK <> 0.

(** [rows] are the fragments of the rows [y], [y + 1], ...: those of a row
    follow one another from column [lux], or from the column before it, to
    beyond column [rlx]. *)
Fixpoint tilesRows (lux rlx y : Z) (rows : list (list Fragment)) : Prop :=
  match rows with
  | [] => True
  | row :: rest =>
      (exists x0 xend,
         lux - 1 <= x0 <= lux /\ rlx < xend /\ tilesRow y x0 row xend) /\
      tilesRows lux rlx (y + 1) rest
  end.

(** What a fragment says of the image: its string fits the buffer
    [disstrU] of [usedColumns] code points, and its two flags are those of
    its first cell. *)
Definition fragmentOfImage (d : TerminalDisplay) (img : list Character)
    (f : Fragment) : Prop :=
  0 <= frag_x f /\
  Z.of_nat (length (frag_str f)) <= usedColumns d /\
  frag_doubleWidth f = paintContents_doubleWidth d img (frag_x f) (frag_y f) /\
  frag_lineDraw f = isLineChar (character (cell_at img (loc d (frag_x f) (frag_y f)))).

(* ------------------------------------------------------------------ *)
(** ** Moving the scroll bar *)

(** [scrollLoc == loc] *)
Definition ScrollBarLocation_eqb (a b : ScrollBarLocation) : bool :=
  match a, b with
  | SCROLLBAR_NONE, SCROLLBAR_NONE => true
  | SCROLLBAR_LEFT, SCROLLBAR_LEFT => true
  | SCROLLBAR_RIGHT, SCROLLBAR_RIGHT => true
  | _, _ => false
  end.

(** [bY = bX = 1; scrollLoc = loc;] *)
Definition with_scrollLoc (d : TerminalDisplay) (loc' : ScrollBarLocation)
  : TerminalDisplay :=
  let g := widget d in
  {| image := image d; image_size := image_size d;
     lines := lines d; columns := columns d;
     usedLines := usedLines d; usedColumns := usedColumns d;
     contentWidth := contentWidth d; contentHeight := contentHeight d;
     bX := 1; bY := 1;
     lineProperties := lineProperties d;
     hasBlinker := hasBlinker d; blinking := blinking d;
     blinkT_isActive := blinkT_isActive d;
     resizing := resizing d; isFixedSize := isFixedSize d;
     m_isIMEdit := m_isIMEdit d; m_isIMSel := m_isIMSel d;
     imState := imState d;
     widget := mkWidgetGeometry (contentsRect g) (rimX g) (rimY g) loc'
                 (scrollbarWidth g) (font_w g) (font_h g) |}.

(** [resizeEvent], which the toolkit sends when the widget's rectangle has
    changed. *)
Definition resizeEvent `{HeaderConstants} (d : TerminalDisplay)
  : option TerminalDisplay :=
  updateImageSize d.

(** [propagateSize].  On a display of fixed size the code resizes the
    widget and its parent, which touches no member of the model. *)
Definition propagateSize `{HeaderConstants} (d : TerminalDisplay)
  : option TerminalDisplay :=
  if isFixedSize d then Some d
  else match image d with
       | Some _ => updateImageSize d
       | None => Some d
       end.

(** [setScrollbarLocation(loc)]: [calcGeometry] runs before
    [propagateSize], so [updateImageSize] finds the new [lines] and
    [columns] in the members when it saves them as [oldlin] and [oldcol].
    The closing [update()] asks for a repaint and changes no member. *)
Definition setScrollbarLocation `{HeaderConstants} (d : TerminalDisplay)
    (loc' : ScrollBarLocation) : option TerminalDisplay :=
  if ScrollBarLocation_eqb (scrollLoc (widget d)) loc' then Some d
  else propagateSize (calcGeometry (with_scrollLoc d loc')).

(* ------------------------------------------------------------------ *)
(** ** Further concrete examples *)

(** Three displays, the one used last first, outside a walk through the
    history and during one. *)
Definition exampleHistory : ViewManager.History :=
  ViewManager.mkHistory [3; 1; 2]%nat (-1).
Definition walkingHistory : ViewManager.History :=
  ViewManager.mkHistory [3; 1; 2]%nat 1.

(** Two rows of two columns showing [AB] and [CD]. *)
Definition gridABCD : list Character :=
  [plainCell 65; plainCell 66; plainCell 67; plainCell 68; plainCell 32].
Definition displayABCD : TerminalDisplay := exampleDisplay gridABCD 2 2 2 2 [0; 0].

(** A cell whose rendition has [RE_BLINK] of [exampleConstants], and a
    window of one row showing [A] and a blinking [B]. *)
Definition blinkingCell (c : Z) : Character :=
  mkCharacter c 2 (CharacterColor_of 1 0) (CharacterColor_of 1 1).
Definition windowBlinkingB : ScreenWindow :=
  mkScreenWindow 0 [plainCell 65; blinkingCell 66; plainCell 32] 1 2.

(** A character class that tells the blank from everything else, and the
    bit taken for [LINE_WRAPPED] in the examples. *)
Definition exampleCharClass (c : Z) : Z := if c =? 32 then 32 else 97.
Definition exampleLineWrapped : Z := 1.

(** The widget of the examples with a scroll bar of 10 pixels, not yet
    shown, and the same widget with a rectangle 10 pixels narrower. *)
Definition widgetWithScrollBar : WidgetGeometry :=
  mkWidgetGeometry (mkQRect 0 0 30 41) 1 1 SCROLLBAR_NONE 10 10 20.
Definition widgetNarrowed : WidgetGeometry :=
  mkWidgetGeometry (mkQRect 0 0 20 41) 1 1 SCROLLBAR_NONE 10 10 20.

(** Two rows of two columns showing [AB] and [CD] on a display that follows
    the size of the widget [g]. *)
Definition displayABCD_following (g : WidgetGeometry) : TerminalDisplay :=
  {| image := Some gridABCD; image_size := 4;
     lines := 2; columns := 2; usedLines := 2; usedColumns := 2;
     contentWidth := 28; contentHeight := 40; bX := 1; bY := 1;
     lineProperties := [0; 0];
     hasBlinker := false; blinking := false; blinkT_isActive := false;
     resizing := false; isFixedSize := false;
     m_isIMEdit := false; m_isIMSel := false;
     imState := idleInputMethod; widget := g |}.

(** A cell with code point [c] and the rendition bit 1. *)
Definition boldCell (c : Z) : Character :=
  mkCharacter c 1 (CharacterColor_of 1 0) (CharacterColor_of 1 1).

(** Three rows of two columns, rows 0 and 1 the two halves of a
    double-height line, row 2 showing [CD]: the double-height line shows
    [AB] in one rendition, or [A] and a bold [B]. *)
Definition gridDoubleHeightPlain : list Character :=
  [plainCell 65; plainCell 66; plainCell 65; plainCell 66;
   plainCell 67; plainCell 68; plainCell 32].
Definition gridDoubleHeightBold : list Character :=
  [plainCell 65; boldCell 66; plainCell 65; boldCell 66;
   plainCell 67; plainCell 68; plainCell 32].
Definition displayDoubleHeightPlain : TerminalDisplay :=
  exampleDisplay gridDoubleHeightPlain 3 2 3 2 [4; 4; 0].
Definition displayDoubleHeightBold : TerminalDisplay :=
  exampleDisplay gridDoubleHeightBold 3 2 3 2 [4; 4; 0].

(** Two rows of three columns, the two halves of a double-height line that
    shows [A], a bold [B] and [C]. *)
Definition gridDoubleHeightThree : list Character :=
  [plainCell 65; boldCell 66; plainCell 67;
   plainCell 65; boldCell 66; plainCell 67; plainCell 32].
Definition displayDoubleHeightThree : TerminalDisplay :=
  exampleDisplay gridDoubleHeightThree 2 3 2 3 [4; 4].

(** A window that reports no line at all. *)
Definition windowNoLines : ScreenWindow := mkScreenWindow 0 [] 0 2.

(* ================================================================== *)
(** * Properties *)

(* ------------------------------------------------------------------ *)
(** ** Equality of cells *)

Lemma CharacterColor_eqb_eq (a b : CharacterColor) :
  CharacterColor_eqb a b = true <-> a = b.
Proof.
  unfold CharacterColor_eqb. destruct a, b; simpl.
  rewrite !andb_true_iff, !Z.eqb_eq. split.
  - intros [[[-> ->] ->] ->]. reflexivity.
  - intros E. injection E as -> -> -> ->. auto.
Qed.

Lemma Character_eqb_eq (a b : Character) : Character_eqb a b = true <-> a = b.
Proof.
  unfold Character_eqb. destruct a, b; simpl.
  rewrite !andb_true_iff, !Z.eqb_eq, !CharacterColor_eqb_eq. split.
  - intros [[[-> ->] ->] ->]. reflexivity.
  - intros E. injection E as -> -> -> ->. auto.
Qed.

Lemma Character_eqb_refl (a : Character) : Character_eqb a a = true.
Proof. apply Character_eqb_eq. reflexivity. Qed.

Lemma Character_neqb_true (a b : Character) :
  Character_neqb a b = true <-> a <> b.
Proof.
  unfold Character_neqb. rewrite negb_true_iff.
  destruct (Character_eqb a b) eqn:E.
  - apply Character_eqb_eq in E. split; [discriminate | congruence].
  - split; [| reflexivity]. intros _ Hab. apply Character_eqb_eq in Hab. congruence.
Qed.

Lemma Character_neqb_refl (a : Character) : Character_neqb a a = false.
Proof. unfold Character_neqb. now rewrite Character_eqb_refl. Qed.

(* ------------------------------------------------------------------ *)
(** ** Flat arrays and loops *)

Lemma mapi_from_length {A B : Type} (f : Z -> A -> B) (l : list A) (k : Z) :
  length (mapi_from k f l) = length l.
Proof. revert k. induction l as [|a l IH]; intros k; simpl; [reflexivity|]. now rewrite IH. Qed.

Lemma nth_mapi_from {A B : Type} (f : Z -> A -> B) (dA : A) (dB : B) (l : list A) :
  forall (k : Z) (n : nat), (n < length l)%nat ->
    nth n (mapi_from k f l) dB = f (k + Z.of_nat n) (nth n l dA).
Proof.
  induction l as [|a l IH]; intros k n Hn; simpl in *; [lia|].
  destruct n as [|n].
  - now rewrite Z.add_0_r.
  - rewrite (IH (k + 1) n) by lia. f_equal. lia.
Qed.

Lemma get_at_outside {A : Type} (d : A) (a : list A) (i : Z) :
  i < 0 \/ Z.of_nat (length a) <= i -> get_at d a i = d.
Proof.
  intros Hi. unfold get_at. destruct (i <? 0) eqn:E; [reflexivity|].
  apply Z.ltb_ge in E. apply nth_overflow. lia.
Qed.

Lemma get_at_mapi {A B : Type} (f : Z -> A -> B) (dA : A) (dB : B) (l : list A) (i : Z) :
  0 <= i < Z.of_nat (length l) ->
  get_at dB (mapi_from 0 f l) i = f i (get_at dA l i).
Proof.
  intros Hi. unfold get_at. destruct (i <? 0) eqn:E; [apply Z.ltb_lt in E; lia|].
  rewrite (nth_mapi_from f dA dB) by lia. f_equal. lia.
Qed.

Lemma set_at_length {A : Type} (a : list A) (i : Z) (v : A) :
  length (set_at a i v) = length a.
Proof. apply mapi_from_length. Qed.

Lemma get_at_set_at {A : Type} (d : A) (a : list A) (i j : Z) (v : A) :
  get_at d (set_at a i v) j =
  if (j =? i) && (0 <=? j) && (j <? Z.of_nat (length a)) then v else get_at d a j.
Proof.
  destruct (Z_lt_dec j 0) as [Hneg|Hnn].
  - rewrite !get_at_outside by (rewrite ?set_at_length; lia).
    replace (0 <=? j) with false by (symmetry; apply Z.leb_gt; lia).
    now rewrite andb_false_r.
  - destruct (Z_lt_dec j (Z.of_nat (length a))) as [Hin|Hout].
    + unfold set_at. rewrite (get_at_mapi _ d d) by lia.
      replace (0 <=? j) with true by (symmetry; apply Z.leb_le; lia).
      replace (j <? Z.of_nat (length a)) with true by (symmetry; apply Z.ltb_lt; lia).
      now rewrite !andb_true_r.
    + rewrite !get_at_outside by (rewrite ?set_at_length; lia).
      replace (j <? Z.of_nat (length a)) with false by (symmetry; apply Z.ltb_ge; lia).
      now rewrite andb_false_r.
Qed.

Lemma memcpy_length (dst src : list Character) (doff soff n : Z) :
  length (memcpy dst doff src soff n) = length dst.
Proof. apply mapi_from_length. Qed.

Lemma cell_at_memcpy (dst src : list Character) (doff soff n i : Z) :
  cell_at (memcpy dst doff src soff n) i =
  if (doff <=? i) && (i <? doff + n) && (0 <=? i) && (i <? Z.of_nat (length dst))
  then cell_at src (soff + (i - doff)) else cell_at dst i.
Proof.
  unfold cell_at.
  destruct (Z_lt_dec i 0) as [Hneg|Hnn].
  - rewrite !(get_at_outside _ _ i) by (rewrite ?memcpy_length; lia).
    replace (0 <=? i) with false by (symmetry; apply Z.leb_gt; lia).
    now rewrite andb_false_r.
  - destruct (Z_lt_dec i (Z.of_nat (length dst))) as [Hin|Hout].
    + unfold memcpy. rewrite (get_at_mapi _ strayCharacter strayCharacter) by lia.
      replace (0 <=? i) with true by (symmetry; apply Z.leb_le; lia).
      replace (i <? Z.of_nat (length dst)) with true by (symmetry; apply Z.ltb_lt; lia).
      now rewrite !andb_true_r.
    + rewrite !(get_at_outside _ _ i) by (rewrite ?memcpy_length; lia).
      replace (i <? Z.of_nat (length dst)) with false by (symmetry; apply Z.ltb_ge; lia).
      now rewrite andb_false_r.
Qed.

(** The invariant rule of the counting loop. *)
Lemma for_loop_invariant {S : Type} (P : Z -> S -> Prop) (body : Z -> S -> S) :
  forall (n : nat) (x : Z) (s : S),
    P x s ->
    (forall i t, x <= i < x + Z.of_nat n -> P i t -> P (i + 1) (body i t)) ->
    P (x + Z.of_nat n) (for_loop n x body s).
Proof.
  induction n as [|n IH]; intros x s H0 Hstep.
  - simpl. now rewrite Z.add_0_r.
  - cbn [for_loop]. replace (x + Z.of_nat (Datatypes.S n)) with ((x + 1) + Z.of_nat n) by lia.
    apply IH.
    + apply Hstep; [lia | assumption].
    + intros i t Hi. apply Hstep. lia.
Qed.

Lemma for_range_invariant {S : Type} (P : Z -> S -> Prop) (body : Z -> S -> S)
    (a b : Z) (s : S) :
  a <= b ->
  P a s ->
  (forall i t, a <= i < b -> P i t -> P (i + 1) (body i t)) ->
  P b (for_range a b body s).
Proof.
  intros Hab H0 Hstep. unfold for_range.
  replace b with (a + Z.of_nat (Z.to_nat (b - a))) at 1 by lia.
  apply for_loop_invariant; [assumption|].
  intros i t Hi. apply Hstep. lia.
Qed.

Lemma for_range_empty {S : Type} (body : Z -> S -> S) (a b : Z) (s : S) :
  b <= a -> for_range a b body s = s.
Proof.
  intros Hab. unfold for_range. replace (Z.to_nat (b - a)) with O by lia. reflexivity.
Qed.

(* ------------------------------------------------------------------ *)
(** ** The dirty mask *)

Lemma repeat_false_get (n : nat) (j : Z) : get_at false (repeat false n) j = false.
Proof.
  unfold get_at. destruct (j <? 0); [reflexivity|].
  generalize (Z.to_nat j). induction n as [|n IH]; intros [|k]; simpl; auto.
Qed.

(** Byte [j] of the allocated mask is set exactly when one of the columns
    [j-2], [j-1], [j] passed the test. *)
Lemma buildDirtyMask_spec (test : Z -> bool) (columnsToUpdate j : Z) :
  get_at false (buildDirtyMask test columnsToUpdate) j = true <->
  exists c, 0 <= c < columnsToUpdate /\ test c = true /\ c <= j <= c + 2.
Proof.
  unfold buildDirtyMask.
  destruct (Z_le_dec 0 columnsToUpdate) as [Hpos|Hneg].
  2:{ rewrite for_range_empty by lia. rewrite repeat_false_get.
      split; [discriminate|]. intros (c & Hc & _). lia. }
  set (P := fun (k : Z) (m : list bool) =>
              Z.of_nat (length m) = columnsToUpdate + 2 /\
              forall i, get_at false m i = true <->
                        exists c, 0 <= c < k /\ test c = true /\ c <= i <= c + 2).
  enough (HP : P columnsToUpdate
                 (for_range 0 columnsToUpdate
                    (fun x m => if test x
                                then set_at (set_at (set_at m (x + 2) true) (x + 1) true) x true
                                else m)
                    (repeat false (Z.to_nat (columnsToUpdate + 2))))).
  { destruct HP as [_ HP]. apply HP. }
  apply for_range_invariant; [assumption| |].
  - split.
    + rewrite repeat_length. lia.
    + intros i. rewrite repeat_false_get. split; [discriminate|].
      intros (c & Hc & _). lia.
  - intros k m Hk [Hlen Hm]. destruct (test k) eqn:Ek.
    + split; [now rewrite !set_at_length|].
      intros i. rewrite !get_at_set_at, !set_at_length.
      destruct (Z.eq_dec i k) as [->|Hik].
      { rewrite Z.eqb_refl.
        replace (0 <=? k) with true by (symmetry; apply Z.leb_le; lia).
        replace (k <? Z.of_nat (length m)) with true by (symmetry; apply Z.ltb_lt; lia).
        simpl. split; [|reflexivity]. intros _. exists k. repeat split; try lia. assumption. }
      replace (i =? k) with false by (symmetry; apply Z.eqb_neq; assumption). simpl.
      destruct (Z.eq_dec i (k + 1)) as [->|Hik1].
      { rewrite Z.eqb_refl.
        replace (0 <=? k + 1) with true by (symmetry; apply Z.leb_le; lia).
        replace (k + 1 <? Z.of_nat (length m)) with true by (symmetry; apply Z.ltb_lt; lia).
        simpl. split; [|reflexivity]. intros _. exists k. repeat split; try lia. assumption. }
      replace (i =? k + 1) with false by (symmetry; apply Z.eqb_neq; assumption). simpl.
      destruct (Z.eq_dec i (k + 2)) as [->|Hik2].
      { rewrite Z.eqb_refl.
        replace (0 <=? k + 2) with true by (symmetry; apply Z.leb_le; lia).
        replace (k + 2 <? Z.of_nat (length m)) with true by (symmetry; apply Z.ltb_lt; lia).
        simpl. split; [|reflexivity]. intros _. exists k. repeat split; try lia. assumption. }
      replace (i =? k + 2) with false by (symmetry; apply Z.eqb_neq; assumption). simpl.
      rewrite Hm. split.
      * intros (c & Hc & Ht & Hi). exists c. repeat split; try lia. assumption.
      * intros (c & Hc & Ht & Hi). exists c. repeat split; try lia. assumption.
    + split; [assumption|]. intros i. rewrite Hm. split.
      * intros (c & Hc & Ht & Hi). exists c. repeat split; try lia. assumption.
      * intros (c & Hc & Ht & Hi).
        assert (c <> k) by (intros ->; congruence).
        exists c. repeat split; try lia. assumption.
Qed.

Lemma dirtyMask_at_spec (test : Z -> bool) (columnsToUpdate x : Z) :
  dirtyMask_at (buildDirtyMask test columnsToUpdate) x = true <->
  exists c, 0 <= c < columnsToUpdate /\ test c = true /\ Z.abs (x - c) <= 1.
Proof.
  unfold dirtyMask_at. rewrite buildDirtyMask_spec. split.
  - intros (c & Hc & Ht & Hi). exists c. repeat split; try lia. assumption.
  - intros (c & Hc & Ht & Hi). exists c. repeat split; try lia. assumption.
Qed.

Lemma cellDirty_true (im : InputMethodState) (y : Z)
    (newLine currentLine : Z -> Character) (c : Z) :
  cellDirty im y newLine currentLine c = true <->
  newLine c <> currentLine c \/ inPreeditSpan im y c = true.
Proof.
  unfold cellDirty. rewrite orb_true_iff, Character_neqb_true. tauto.
Qed.



(* ------------------------------------------------------------------ *)
(** ** Runs *)

Lemma breaksRun_false (newLine : Z -> Character) (dirty : Z -> bool) (x k : Z) :
  breaksRun newLine dirty x (foregroundColor (newLine x)) (backgroundColor (newLine x))
            (rendition (newLine x)) (isLineChar (character (newLine x)))
            (character (newLine (x + 1)) =? 0) k = false
  <-> continuesRun newLine dirty x k.
Proof.
  unfold breaksRun, continuesRun.
  rewrite !orb_false_iff, !negb_false_iff, !CharacterColor_eqb_eq, Z.eqb_eq,
          !Bool.eqb_true_iff.
  tauto.
Qed.

Lemma nonzeroCodePoints_app (newLine : Z -> Character) (n m : nat) :
  forall a, nonzeroCodePoints newLine a (n + m) =
            nonzeroCodePoints newLine a n
            ++ nonzeroCodePoints newLine (a + Z.of_nat n) m.
Proof.
  induction n as [|n IH]; intros a.
  - simpl. now rewrite Z.add_0_r.
  - cbn [Nat.add nonzeroCodePoints]. rewrite IH.
    replace (a + 1 + Z.of_nat n) with (a + Z.of_nat (S n)) by lia.
    destruct (character (newLine a) =? 0); reflexivity.
Qed.

Section ExtendRun.
Variables (newLine : Z -> Character) (dirty : Z -> bool) (x : Z).
Variables (cf cb : CharacterColor) (cr : Z) (lineDraw doubleWidth : bool).

Local Abbreviation step := (extendRun newLine dirty x cf cb cr lineDraw doubleWidth).
Local Abbreviation stops := (breaksRun newLine dirty x cf cb cr lineDraw doubleWidth).

(** The inner loop leaves [len] at the first offset whose cell has a code
    point other than 0 and stops the run, or at its bound. *)
Lemma extendRun_spec :
  forall (n : nat) (len : Z) (str : list Z),
    let res := step n len str in
    len <= fst res <= len + Z.of_nat n /\
    (forall k, len <= k < fst res ->
               character (newLine (x + k)) <> 0 -> stops k = false) /\
    (fst res < len + Z.of_nat n ->
     character (newLine (x + fst res)) <> 0 /\ stops (fst res) = true) /\
    snd res = str ++ nonzeroCodePoints newLine (x + len) (Z.to_nat (fst res - len)).
Proof.
  induction n as [|n IH]; intros len str; cbn [extendRun].
  - cbn [fst snd]. split; [lia|]. split; [intros k Hk; lia|]. split; [lia|].
    replace (Z.to_nat (len - len)) with O by lia. simpl. now rewrite app_nil_r.
  - destruct (character (newLine (x + len)) =? 0) eqn:Ez.
    + specialize (IH (len + 1) str). cbv zeta in IH.
      destruct IH as (Hb & Hin & Hout & Hstr).
      set (res := extendRun newLine dirty x cf cb cr lineDraw doubleWidth n (len + 1) str) in *.
      split; [lia|]. split; [|split].
      * intros k Hk Hnz. destruct (Z.eq_dec k len) as [->|Hne].
        { apply Z.eqb_eq in Ez. contradiction. }
        apply Hin; [lia | assumption].
      * intros Hlt. apply Hout. lia.
      * rewrite Hstr. f_equal.
        replace (Z.to_nat (fst res - len)) with (S (Z.to_nat (fst res - (len + 1)))) by lia.
        cbn [nonzeroCodePoints]. rewrite Ez.
        now replace (x + len + 1) with (x + (len + 1)) by lia.
    + destruct (breaksRun newLine dirty x cf cb cr lineDraw doubleWidth len) eqn:Eb.
      * cbn [fst snd]. split; [lia|]. split; [intros k Hk; lia|]. split.
        { intros _. split; [apply Z.eqb_neq in Ez|]; assumption. }
        { replace (Z.to_nat (len - len)) with O by lia. simpl. now rewrite app_nil_r. }
      * specialize (IH (len + 1) (str ++ [character (newLine (x + len))])).
        cbv zeta in IH. destruct IH as (Hb & Hin & Hout & Hstr).
        set (res := extendRun newLine dirty x cf cb cr lineDraw doubleWidth n (len + 1)
                              (str ++ [character (newLine (x + len))])) in *.
        split; [lia|]. split; [|split].
        { intros k Hk Hnz. destruct (Z.eq_dec k len) as [->|Hne]; [assumption|].
          apply Hin; [lia | assumption]. }
        { intros Hlt. apply Hout. lia. }
        { rewrite Hstr, <- app_assoc. f_equal.
          replace (Z.to_nat (fst res - len)) with (S (Z.to_nat (fst res - (len + 1)))) by lia.
          cbn [nonzeroCodePoints]. rewrite Ez.
          now replace (x + len + 1) with (x + (len + 1)) by lia. }
Qed.
End ExtendRun.

(** The run found at a column whose code point is not 0. *)
Lemma runFrom_spec (newLine : Z -> Character) (dirty : Z -> bool)
    (columnsToUpdate x : Z) :
  x < columnsToUpdate ->
  character (newLine x) <> 0 ->
  let r := runFrom newLine dirty columnsToUpdate x in
  run_x r = x /\
  1 <= run_len r <= columnsToUpdate - x /\
  (forall k, 1 <= k < run_len r -> character (newLine (x + k)) <> 0 ->
             continuesRun newLine dirty x k) /\
  (run_len r < columnsToUpdate - x ->
   character (newLine (x + run_len r)) <> 0 /\
   ~ continuesRun newLine dirty x (run_len r)) /\
  run_str r = nonzeroCodePoints newLine x (Z.to_nat (run_len r)).
Proof.
  intros Hx Hnz. unfold runFrom.
  pose proof (extendRun_spec newLine dirty x (foregroundColor (newLine x))
                (backgroundColor (newLine x)) (rendition (newLine x))
                (isLineChar (character (newLine x)))
                (character (newLine (x + 1)) =? 0)
                (Z.to_nat (columnsToUpdate - x - 1)) 1 [character (newLine x)]) as Hs.
  cbv zeta in Hs.
  destruct (extendRun newLine dirty x (foregroundColor (newLine x))
              (backgroundColor (newLine x)) (rendition (newLine x))
              (isLineChar (character (newLine x)))
              (character (newLine (x + 1)) =? 0)
              (Z.to_nat (columnsToUpdate - x - 1)) 1 [character (newLine x)])
    as [len str] eqn:E.
  cbn [fst snd] in Hs. destruct Hs as (Hb & Hin & Hout & Hstr).
  cbn [run_x run_len run_str].
  split; [reflexivity|]. split; [lia|]. split; [|split].
  - intros k Hk Hnzk. apply breaksRun_false. apply Hin; [lia | assumption].
  - intros Hlt. destruct Hout as [Hnzl Hbr]; [lia|]. split; [assumption|].
    intros Hc. apply breaksRun_false in Hc. congruence.
  - rewrite Hstr.
    replace (Z.to_nat len) with (1 + Z.to_nat (len - 1))%nat by lia.
    rewrite nonzeroCodePoints_app. cbn [nonzeroCodePoints].
    apply Z.eqb_neq in Hnz. rewrite Hnz. reflexivity.
Qed.

(* ------------------------------------------------------------------ *)
(** ** The column loop of a row *)

Section ScanRow.
Context {HC : HeaderConstants}.
Variables (im : InputMethodState) (y : Z).
Variables (newLine : Z -> Character) (dirty : Z -> bool) (columnsToUpdate : Z).

Local Abbreviation scan := (scanRow im y newLine dirty columnsToUpdate).

Lemma runFrom_len_pos (x : Z) :
  1 <= run_len (runFrom newLine dirty columnsToUpdate x).
Proof.
  unfold runFrom.
  pose proof (extendRun_spec newLine dirty x (foregroundColor (newLine x))
                (backgroundColor (newLine x)) (rendition (newLine x))
                (isLineChar (character (newLine x)))
                (character (newLine (x + 1)) =? 0)
                (Z.to_nat (columnsToUpdate - x - 1)) 1 [character (newLine x)]) as Hs.
  cbv zeta in Hs.
  destruct (extendRun _ _ _ _ _ _ _ _ _ _ _) as [len str].
  cbn [fst snd] in Hs. cbn [run_len]. lia.
Qed.

(** One more unit of fuel changes nothing once the fuel covers the columns
    left. *)
Lemma scanRow_fuel_step :
  forall (fuel : nat) (x : Z) (acc : RowScan),
    (Z.to_nat (columnsToUpdate - x) <= fuel)%nat ->
    scan (S fuel) x acc = scan fuel x acc.
Proof.
  induction fuel as [|fuel IH]; intros x acc Hf.
  - cbn [scanRow]. destruct (x <? columnsToUpdate) eqn:E; [|reflexivity].
    apply Z.ltb_lt in E. lia.
  - remember (S fuel) as f1 eqn:Ef1. cbn [scanRow]. subst f1.
    cbn [scanRow].
    destruct (x <? columnsToUpdate) eqn:E; [|reflexivity].
    apply Z.ltb_lt in E.
    destruct (dirty x).
    + destruct (character (newLine x) =? 0).
      * apply IH. lia.
      * apply IH. pose proof (runFrom_len_pos x). lia.
    + apply IH. lia.
Qed.

(** The loop comes to its end with [columnsToUpdate - x] units of fuel:
    any larger amount gives the same result. *)
Lemma scanRow_enough_fuel (x : Z) (acc : RowScan) (extra : nat) :
  scan (Z.to_nat (columnsToUpdate - x) + extra)%nat x acc
  = scan (Z.to_nat (columnsToUpdate - x)) x acc.
Proof.
  induction extra as [|extra IH].
  - now rewrite Nat.add_0_r.
  - rewrite Nat.add_succ_r. rewrite scanRow_fuel_step by lia. exact IH.
Qed.

(** [updateLine] is set exactly when a run has been recorded. *)
Lemma scanRow_updateLine :
  forall (fuel : nat) (x : Z) (acc : RowScan),
    (rs_updateLine acc = true <-> rs_runs acc <> []) ->
    (rs_updateLine (scan fuel x acc) = true <-> rs_runs (scan fuel x acc) <> []).
Proof.
  induction fuel as [|fuel IH]; intros x acc Hacc; cbn [scanRow]; [assumption|].
  destruct (x <? columnsToUpdate); [|assumption].
  destruct (dirty x).
  - destruct (character (newLine x) =? 0).
    + apply IH. cbn. assumption.
    + apply IH. cbn. split; [|reflexivity].
      intros _ Hnil. apply app_eq_nil in Hnil. destruct Hnil as [_ Hnil]. discriminate.
  - apply IH. cbn. assumption.
Qed.

(** The loop only adds runs, behind those it started with. *)
Lemma scanRow_runs_grow :
  forall (fuel : nat) (x : Z) (acc : RowScan),
    exists more, rs_runs (scan fuel x acc) = rs_runs acc ++ more.
Proof.
  induction fuel as [|fuel IH]; intros x acc; cbn [scanRow].
  - exists []. now rewrite app_nil_r.
  - destruct (x <? columnsToUpdate); [|exists []; now rewrite app_nil_r].
    destruct (dirty x).
    + destruct (character (newLine x) =? 0).
      * destruct (IH (x + 1) (mkRowScan (rs_updateLine acc)
                    (rs_hasBlinker acc
                     || negb (Z.land (rendition (newLine x)) RE_BLINK =? 0))
                    (rs_isIMEdit acc) (rs_isIMSel acc) (rs_runs acc))) as [more Hm].
        exists more. exact Hm.
      * match goal with
        | |- context [scanRow _ _ _ _ _ fuel ?x' ?acc'] =>
            destruct (IH x' acc') as [more Hm]
        end.
        rewrite Hm. cbn [rs_runs]. rewrite <- app_assoc. eexists. reflexivity.
    + destruct (IH (x + 1) (mkRowScan (rs_updateLine acc)
                  (rs_hasBlinker acc
                   || negb (Z.land (rendition (newLine x)) RE_BLINK =? 0))
                  (rs_isIMEdit acc) (rs_isIMSel acc) (rs_runs acc))) as [more Hm].
      exists more. exact Hm.
Qed.

(** Every run the loop records starts at a dirty column whose code point
    is not 0 and is the run [runFrom] computes there. *)
Lemma scanRow_runs_origin :
  forall (fuel : nat) (x : Z) (acc : RowScan) (r : Run),
    In r (rs_runs (scan fuel x acc)) ->
    In r (rs_runs acc) \/
    (x <= run_x r < columnsToUpdate /\ dirty (run_x r) = true /\
     character (newLine (run_x r)) <> 0 /\
     r = runFrom newLine dirty columnsToUpdate (run_x r)).
Proof.
  induction fuel as [|fuel IH]; intros x acc r Hin; cbn [scanRow] in Hin;
    [now left|].
  destruct (x <? columnsToUpdate) eqn:Ex; [|now left].
  apply Z.ltb_lt in Ex.
  destruct (dirty x) eqn:Ed.
  - destruct (character (newLine x) =? 0) eqn:Ec.
    + apply IH in Hin. cbn [rs_runs] in Hin. destruct Hin as [Hin|Hin]; [now left|].
      right. intuition lia.
    + apply IH in Hin. cbn [rs_runs] in Hin.
      pose proof (runFrom_len_pos x) as Hlen.
      destruct Hin as [Hin|Hin].
      * apply in_app_or in Hin. destruct Hin as [Hin|[<-|[]]]; [now left|].
        right. apply Z.eqb_neq in Ec.
        assert (Hrx : run_x (runFrom newLine dirty columnsToUpdate x) = x).
        { unfold runFrom. destruct (extendRun _ _ _ _ _ _ _ _ _ _ _). reflexivity. }
        rewrite Hrx. repeat split; try lia; assumption.
      * right. intuition lia.
  - apply IH in Hin. cbn [rs_runs] in Hin. destruct Hin as [Hin|Hin]; [now left|].
    right. intuition lia.
Qed.

(** A dirty column with a code point other than 0 makes the loop record a
    run, given the fuel to reach it. *)
Lemma scanRow_finds_run :
  forall (fuel : nat) (x : Z) (acc : RowScan) (x0 : Z),
    (Z.to_nat (columnsToUpdate - x) <= fuel)%nat ->
    x <= x0 < columnsToUpdate ->
    dirty x0 = true -> character (newLine x0) <> 0 ->
    rs_runs (scan fuel x acc) <> rs_runs acc.
Proof.
  induction fuel as [|fuel IH]; intros x acc x0 Hf Hx0 Hd Hc; [lia|].
  cbn [scanRow].
  replace (x <? columnsToUpdate) with true by (symmetry; apply Z.ltb_lt; lia).
  assert (Hgrow : forall x' b u e s,
            rs_runs (scanRow im y newLine dirty columnsToUpdate fuel x'
                       (mkRowScan u b e s
                          (rs_runs acc ++ [runFrom newLine dirty columnsToUpdate x])))
            <> rs_runs acc).
  { intros x' b u e s Heq.
    destruct (scanRow_runs_grow fuel x'
                (mkRowScan u b e s
                   (rs_runs acc ++ [runFrom newLine dirty columnsToUpdate x])))
      as [more Hm].
    rewrite Hm in Heq. cbn [rs_runs] in Heq.
    apply (f_equal (@length Run)) in Heq. rewrite !length_app in Heq.
    cbn [length] in Heq. lia. }
  destruct (Z.eq_dec x x0) as [->|Hne].
  - rewrite Hd. apply Z.eqb_neq in Hc. rewrite Hc. apply Hgrow.
  - destruct (dirty x).
    + destruct (character (newLine x) =? 0).
      * match goal with
        | |- rs_runs (scanRow _ _ _ _ _ fuel ?x' ?acc') <> _ =>
            apply (IH x' acc' x0); try assumption; lia
        end.
      * apply Hgrow.
    + match goal with
      | |- rs_runs (scanRow _ _ _ _ _ fuel ?x' ?acc') <> _ =>
          apply (IH x' acc' x0); try assumption; lia
      end.
Qed.

(** Without a dirty column the loop records nothing and leaves
    [updateLine] and the input-method flags as they were. *)
Lemma scanRow_clean :
  forall (fuel : nat) (x : Z) (acc : RowScan),
    (forall x', x <= x' < columnsToUpdate -> dirty x' = false) ->
    rs_runs (scan fuel x acc) = rs_runs acc /\
    rs_updateLine (scan fuel x acc) = rs_updateLine acc /\
    rs_isIMEdit (scan fuel x acc) = rs_isIMEdit acc /\
    rs_isIMSel (scan fuel x acc) = rs_isIMSel acc.
Proof.
  induction fuel as [|fuel IH]; intros x acc Hclean; cbn [scanRow]; [auto|].
  destruct (x <? columnsToUpdate) eqn:Ex; [|auto].
  apply Z.ltb_lt in Ex. rewrite (Hclean x) by lia.
  match goal with
  | |- context [scanRow _ _ _ _ _ fuel ?x' ?acc'] =>
      destruct (IH x' acc') as (H1 & H2 & H3 & H4)
  end.
  { intros x' Hx'. apply Hclean. lia. }
  rewrite H1, H2, H3, H4. cbn. auto.
Qed.
End ScanRow.


(* ------------------------------------------------------------------ *)
(** ** The scan of one row of the image *)

Lemma for_loop_ext {S : Type} (b1 b2 : Z -> S -> S) :
  forall (n : nat) (x : Z) (s : S),
    (forall i t, x <= i < x + Z.of_nat n -> b1 i t = b2 i t) ->
    for_loop n x b1 s = for_loop n x b2 s.
Proof.
  induction n as [|n IH]; intros x s Hb; cbn [for_loop]; [reflexivity|].
  rewrite (Hb x s) by lia. apply IH. intros i t Hi. apply Hb. lia.
Qed.

Lemma buildDirtyMask_ext (t1 t2 : Z -> bool) (columnsToUpdate : Z) :
  (forall x, 0 <= x < columnsToUpdate -> t1 x = t2 x) ->
  buildDirtyMask t1 columnsToUpdate = buildDirtyMask t2 columnsToUpdate.
Proof.
  intros Ht. unfold buildDirtyMask, for_range. apply for_loop_ext.
  intros i t Hi. rewrite Ht by lia. reflexivity.
Qed.

(** The mask of a row depends on the retained image through the cells of
    that row only. *)
Lemma rowDirtyMask_ext (d : TerminalDisplay) (newimg img1 img2 : list Character)
    (columns' columnsToUpdate y : Z) :
  (forall x, 0 <= x < columnsToUpdate ->
             cell_at img1 (y * columns d + x) = cell_at img2 (y * columns d + x)) ->
  rowDirtyMask d newimg columns' columnsToUpdate y img1
  = rowDirtyMask d newimg columns' columnsToUpdate y img2.
Proof.
  intros Hrow. unfold rowDirtyMask. apply buildDirtyMask_ext.
  intros x Hx. unfold cellDirty, currentLine_of. now rewrite Hrow.
Qed.

Section ScanOfRow.
Context {HC : HeaderConstants}.
Variables (d : TerminalDisplay) (newimg : list Character).
Variables (columns' columnsToUpdate y : Z).

Lemma scanOfRow_ext (img1 img2 : list Character) (b e s : bool) :
  (forall x, 0 <= x < columnsToUpdate ->
             cell_at img1 (y * columns d + x) = cell_at img2 (y * columns d + x)) ->
  scanOfRow d newimg columns' columnsToUpdate y img1 b e s
  = scanOfRow d newimg columns' columnsToUpdate y img2 b e s.
Proof.
  intros Hrow. unfold scanOfRow.
  now rewrite (rowDirtyMask_ext d newimg img1 img2 columns' columnsToUpdate y Hrow).
Qed.

Lemma scanOfRow_updateLine (img : list Character) (b e s : bool) :
  rs_updateLine (scanOfRow d newimg columns' columnsToUpdate y img b e s) = true
  <-> rs_runs (scanOfRow d newimg columns' columnsToUpdate y img b e s) <> [].
Proof.
  unfold scanOfRow. destruct (resizing d).
  - cbn. split; [discriminate | congruence].
  - apply scanRow_updateLine. cbn. split; [discriminate | congruence].
Qed.

Lemma scanOfRow_runs (img : list Character) (b e s : bool) :
  rs_runs (scanOfRow d newimg columns' columnsToUpdate y img b e s) <> []
  <-> rowHasRun d newimg columns' columnsToUpdate y img.
Proof.
  unfold scanOfRow, rowHasRun. destruct (resizing d).
  - cbn. split; [congruence | intros [Hr _]; discriminate].
  - split.
    + intros Hne. split; [reflexivity|].
      destruct (rs_runs (scanRow (imState d) y (newLine_of newimg columns' y)
                  (dirtyMask_at (rowDirtyMask d newimg columns' columnsToUpdate y img))
                  columnsToUpdate (Z.to_nat columnsToUpdate) 0
                  (mkRowScan false b e s []))) as [|r rest] eqn:Er; [congruence|].
      assert (Hin : In r (r :: rest)) by (now left). rewrite <- Er in Hin.
      apply scanRow_runs_origin in Hin. cbn [rs_runs] in Hin.
      destruct Hin as [[]|(Hx & Hd & Hc & _)].
      exists (run_x r). auto.
    + intros [_ (x & Hx & Hd & Hc)].
      apply (scanRow_finds_run (imState d) y (newLine_of newimg columns' y)
               (dirtyMask_at (rowDirtyMask d newimg columns' columnsToUpdate y img))
               columnsToUpdate (Z.to_nat columnsToUpdate) 0
               (mkRowScan false b e s []) x); try assumption; lia.
Qed.
End ScanOfRow.

(* ------------------------------------------------------------------ *)
(** ** The row loop *)

Lemma rowsUpTo_nonpos (n : Z) : n <= 0 -> rowsUpTo n = [].
Proof. intros Hn. unfold rowsUpTo. now replace (Z.to_nat n) with O by lia. Qed.

Lemma rowsUpTo_succ (k : Z) : 0 <= k -> rowsUpTo (k + 1) = rowsUpTo k ++ [k].
Proof.
  intros Hk. unfold rowsUpTo.
  replace (Z.to_nat (k + 1)) with (Z.to_nat k + 1)%nat by lia.
  rewrite seq_app, map_app. cbn. f_equal. f_equal. lia.
Qed.

Lemma In_rowsUpTo (n y : Z) : In y (rowsUpTo n) <-> 0 <= y < n.
Proof.
  unfold rowsUpTo. rewrite in_map_iff. split.
  - intros (k & <- & Hk). apply in_seq in Hk. lia.
  - intros Hy. exists (Z.to_nat y). split; [lia|]. apply in_seq. lia.
Qed.

Lemma flaggedRows_app (l1 l2 : list RowReport) :
  flaggedRows (l1 ++ l2) = flaggedRows l1 ++ flaggedRows l2.
Proof. unfold flaggedRows. now rewrite filter_app, map_app. Qed.

(** Two rows of the image do not overlap: a cell of row [y] lies in the
    part of row [k] that [memcpy] writes only when [y = k]. *)
Lemma row_cells_disjoint (C cols k y x : Z) :
  cols <= C -> 0 <= x < C -> y <> k ->
  y * C + x < k * C \/ k * C + cols <= y * C + x.
Proof.
  intros Hc Hx Hne.
  destruct (Z_lt_dec y k) as [Hlt|Hge].
  - left. assert (y + 1 <= k) by lia.
    assert ((y + 1) * C <= k * C) by (apply Z.mul_le_mono_nonneg_r; lia). lia.
  - right. assert (k + 1 <= y) by lia.
    assert ((k + 1) * C <= y * C) by (apply Z.mul_le_mono_nonneg_r; lia). lia.
Qed.

Section RowLoop.
Context {HC : HeaderConstants}.
Variables (d : TerminalDisplay) (newimg img : list Character).
Variables (columns' columnsToUpdate : Z).
Variables (imEdit0 imSel0 : bool).
Hypothesis columnsToUpdate_le : columnsToUpdate <= columns d.

Local Abbreviation start := (mkDiffState img [] false imEdit0 imSel0 0 []).
Local Abbreviation body := (updateRow d newimg columns' columnsToUpdate).

Local Abbreviation invAt := (rowLoopInv d newimg img columns' columnsToUpdate).

Lemma rowLoopInv_start (k : Z) : k <= 0 -> invAt k start.
Proof.
  intros Hk. unfold rowLoopInv. cbn.
  split; [reflexivity|]. split.
  - intros y x Hy Hx.
    replace (y <? k) with false by (symmetry; apply Z.ltb_ge; lia). reflexivity.
  - split; [now rewrite rowsUpTo_nonpos|]. split; [intros rep []|]. split; reflexivity.
Qed.

Lemma rowLoopInv_step (k : Z) (st : DiffState) :
  0 <= k -> invAt k st -> invAt (k + 1) (body k st).
Proof.
  intros Hk (Hlen & Hcells & Hrows & Hreps & Hregion & Hcount).
  assert (Hsc : scanOfRow d newimg columns' columnsToUpdate k (ds_image st)
                  (ds_hasBlinker st) (ds_isIMEdit st) (ds_isIMSel st)
                = scanOfRow d newimg columns' columnsToUpdate k img
                    (ds_hasBlinker st) (ds_isIMEdit st) (ds_isIMSel st)).
  { apply scanOfRow_ext. intros x Hx. rewrite Hcells by lia.
    replace (k <? k) with false by (symmetry; apply Z.ltb_ge; lia). reflexivity. }
  unfold rowLoopInv, updateRow. cbn [ds_image ds_region ds_rows ds_dirtyLineCount].
  rewrite Hsc.
  set (sc := scanOfRow d newimg columns' columnsToUpdate k img
               (ds_hasBlinker st) (ds_isIMEdit st) (ds_isIMSel st)).
  set (flag := rs_updateLine sc || isDoubleHeight (lineProperties d) k).
  split; [now rewrite memcpy_length|]. split; [|split; [|split; [|split]]].
  - intros y x Hy Hx. rewrite cell_at_memcpy, Hlen.
    destruct (Z.eq_dec y k) as [->|Hne].
    + replace (k <? k + 1) with true by (symmetry; apply Z.ltb_lt; lia).
      replace (k * columns d <=? k * columns d + x) with true
        by (symmetry; apply Z.leb_le; lia).
      replace (0 <=? k * columns d + x) with true
        by (symmetry; apply Z.leb_le; nia).
      replace (k * columns d + x <? k * columns d + columnsToUpdate)
        with (x <? columnsToUpdate)
        by (destruct (Z.ltb_spec x columnsToUpdate);
            symmetry; [apply Z.ltb_lt | apply Z.ltb_ge]; lia).
      assert (Hold : cell_at (ds_image st) (k * columns d + x)
                     = cell_at img (k * columns d + x)).
      { rewrite Hcells by lia.
        replace (k <? k) with false by (symmetry; apply Z.ltb_ge; lia). reflexivity. }
      destruct (x <? columnsToUpdate);
        destruct (k * columns d + x <? Z.of_nat (length img));
        cbn [andb]; try exact Hold.
      f_equal. lia.
    + replace (y <? k + 1) with (y <? k)
        by (destruct (Z.ltb_spec y k); symmetry; [apply Z.ltb_lt | apply Z.ltb_ge]; lia).
      destruct (row_cells_disjoint (columns d) columnsToUpdate k y x
                  columnsToUpdate_le Hx Hne) as [Hlow|Hhigh].
      * replace (k * columns d <=? y * columns d + x) with false
          by (symmetry; apply Z.leb_gt; lia).
        cbn [andb]. apply Hcells; assumption.
      * replace (y * columns d + x <? k * columns d + columnsToUpdate) with false
          by (symmetry; apply Z.ltb_ge; lia).
        rewrite andb_false_r. cbn [andb]. apply Hcells; assumption.
  - rewrite map_app, Hrows, rowsUpTo_succ by assumption. reflexivity.
  - intros rep Hin. apply in_app_or in Hin. destruct Hin as [Hin|[<-|[]]].
    + apply Hreps. assumption.
    + cbn [row_updateLine row_runs row_y]. subst flag. split.
      * rewrite orb_true_iff. subst sc. rewrite scanOfRow_updateLine. tauto.
      * subst sc. apply scanOfRow_runs.
  - rewrite flaggedRows_app, map_app, <- Hregion.
    unfold flaggedRows. cbn [filter row_updateLine].
    destruct flag; cbn; [reflexivity | now rewrite app_nil_r].
  - rewrite flaggedRows_app, length_app, Hcount.
    unfold flaggedRows. cbn [filter row_updateLine].
    destruct flag; cbn [map length]; lia.
Qed.

Lemma rowLoop_spec (n : Z) : invAt n (for_range 0 n body start).
Proof.
  destruct (Z_le_dec 0 n) as [Hn|Hn].
  - apply (for_range_invariant invAt); [assumption | |].
    + apply rowLoopInv_start. lia.
    + intros i t Hi Hinv. apply rowLoopInv_step; [lia | assumption].
  - rewrite for_range_empty by lia. apply rowLoopInv_start. lia.
Qed.
End RowLoop.

(* ------------------------------------------------------------------ *)
(** ** The differencer as a whole *)

Section DiffImage.
Context {HC : HeaderConstants}.
Variables (d : TerminalDisplay) (w : ScreenWindow) (img : list Character).

Local Abbreviation res := (diffImage d w img).
Local Abbreviation lt := (linesToUpdate_of d w).
Local Abbreviation cols := (columnsToUpdate_of d w).

Lemma columnsToUpdate_le_columns : cols <= columns d.
Proof. unfold columnsToUpdate_of. lia. Qed.

(** [diffImage] is the row loop followed by the two clearing rectangles. *)
Lemma diffImage_loop :
  exists st,
    rowLoopInv d (getImage w) img (windowColumns w) cols lt st /\
    image (ur_display res) = Some (ds_image st) /\
    ur_rows res = ds_rows st /\
    ur_dirtyRegion res = ds_region st ++ clearRects d lt cols.
Proof.
  eexists. split; [apply rowLoop_spec; apply columnsToUpdate_le_columns|].
  unfold diffImage, clearRects, QRegion_unite. cbn.
  split; [reflexivity|]. split; [reflexivity|].
  destruct (lt <? usedLines d); destruct (cols <? usedColumns d);
    cbn; rewrite <- ?app_assoc, ?app_nil_r; reflexivity.
Qed.

Lemma diffImage_fields :
  image_size (ur_display res) = image_size d /\
  lines (ur_display res) = lines d /\
  columns (ur_display res) = columns d /\
  usedLines (ur_display res) = lt /\
  usedColumns (ur_display res) = cols /\
  lineProperties (ur_display res) = lineProperties d /\
  imState (ur_display res) = imState d /\
  widget (ur_display res) = widget d /\
  resizing (ur_display res) = resizing d /\
  bX (ur_display res) = bX d /\ bY (ur_display res) = bY d /\
  ur_window res = w.
Proof. unfold diffImage. cbn. repeat split; reflexivity. Qed.

Lemma diffImage_region :
  ur_dirtyRegion res
  = map (rowRect d cols) (flaggedRows (ur_rows res)) ++ clearRects d lt cols.
Proof.
  destruct diffImage_loop as (st & Hinv & _ & Hrows & Hreg).
  destruct Hinv as (_ & _ & _ & _ & Hregion & _).
  now rewrite Hreg, Hrows, Hregion.
Qed.

Lemma diffImage_rows_visited : map row_y (ur_rows res) = rowsUpTo lt.
Proof.
  destruct diffImage_loop as (st & Hinv & _ & Hrows & _).
  destruct Hinv as (_ & _ & Hvis & _). now rewrite Hrows.
Qed.

Lemma diffImage_reports (rep : RowReport) :
  In rep (ur_rows res) ->
  (row_updateLine rep = true <->
   row_runs rep <> [] \/ isDoubleHeight (lineProperties d) (row_y rep) = true) /\
  (row_runs rep <> [] <->
   rowHasRun d (getImage w) (windowColumns w) cols (row_y rep) img).
Proof.
  destruct diffImage_loop as (st & Hinv & _ & Hrows & _).
  destruct Hinv as (_ & _ & _ & Hreps & _). rewrite Hrows. apply Hreps.
Qed.

(** The image after the call: the compared extent holds the new cells, the
    rest is as before. *)
Lemma diffImage_cells (img' : list Character) (y x : Z) :
  image (ur_display res) = Some img' ->
  0 <= y -> 0 <= x < columns d ->
  length img' = length img /\
  cell_at img' (y * columns d + x) =
  if (y <? lt) && (x <? cols) && (y * columns d + x <? Z.of_nat (length img))
  then cell_at (getImage w) (y * windowColumns w + x)
  else cell_at img (y * columns d + x).
Proof.
  destruct diffImage_loop as (st & Hinv & Himg & _ & _).
  destruct Hinv as (Hlen & Hcells & _).
  rewrite Himg. intros [= <-] Hy Hx. split; [assumption|]. now apply Hcells.
Qed.

(** The rows flagged are those rows of the compared extent in which a run
    was found or whose double-height flag is set. *)
Lemma diffImage_flaggedRows (y : Z) :
  In y (flaggedRows (ur_rows res)) <->
  0 <= y < lt /\
  (rowHasRun d (getImage w) (windowColumns w) cols y img
   \/ isDoubleHeight (lineProperties d) y = true).
Proof.
  unfold flaggedRows. rewrite in_map_iff. split.
  - intros (rep & <- & Hin). apply filter_In in Hin. destruct Hin as [Hin Hflag].
    split.
    + apply In_rowsUpTo. rewrite <- diffImage_rows_visited. now apply in_map.
    + destruct (diffImage_reports rep Hin) as [Hf Hr].
      apply Hf in Hflag. rewrite <- Hr. exact Hflag.
  - intros [Hy Hwhy].
    apply In_rowsUpTo in Hy. rewrite <- diffImage_rows_visited in Hy.
    apply in_map_iff in Hy. destruct Hy as (rep & <- & Hin).
    exists rep. split; [reflexivity|]. apply filter_In. split; [assumption|].
    destruct (diffImage_reports rep Hin) as [Hf Hr].
    apply Hf. rewrite Hr. exact Hwhy.
Qed.

Lemma NoDup_rowsUpTo (n : Z) : NoDup (rowsUpTo n).
Proof.
  unfold rowsUpTo. apply Injective_map_NoDup; [|apply seq_NoDup].
  intros a b Hab. lia.
Qed.

(** Rows reported once each are flagged once each. *)
Lemma flaggedRows_NoDup (reports : list RowReport) :
  NoDup (map row_y reports) -> NoDup (flaggedRows reports).
Proof.
  unfold flaggedRows. induction reports as [|rep reports IH]; cbn; intros Hnd.
  - constructor.
  - inversion Hnd as [|? ? Hfresh Hrest]; subst.
    destruct (row_updateLine rep); cbn; [|now apply IH].
    constructor; [|now apply IH].
    intros Hin. apply Hfresh. apply in_map_iff in Hin.
    destruct Hin as (other & Hy & Hin). apply filter_In in Hin.
    apply in_map_iff. exists other. tauto.
Qed.

Lemma diffImage_flaggedRows_NoDup : NoDup (flaggedRows (ur_rows res)).
Proof.
  apply flaggedRows_NoDup. rewrite diffImage_rows_visited. apply NoDup_rowsUpTo.
Qed.
End DiffImage.

(* ------------------------------------------------------------------ *)
(** ** Allocation and resizing *)

Section MakeImage.
Context {HC : HeaderConstants}.

(** [clearImage] writes the blank cell into every cell up to and including
    [image[image_size]]. *)
Lemma clearImage_spec (size : Z) (img : list Character) :
  Z.of_nat (length img) = size + 1 ->
  length (clearImage size img) = length img /\
  forall i, 0 <= i <= size -> cell_at (clearImage size img) i = blankCharacter.
Proof.
  intros Hlen. unfold clearImage.
  set (P := fun (k : Z) (a : list Character) =>
              length a = length img /\
              forall i, 0 <= i < k -> cell_at a i = blankCharacter).
  enough (HP : P (size + 1)
                 (for_range 0 (size + 1) (fun i a => set_at a i blankCharacter) img)).
  { destruct HP as [H1 H2]. split; [assumption|]. intros i Hi. apply H2. lia. }
  apply for_range_invariant; [lia | |].
  - split; [reflexivity|]. intros i Hi. lia.
  - intros k a Hk [Hl Ha]. split; [now rewrite set_at_length|].
    intros i Hi. unfold cell_at. rewrite get_at_set_at.
    destruct (Z.eq_dec i k) as [->|Hne].
    + rewrite Z.eqb_refl.
      replace (0 <=? k) with true by (symmetry; apply Z.leb_le; lia).
      replace (k <? Z.of_nat (length a)) with true by (symmetry; apply Z.ltb_lt; lia).
      reflexivity.
    + replace (i =? k) with false by (symmetry; apply Z.eqb_neq; assumption).
      cbn [andb]. apply Ha. lia.
Qed.

Lemma malloc_cells_length (n : Z) : 0 <= n -> Z.of_nat (length (malloc_cells n)) = n.
Proof. intros Hn. unfold malloc_cells. rewrite repeat_length. lia. Qed.

(** [calcGeometry] leaves a display with a sensible extent. *)
Lemma calcGeometry_extent (d : TerminalDisplay) :
  isFixedSize d = false \/
  (0 < lines d /\ 0 < columns d /\
   usedLines d <= lines d /\ usedColumns d <= columns d) ->
  let d1 := calcGeometry d in
  0 < lines d1 /\ 0 < columns d1 /\
  usedLines d1 <= lines d1 /\ usedColumns d1 <= columns d1.
Proof.
  intros Hd. unfold calcGeometry. cbn.
  destruct (isFixedSize d).
  - destruct Hd as [Hd|Hd]; [discriminate | exact Hd].
  - lia.
Qed.

(** [makeImage] succeeds on such a display and yields an image of
    [lines * columns + 1] blank cells. *)
Lemma makeImage_spec (d : TerminalDisplay) :
  isFixedSize d = false \/
  (0 < lines d /\ 0 < columns d /\
   usedLines d <= lines d /\ usedColumns d <= columns d) ->
  exists d1 img,
    makeImage d = Some d1 /\
    image d1 = Some img /\
    image_size d1 = lines d1 * columns d1 /\
    Z.of_nat (length img) = image_size d1 + 1 /\
    (forall i, 0 <= i <= image_size d1 -> cell_at img i = blankCharacter) /\
    0 < lines d1 /\ 0 < columns d1 /\
    usedLines d1 <= lines d1 /\ usedColumns d1 <= columns d1 /\
    lines d1 = lines (calcGeometry d) /\ columns d1 = columns (calcGeometry d) /\
    lineProperties d1 = lineProperties d /\ resizing d1 = resizing d /\
    isFixedSize d1 = isFixedSize d /\ imState d1 = imState d /\ widget d1 = widget d.
Proof.
  intros Hd. pose proof (calcGeometry_extent d Hd) as Hext. cbv zeta in Hext.
  destruct Hext as (Hl & Hc & Hul & Huc).
  unfold makeImage.
  replace (0 <? lines (calcGeometry d)) with true by (symmetry; apply Z.ltb_lt; lia).
  replace (0 <? columns (calcGeometry d)) with true by (symmetry; apply Z.ltb_lt; lia).
  replace (usedLines (calcGeometry d) <=? lines (calcGeometry d)) with true
    by (symmetry; apply Z.leb_le; lia).
  replace (usedColumns (calcGeometry d) <=? columns (calcGeometry d)) with true
    by (symmetry; apply Z.leb_le; lia).
  cbn [andb].
  set (size := lines (calcGeometry d) * columns (calcGeometry d)).
  assert (Hsize : 0 <= size) by (subst size; nia).
  destruct (clearImage_spec size (malloc_cells (size + 1))) as [Hlen Hblank].
  { apply malloc_cells_length. lia. }
  eexists. eexists. split; [reflexivity|].
  cbn. split; [reflexivity|]. split; [reflexivity|].
  split; [rewrite Hlen; apply malloc_cells_length; lia|].
  split; [exact Hblank|].
  repeat (split; [assumption || reflexivity|]). reflexivity.
Qed.

(** The row copy of [updateImageSize]: the rows below [lins] hold the old
    cells over the first [cols] columns, everything else is untouched. *)
Lemma copyOldImage_spec (img oldimg : list Character) (columns' oldcol lins cols : Z) :
  cols <= columns' ->
  length (copyOldImage img oldimg columns' oldcol lins cols) = length img /\
  forall lin col, 0 <= lin -> 0 <= col < columns' ->
    cell_at (copyOldImage img oldimg columns' oldcol lins cols) (columns' * lin + col) =
    if (lin <? lins) && (col <? cols) && (columns' * lin + col <? Z.of_nat (length img))
    then cell_at oldimg (oldcol * lin + col)
    else cell_at img (columns' * lin + col).
Proof.
  intros Hcols. unfold copyOldImage.
  set (P := fun (k : Z) (a : list Character) =>
    length a = length img /\
    forall lin col, 0 <= lin -> 0 <= col < columns' ->
      cell_at a (columns' * lin + col) =
      if (lin <? k) && (col <? cols) && (columns' * lin + col <? Z.of_nat (length img))
      then cell_at oldimg (oldcol * lin + col)
      else cell_at img (columns' * lin + col)).
  assert (Hstart : forall k, k <= 0 -> P k img).
  { intros k Hk. split; [reflexivity|]. intros lin col Hlin Hcol.
    replace (lin <? k) with false by (symmetry; apply Z.ltb_ge; lia). reflexivity. }
  destruct (Z_le_dec 0 lins) as [Hpos|Hneg].
  2:{ rewrite for_range_empty by lia. apply Hstart. lia. }
  apply (for_range_invariant P); [assumption | apply Hstart; lia |].
  intros k a Hk [Hlen Hcells]. split; [now rewrite memcpy_length|].
  intros lin col Hlin Hcol. rewrite cell_at_memcpy, Hlen.
  destruct (Z.eq_dec lin k) as [->|Hne].
  - replace (k <? k + 1) with true by (symmetry; apply Z.ltb_lt; lia).
    replace (columns' * k <=? columns' * k + col) with true
      by (symmetry; apply Z.leb_le; lia).
    replace (0 <=? columns' * k + col) with true by (symmetry; apply Z.leb_le; nia).
    replace (columns' * k + col <? columns' * k + cols) with (col <? cols)
      by (destruct (Z.ltb_spec col cols); symmetry;
          [apply Z.ltb_lt | apply Z.ltb_ge]; lia).
    cbn [andb].
    assert (Hold : cell_at a (columns' * k + col) = cell_at img (columns' * k + col)).
    { rewrite Hcells by lia.
      replace (k <? k) with false by (symmetry; apply Z.ltb_ge; lia). reflexivity. }
    destruct (col <? cols); destruct (columns' * k + col <? Z.of_nat (length img));
      cbn [andb]; try exact Hold.
    f_equal. lia.
  - replace (lin <? k + 1) with (lin <? k)
      by (destruct (Z.ltb_spec lin k); symmetry; [apply Z.ltb_lt | apply Z.ltb_ge]; lia).
    destruct (row_cells_disjoint columns' cols k lin col Hcols Hcol Hne) as [Hlow|Hhigh].
    + replace (columns' * k <=? columns' * lin + col) with false
        by (symmetry; apply Z.leb_gt; lia).
      cbn [andb]. apply Hcells; assumption.
    + replace (columns' * lin + col <? columns' * k + cols) with false
        by (symmetry; apply Z.ltb_ge; lia).
      rewrite andb_false_r. cbn [andb]. apply Hcells; assumption.
Qed.
End MakeImage.

Lemma wellFormed_extent (d : TerminalDisplay) :
  wellFormed d ->
  isFixedSize d = false \/
  (0 < lines d /\ 0 < columns d /\
   usedLines d <= lines d /\ usedColumns d <= columns d).
Proof. intros (H1 & H2 & H3 & H4 & _). right. auto. Qed.

(** What [updateImageSize] makes of a display. *)
Lemma updateImageSize_spec `{HeaderConstants} (d : TerminalDisplay) :
  isFixedSize d = false \/
  (0 < lines d /\ 0 < columns d /\
   usedLines d <= lines d /\ usedColumns d <= columns d) ->
  exists d' img',
    updateImageSize d = Some d' /\
    image d' = Some img' /\
    image_size d' = lines d' * columns d' /\
    Z.of_nat (length img') = image_size d' + 1 /\
    0 < lines d' /\ 0 < columns d' /\
    usedLines d' <= lines d' /\ usedColumns d' <= columns d' /\
    resizing d' = false /\
    lineProperties d' = lineProperties d /\ imState d' = imState d /\
    widget d' = widget d /\ isFixedSize d' = isFixedSize d /\
    lines d' = lines (calcGeometry d) /\ columns d' = columns (calcGeometry d) /\
    cell_at img' (image_size d') = blankCharacter /\
    forall lin col, 0 <= lin < lines d' -> 0 <= col < columns d' ->
      cell_at img' (columns d' * lin + col) =
      match image d with
      | Some oldimg =>
          if (lin <? Z.min (lines d) (lines d'))
             && (col <? Z.min (columns d) (columns d'))
          then cell_at oldimg (columns d * lin + col)
          else blankCharacter
      | None => blankCharacter
      end.
Proof.
  intros Hd.
  destruct (makeImage_spec d Hd)
    as (d1 & img & Hmk & Himg & Hsize & Hlen & Hblank & Hl & Hc & Hul & Huc
        & Hlines & Hcolumns & Hlp & Hrs & Hfix & Him & Hw).
  unfold updateImageSize. rewrite Hmk, Himg.
  destruct (image d) as [oldimg|] eqn:Eold.
  - destruct (copyOldImage_spec img oldimg (columns d1) (columns d)
                (Z.min (lines d) (lines d1)) (Z.min (columns d) (columns d1)))
      as [Hclen Hccells]; [lia|].
    eexists. eexists. split; [reflexivity|]. cbn.
    split; [reflexivity|]. split; [assumption|].
    split; [rewrite Hclen; assumption|].
    do 4 (split; [assumption|]). split; [reflexivity|].
    do 6 (split; [assumption|]).
    split.
    + replace (image_size d1) with (columns d1 * lines d1 + 0) by lia.
      rewrite Hccells by lia.
      replace (lines d1 <? Z.min (lines d) (lines d1)) with false
        by (symmetry; apply Z.ltb_ge; lia).
      cbn [andb]. apply Hblank. nia.
    + intros lin col Hlin Hcol. rewrite Hccells by lia.
      replace (columns d1 * lin + col <? Z.of_nat (length img)) with true
        by (symmetry; apply Z.ltb_lt; nia).
      rewrite andb_true_r.
      destruct ((lin <? Z.min (lines d) (lines d1))
                && (col <? Z.min (columns d) (columns d1))); [reflexivity|].
      apply Hblank. nia.
  - eexists. eexists. split; [reflexivity|]. cbn.
    split; [eassumption|]. split; [assumption|]. split; [assumption|].
    do 4 (split; [assumption|]). split; [reflexivity|].
    do 6 (split; [assumption|]).
    split.
    + apply Hblank. nia.
    + intros lin col Hlin Hcol. apply Hblank. nia.
Qed.

(** X26.  [updateImageSize] on a well-formed display, as [resizeEvent]
    calls it, succeeds: the new image has [lines * columns + 1] cells; the cells of the rectangle
    [min(oldRows,newRows) x min(oldCols,newCols)] hold what the old image
    held at the same row and column, and every other cell of the grid is the
    blank cell: a space, the default colours, the default rendition. *)
Lemma updateImageSize_keeps_overlap_and_blanks_the_rest :
  forall (HC : HeaderConstants) (d : TerminalDisplay),
    wellFormed d ->
    exists d' img',
      updateImageSize d = Some d' /\
      image d' = Some img' /\
      Z.of_nat (length img') = lines d' * columns d' + 1 /\
      blankCharacter =
        mkCharacter 32 DEFAULT_RENDITION
          (CharacterColor_of COLOR_SPACE_DEFAULT DEFAULT_FORE_COLOR)
          (CharacterColor_of COLOR_SPACE_DEFAULT DEFAULT_BACK_COLOR) /\
      forall lin col, 0 <= lin < lines d' -> 0 <= col < columns d' ->
        cell_at img' (loc d' col lin) =
        match image d with
        | Some oldimg =>
            if (lin <? Z.min (lines d) (lines d'))
               && (col <? Z.min (columns d) (columns d'))
            then cell_at oldimg (loc d col lin)
            else blankCharacter
        | None => blankCharacter
        end.
Proof.
  intros HC d Hwf.
  destruct (updateImageSize_spec d (wellFormed_extent d Hwf))
    as (d' & img' & Hup & Himg & Hsize & Hlen & _ & _ & _ & _ & _ & _ & _ & _ & _
        & _ & _ & _ & Hcells).
  exists d', img'. split; [assumption|]. split; [assumption|].
  split; [lia|]. split; [reflexivity|].
  intros lin col Hlin Hcol. unfold loc.
  replace (lin * columns d' + col) with (columns d' * lin + col) by lia.
  replace (lin * columns d + col) with (columns d * lin + col) by lia.
  now apply Hcells.
Qed.


(* ------------------------------------------------------------------ *)
(** ** [updateImage] *)

Section UpdateImage.
Context {HC : HeaderConstants}.

(** Without a pending scroll, and with the image allocated, [updateImage] is
    the differencer itself. *)
Lemma updateImage_no_scroll (d : TerminalDisplay) (w : ScreenWindow)
    (img : list Character) :
  wellFormed d -> image d = Some img -> scrollCount w = 0 ->
  updateImage d w = Some (diffImage d (resetScrollCount w) img).
Proof.
  intros (_ & _ & Hul & Huc & _) Himg Hs.
  unfold updateImage, scrollImage, ensureImage. rewrite Himg, Hs. cbn [Z.eqb orb].
  rewrite Himg.
  replace (usedLines d <=? lines d) with true by (symmetry; apply Z.leb_le; lia).
  replace (usedColumns d <=? columns d) with true by (symmetry; apply Z.leb_le; lia).
  rewrite Himg. reflexivity.
Qed.

(** [scrollImage] succeeds on a well-formed display and moves cells below
    [image_size] only. *)
Lemma scrollImage_spec (d : TerminalDisplay) (n : Z) :
  wellFormed d ->
  exists d1,
    scrollImage d n = Some d1 /\
    wellFormed d1 /\
    lines d1 = lines d /\ columns d1 = columns d /\
    usedLines d1 = usedLines d /\ usedColumns d1 = usedColumns d /\
    image_size d1 = image_size d /\
    lineProperties d1 = lineProperties d /\ imState d1 = imState d /\
    widget d1 = widget d /\ resizing d1 = resizing d /\
    isFixedSize d1 = isFixedSize d /\ bX d1 = bX d /\ bY d1 = bY d /\
    match image d, image d1 with
    | None, None => True
    | Some img, Some img1 =>
        length img1 = length img /\
        cell_at img1 (image_size d) = cell_at img (image_size d)
    | _, _ => False
    end.
Proof.
  intros Hwf. pose proof Hwf as (Hl & Hc & Hul & Huc & Himg).
  unfold scrollImage. destruct (image d) as [img|] eqn:Eimg.
  2:{ exists d. rewrite Eimg. split; [reflexivity|]. split; [assumption|].
      do 12 (split; [reflexivity|]). exact I. }
  destruct Himg as [Hsize Hlen].
  destruct ((n =? 0) || (usedLines d <=? Z.abs n)) eqn:Eskip.
  { exists d. rewrite Eimg. split; [reflexivity|]. split; [assumption|].
    do 12 (split; [reflexivity|]). split; reflexivity. }
  apply orb_false_iff in Eskip. destruct Eskip as [En Eabs].
  apply Z.eqb_neq in En. apply Z.leb_gt in Eabs.
  destruct (0 <? n) eqn:Epos.
  - apply Z.ltb_lt in Epos.
    replace (n * usedColumns d <? image_size d) with true
      by (symmetry; apply Z.ltb_lt; nia).
    eexists. split; [reflexivity|]. cbn.
    split.
    { unfold wellFormed. cbn. rewrite memcpy_length. repeat split; assumption. }
    do 12 (split; [reflexivity|]).
    split; [apply memcpy_length|]. rewrite cell_at_memcpy.
    replace (image_size d <? 0 + (usedLines d - n) * usedColumns d) with false
      by (symmetry; apply Z.ltb_ge; nia).
    now rewrite andb_false_r.
  - apply Z.ltb_ge in Epos.
    eexists. split; [reflexivity|]. cbn.
    split.
    { unfold wellFormed. cbn. rewrite memcpy_length. repeat split; assumption. }
    do 12 (split; [reflexivity|]).
    split; [apply memcpy_length|]. rewrite cell_at_memcpy.
    replace (image_size d <? Z.abs n * usedColumns d
                             + (usedLines d - Z.abs n) * usedColumns d) with false
      by (symmetry; apply Z.ltb_ge; nia).
    now rewrite andb_false_r.
Qed.

(** [updateImage] succeeds on every well-formed display, whatever the
    window's dimensions: it is the differencer run on the display as
    scrolled (and, on the first call, as allocated). *)
Lemma updateImage_spec (d : TerminalDisplay) (w : ScreenWindow) :
  wellFormed d ->
  exists d2 img,
    updateImage d w = Some (diffImage d2 (resetScrollCount w) img) /\
    image d2 = Some img /\
    wellFormed d2 /\
    lineProperties d2 = lineProperties d /\ imState d2 = imState d /\
    widget d2 = widget d /\
    (image d <> None ->
     lines d2 = lines d /\ columns d2 = columns d /\
     usedLines d2 = usedLines d /\ usedColumns d2 = usedColumns d /\
     bX d2 = bX d /\ bY d2 = bY d /\ resizing d2 = resizing d) /\
    (forall img0, image d = Some img0 ->
       image_size d2 = image_size d /\
       cell_at img (image_size d) = cell_at img0 (image_size d)).
Proof.
  intros Hwf.
  destruct (scrollImage_spec d (scrollCount w) Hwf)
    as (d1 & Hscroll & Hwf1 & Hl1 & Hc1 & Hul1 & Huc1 & Hsz1 & Hlp1 & Him1 & Hw1
        & Hrs1 & Hfx1 & HbX1 & HbY1 & Himg1).
  unfold updateImage. rewrite Hscroll. unfold ensureImage.
  destruct (image d1) as [img1|] eqn:E1.
  - rewrite E1. pose proof Hwf1 as (_ & _ & Hul & Huc & _).
    replace (usedLines d1 <=? lines d1) with true by (symmetry; apply Z.leb_le; lia).
    replace (usedColumns d1 <=? columns d1) with true by (symmetry; apply Z.leb_le; lia).
    exists d1, img1. cbn [andb]. split; [reflexivity|]. split; [assumption|].
    split; [assumption|]. do 3 (split; [assumption|]).
    split; [intros _; auto 10|].
    intros img0 E0. destruct (image d) as [img00|]; [|discriminate].
    injection E0 as ->. destruct Himg1 as [_ Hsent]. split; assumption.
  - destruct (updateImageSize_spec d1 (wellFormed_extent d1 Hwf1))
      as (d2 & img2 & Hup & Himg2 & Hsz2 & Hlen2 & Hl2 & Hc2 & Hul2 & Huc2 & _
          & Hlp2 & Him2 & Hw2 & _).
    rewrite Hup, Himg2.
    replace (usedLines d2 <=? lines d2) with true by (symmetry; apply Z.leb_le; lia).
    replace (usedColumns d2 <=? columns d2) with true by (symmetry; apply Z.leb_le; lia).
    exists d2, img2. cbn [andb]. split; [reflexivity|]. split; [assumption|].
    split.
    { unfold wellFormed. rewrite Himg2. auto 10. }
    split; [congruence|]. split; [congruence|]. split; [congruence|].
    split.
    + intros Hsome. destruct (image d); [contradiction | congruence].
    + intros img0 E0. rewrite E0 in Himg1. contradiction.
Qed.
End UpdateImage.


(* ------------------------------------------------------------------ *)
(** ** The claims about the differencer *)

(** C2.  Every run the column scan of a row records starts at a column that
    is marked dirty and whose code point is not 0.  It extends over the
    following columns as long as every column whose code point is not 0 has
    the foreground, background and rendition of the first cell, the same
    line-drawing status, the same double-width status, and is marked dirty:
    it ends at the first such column that does not, or at the end of the
    compared width.  A column whose code point is 0 neither starts a run nor
    ends one, and adds nothing to the run's string. *)
Theorem C2_run_extends_while_cells_agree :
  forall (HC : HeaderConstants) (d : TerminalDisplay) (newimg img : list Character)
         (columns' columnsToUpdate y : Z) (blinker imEdit imSel : bool) (r : Run),
    In r (rs_runs (scanOfRow d newimg columns' columnsToUpdate y img
                             blinker imEdit imSel)) ->
    let newLine := newLine_of newimg columns' y in
    let dirty := dirtyMask_at (rowDirtyMask d newimg columns' columnsToUpdate y img) in
    0 <= run_x r < columnsToUpdate /\
    dirty (run_x r) = true /\
    character (newLine (run_x r)) <> 0 /\
    1 <= run_len r <= columnsToUpdate - run_x r /\
    (forall k, 1 <= k < run_len r ->
               character (newLine (run_x r + k)) <> 0 ->
               continuesRun newLine dirty (run_x r) k) /\
    (run_len r < columnsToUpdate - run_x r ->
     character (newLine (run_x r + run_len r)) <> 0 /\
     ~ continuesRun newLine dirty (run_x r) (run_len r)) /\
    run_str r = nonzeroCodePoints newLine (run_x r) (Z.to_nat (run_len r)).
Proof.
  intros HC d newimg img columns' columnsToUpdate y blinker imEdit imSel r Hin.
  cbv zeta. unfold scanOfRow in Hin.
  destruct (resizing d); [destruct Hin|].
  apply scanRow_runs_origin in Hin. cbn [rs_runs] in Hin.
  destruct Hin as [[]|(Hx & Hd & Hc & Hr)].
  destruct (runFrom_spec (newLine_of newimg columns' y)
              (dirtyMask_at (rowDirtyMask d newimg columns' columnsToUpdate y img))
              columnsToUpdate (run_x r)) as (_ & Hlen & Hin & Hout & Hstr);
    [lia | assumption |].
  rewrite <- Hr in Hlen, Hin, Hout, Hstr.
  split; [assumption|]. split; [assumption|]. split; [assumption|].
  split; [assumption|]. split; [assumption|]. split; assumption.
Qed.

(** X25.  The row loop of [updateImage].  A row of the compared extent is
    flagged for redraw exactly when a run was found in it or its double-height flag is
    set, and a run is found exactly when the scan is not suppressed and some
    dirty column of the row has a code point.  The row loop visits every row
    of the compared extent once, in order: the row below a double-height
    row is visited and copied like any other. *)
Lemma updateImage_flags_row_iff_run_or_double_height :
  forall (HC : HeaderConstants) (d : TerminalDisplay) (w : ScreenWindow)
         (img : list Character),
    let res := diffImage d w img in
    let linesToUpdate := linesToUpdate_of d w in
    let columnsToUpdate := columnsToUpdate_of d w in
    (forall rep, In rep (ur_rows res) ->
       (row_updateLine rep = true <->
        row_runs rep <> []
        \/ isDoubleHeight (lineProperties d) (row_y rep) = true) /\
       (row_runs rep <> [] <->
        rowHasRun d (getImage w) (windowColumns w) columnsToUpdate (row_y rep) img)) /\
    map row_y (ur_rows res) = rowsUpTo linesToUpdate /\
    (forall y, isDoubleHeight (lineProperties d) y = true ->
               0 <= y -> y + 1 < linesToUpdate ->
               In (y + 1) (map row_y (ur_rows res))) /\
    (forall img' y x,
       image (ur_display res) = Some img' ->
       0 <= y < linesToUpdate -> 0 <= x < columnsToUpdate ->
       y * columns d + x < Z.of_nat (length img) ->
       cell_at img' (y * columns d + x)
       = cell_at (getImage w) (y * windowColumns w + x)).
Proof.
  intros HC d w img. cbv zeta.
  split; [apply diffImage_reports|]. split; [apply diffImage_rows_visited|]. split.
  - intros y _ Hy Hlt. rewrite diffImage_rows_visited. apply In_rowsUpTo. lia.
  - intros img' y x Himg Hy Hx Hidx.
    pose proof (columnsToUpdate_le_columns d w) as Hle.
    destruct (diffImage_cells d w img img' y x Himg) as [_ Hcell]; [lia | lia |].
    rewrite Hcell.
    replace (y <? linesToUpdate_of d w) with true by (symmetry; apply Z.ltb_lt; lia).
    replace (x <? columnsToUpdate_of d w) with true by (symmetry; apply Z.ltb_lt; lia).
    replace (y * columns d + x <? Z.of_nat (length img)) with true
      by (symmetry; apply Z.ltb_lt; lia).
    reflexivity.
Qed.

(** C4 (as the code has it).  Every flagged row contributes exactly one
    rectangle, at the row's vertical band and as wide as the compared width;
    the region handed to [update] consists of these rectangles followed by
    the rectangles that clear the area vacated when the used extent shrinks,
    and of the row rectangles alone when it does not shrink. *)
Theorem C4_region_is_row_rects_then_clear_rects :
  forall (HC : HeaderConstants) (d : TerminalDisplay) (w : ScreenWindow)
         (img : list Character),
    let res := diffImage d w img in
    let linesToUpdate := linesToUpdate_of d w in
    let columnsToUpdate := columnsToUpdate_of d w in
    ur_dirtyRegion res
    = map (rowRect d columnsToUpdate) (flaggedRows (ur_rows res))
      ++ clearRects d linesToUpdate columnsToUpdate /\
    NoDup (flaggedRows (ur_rows res)) /\
    (forall y, In y (flaggedRows (ur_rows res)) <->
               0 <= y < linesToUpdate /\
               (rowHasRun d (getImage w) (windowColumns w) columnsToUpdate y img
                \/ isDoubleHeight (lineProperties d) y = true)) /\
    (forall y, rowRect d columnsToUpdate y
               = mkQRect (bX d + tLx d) (bY d + tLy d + font_h (widget d) * y)
                         (font_w (widget d) * columnsToUpdate) (font_h (widget d))) /\
    (usedLines d <= linesToUpdate -> usedColumns d <= columnsToUpdate ->
     ur_dirtyRegion res
     = map (rowRect d columnsToUpdate) (flaggedRows (ur_rows res))).
Proof.
  intros HC d w img. cbv zeta.
  split; [apply diffImage_region|]. split; [apply diffImage_flaggedRows_NoDup|].
  split; [apply diffImage_flaggedRows|]. split; [reflexivity|].
  intros Hl Hc. rewrite diffImage_region. unfold clearRects.
  replace (linesToUpdate_of d w <? usedLines d) with false
    by (symmetry; apply Z.ltb_ge; lia).
  replace (columnsToUpdate_of d w <? usedColumns d) with false
    by (symmetry; apply Z.ltb_ge; lia).
  cbn. now rewrite app_nil_r.
Qed.

Lemma inPreeditSpan_inactive (im : InputMethodState) (y x : Z) :
  m_imPreeditLength im <= 0 -> inPreeditSpan im y x = false.
Proof.
  intros Him. unfold inPreeditSpan.
  replace (0 <? m_imPreeditLength im) with false by (symmetry; apply Z.ltb_ge; lia).
  reflexivity.
Qed.

Lemma nil_of_no_member {A : Type} (l : list A) : (forall a, ~ In a l) -> l = [].
Proof. destruct l as [|a l]; [reflexivity|]. intros H. destruct (H a). now left. Qed.

(** When the compared extent of the retained image already holds the new
    cells, no pre-edit is active and no row of the extent is double height,
    no row is flagged: the region consists of the clearing rectangles. *)
Lemma diffImage_quiet `{HeaderConstants} (d : TerminalDisplay) (w : ScreenWindow)
    (img : list Character) :
  (forall y x, 0 <= y < linesToUpdate_of d w -> 0 <= x < columnsToUpdate_of d w ->
     cell_at (getImage w) (y * windowColumns w + x) = cell_at img (y * columns d + x)) ->
  m_imPreeditLength (imState d) <= 0 ->
  noDoubleHeight d (linesToUpdate_of d w) ->
  ur_dirtyRegion (diffImage d w img)
  = clearRects d (linesToUpdate_of d w) (columnsToUpdate_of d w).
Proof.
  intros Hsame Him Hdh. rewrite diffImage_region.
  rewrite (nil_of_no_member (flaggedRows (ur_rows (diffImage d w img)))); [reflexivity|].
  intros y Hy. apply diffImage_flaggedRows in Hy. destruct Hy as [Hy [Hrun|Hflag]].
  - destruct Hrun as [_ (x & Hx & Hdirty & _)].
    unfold rowDirtyMask in Hdirty. apply dirtyMask_at_spec in Hdirty.
    destruct Hdirty as (c & Hc & Htest & _).
    apply cellDirty_true in Htest. destruct Htest as [Hdiff|Hspan].
    + apply Hdiff. unfold newLine_of, currentLine_of. now apply Hsame.
    + rewrite inPreeditSpan_inactive in Hspan by assumption. discriminate.
  - rewrite (Hdh y Hy) in Hflag. discriminate.
Qed.

Lemma clearRects_none (d : TerminalDisplay) (linesToUpdate columnsToUpdate : Z) :
  usedLines d <= linesToUpdate -> usedColumns d <= columnsToUpdate ->
  clearRects d linesToUpdate columnsToUpdate = [].
Proof.
  intros Hl Hc. unfold clearRects.
  replace (linesToUpdate <? usedLines d) with false by (symmetry; apply Z.ltb_ge; lia).
  replace (columnsToUpdate <? usedColumns d) with false
    by (symmetry; apply Z.ltb_ge; lia).
  reflexivity.
Qed.

(** C5 (as the code has it).  When the window's grid equals the retained
    image, no scroll is pending, no input-method pre-edit is active and no
    row carries the double-height flag, [updateImage] hands over an empty
    region. *)
Theorem C5_equal_grids_give_empty_region :
  forall (HC : HeaderConstants) (d : TerminalDisplay) (w : ScreenWindow)
         (img : list Character),
    wellFormed d ->
    image d = Some img ->
    sameGrid d img w ->
    scrollCount w = 0 ->
    m_imPreeditLength (imState d) <= 0 ->
    noDoubleHeight d (lines d) ->
    exists res,
      updateImage d w = Some res /\
      ur_dirtyRegion res = [] /\
      QRegion_isEmpty (ur_dirtyRegion res) = true.
Proof.
  intros HC d w img Hwf Himg (Hwl & Hwc & Hcells) Hscroll Him Hdh.
  pose proof Hwf as (Hl & Hc & Hul & Huc & _).
  exists (diffImage d (resetScrollCount w) img).
  split; [now apply updateImage_no_scroll|].
  assert (Hlt : linesToUpdate_of d (resetScrollCount w) = lines d).
  { unfold linesToUpdate_of. cbn. lia. }
  assert (Hct : columnsToUpdate_of d (resetScrollCount w) = columns d).
  { unfold columnsToUpdate_of. cbn. lia. }
  assert (Hreg : ur_dirtyRegion (diffImage d (resetScrollCount w) img) = []).
  { rewrite diffImage_quiet.
    - rewrite Hlt, Hct. apply clearRects_none; lia.
    - intros y x Hy Hx. rewrite Hlt in Hy. rewrite Hct in Hx. cbn.
      rewrite (Hcells y x Hy Hx). reflexivity.
    - assumption.
    - now rewrite Hlt. }
  rewrite Hreg. split; reflexivity.
Qed.

(** C6 (as the code has it).  [updateImage] succeeds twice in a row on a
    well-formed display, and when no input-method pre-edit is active and no
    row of the compared extent carries the double-height flag, the second
    run hands over an empty region: the first run has copied the new cells
    over the compared extent and recorded that extent as the used one. *)
Theorem C6_second_run_gives_empty_region :
  forall (HC : HeaderConstants) (d : TerminalDisplay) (w : ScreenWindow),
    wellFormed d ->
    exists r1 r2,
      updateImage d w = Some r1 /\
      updateImage (ur_display r1) (ur_window r1) = Some r2 /\
      (m_imPreeditLength (imState d) <= 0 ->
       noDoubleHeight d (usedLines (ur_display r1)) ->
       ur_dirtyRegion r2 = [] /\ QRegion_isEmpty (ur_dirtyRegion r2) = true).
Proof.
  intros HC d w Hwf.
  destruct (updateImage_spec d w Hwf)
    as (d2 & img2 & Hup & Himg2 & Hwf2 & Hlp & Him & _ & _ & _).
  set (w1 := resetScrollCount w) in *.
  set (r1 := diffImage d2 w1 img2) in *.
  destruct (diffImage_fields d2 w1 img2)
    as (Hsz & Hl & Hc & Hul & Huc & Hlp1 & Him1 & _ & _ & _ & _ & Hw).
  fold r1 in Hsz, Hl, Hc, Hul, Huc, Hlp1, Him1, Hw.
  destruct (diffImage_loop d2 w1 img2) as (st & Hinv & Himg1 & _).
  fold r1 in Himg1. destruct Hinv as (Hlen & _).
  pose proof Hwf2 as (Hl2 & Hc2 & Hul2 & Huc2 & Hwimg2). rewrite Himg2 in Hwimg2.
  destruct Hwimg2 as [Hsize2 Hlen2].
  assert (Hlt : linesToUpdate_of (ur_display r1) w1 = linesToUpdate_of d2 w1).
  { unfold linesToUpdate_of. now rewrite Hl. }
  assert (Hct : columnsToUpdate_of (ur_display r1) w1 = columnsToUpdate_of d2 w1).
  { unfold columnsToUpdate_of. now rewrite Hc. }
  assert (Hwf1 : wellFormed (ur_display r1)).
  { unfold wellFormed. rewrite Hl, Hc, Hul, Huc, Himg1, Hsz, Hlen.
    unfold linesToUpdate_of, columnsToUpdate_of. repeat split; try lia. }
  exists r1, (diffImage (ur_display r1) w1 (ds_image st)).
  split; [assumption|]. split.
  { rewrite Hw. apply updateImage_no_scroll; [assumption | assumption | reflexivity]. }
  intros Hpre Hdh.
  assert (Hreg : ur_dirtyRegion (diffImage (ur_display r1) w1 (ds_image st)) = []).
  { rewrite diffImage_quiet.
    - apply clearRects_none; rewrite ?Hul, ?Huc, ?Hlt, ?Hct; lia.
    - intros y x Hy Hx. rewrite Hlt in Hy. rewrite Hct in Hx. rewrite Hc.
      pose proof (columnsToUpdate_le_columns d2 w1) as Hle.
      assert (Hlines : linesToUpdate_of d2 w1 <= lines d2)
        by (unfold linesToUpdate_of; lia).
      destruct (diffImage_cells d2 w1 img2 (ds_image st) y x Himg1) as [_ Hcell];
        [lia | lia |].
      rewrite Hcell.
      replace (y <? linesToUpdate_of d2 w1) with true
        by (symmetry; apply Z.ltb_lt; lia).
      replace (x <? columnsToUpdate_of d2 w1) with true
        by (symmetry; apply Z.ltb_lt; lia).
      replace (y * columns d2 + x <? Z.of_nat (length img2)) with true
        by (symmetry; apply Z.ltb_lt; nia).
      reflexivity.
    - rewrite Him1, Him. assumption.
    - intros y Hy. unfold noDoubleHeight in Hdh. rewrite Hlp1, Hlp.
      apply Hdh. rewrite Hul. rewrite Hlt in Hy. exact Hy. }
  rewrite Hreg. split; reflexivity.
Qed.



(* ------------------------------------------------------------------ *)
(** ** The extra cell behind the image *)

Section Sentinel.
Context {HC : HeaderConstants}.

Lemma makeImage_some_extent (d d1 : TerminalDisplay) :
  makeImage d = Some d1 ->
  isFixedSize d = false \/
  (0 < lines d /\ 0 < columns d /\
   usedLines d <= lines d /\ usedColumns d <= columns d).
Proof.
  unfold makeImage. destruct (isFixedSize d) eqn:Efix; [|now left].
  intros Hmk. right.
  destruct ((0 <? lines (calcGeometry d)) && (0 <? columns (calcGeometry d))
            && (usedLines (calcGeometry d) <=? lines (calcGeometry d))
            && (usedColumns (calcGeometry d) <=? columns (calcGeometry d))) eqn:E;
    [|discriminate].
  unfold calcGeometry in E. cbn in E. rewrite Efix in E.
  rewrite !andb_true_iff, !Z.ltb_lt, !Z.leb_le in E. tauto.
Qed.

Lemma makeImage_sentinelBlank (d d1 : TerminalDisplay) :
  makeImage d = Some d1 -> sentinelBlank d1.
Proof.
  intros Hmk.
  destruct (makeImage_spec d (makeImage_some_extent d d1 Hmk))
    as (d1' & img & Hmk' & Himg & Hsize & Hlen & Hblank & Hl & Hc & Hul & Huc & _).
  rewrite Hmk in Hmk'. injection Hmk' as <-.
  split.
  - unfold wellFormed. rewrite Himg. auto 10.
  - exists img. split; [assumption|]. apply Hblank. nia.
Qed.

Lemma updateImageSize_sentinelBlank (d d' : TerminalDisplay) :
  updateImageSize d = Some d' -> sentinelBlank d'.
Proof.
  intros Hup.
  assert (Hext : isFixedSize d = false \/
                 (0 < lines d /\ 0 < columns d /\
                  usedLines d <= lines d /\ usedColumns d <= columns d)).
  { unfold updateImageSize in Hup. destruct (makeImage d) as [d1|] eqn:Emk;
      [|discriminate]. exact (makeImage_some_extent d d1 Emk). }
  destruct (updateImageSize_spec d Hext)
    as (d2 & img & Hup' & Himg & Hsize & Hlen & Hl & Hc & Hul & Huc & _ & _ & _ & _
        & _ & _ & _ & Hsent & _).
  rewrite Hup in Hup'. injection Hup' as <-.
  split.
  - unfold wellFormed. rewrite Himg. auto 10.
  - exists img. split; assumption.
Qed.

Lemma diffImage_sentinelBlank (d : TerminalDisplay) (w : ScreenWindow)
    (img : list Character) :
  wellFormed d -> image d = Some img ->
  cell_at img (image_size d) = blankCharacter ->
  sentinelBlank (ur_display (diffImage d w img)).
Proof.
  intros Hwf Himg Hsent. pose proof Hwf as (Hl & Hc & Hul & Huc & Hw).
  rewrite Himg in Hw. destruct Hw as [Hsize Hlen].
  destruct (diffImage_fields d w img) as (Esz & El & Ec & Eul & Euc & _).
  destruct (diffImage_loop d w img) as (st & Hinv & Himg' & _).
  destruct Hinv as (Hlen' & Hcells & _).
  split.
  - unfold wellFormed. rewrite Himg', Esz, El, Ec, Eul, Euc, Hlen'.
    unfold linesToUpdate_of, columnsToUpdate_of. repeat split; try lia.
  - exists (ds_image st). split; [assumption|]. rewrite Esz, Hsize.
    replace (lines d * columns d) with (lines d * columns d + 0) by lia.
    rewrite Hcells by lia.
    replace (lines d <? linesToUpdate_of d w) with false
      by (symmetry; apply Z.ltb_ge; unfold linesToUpdate_of; lia).
    cbn [andb]. rewrite Z.add_0_r, <- Hsize. assumption.
Qed.

(** Every display that can arise has its image, with the blank cell in the
    extra position. *)
Lemma reachableDisplay_sentinelBlank (d : TerminalDisplay) :
  reachableDisplay d -> sentinelBlank d.
Proof.
  induction 1 as [d d' Hup | d cols lins d' _ IH Hset | d n d' _ IH Hscr
                  | d w res _ IH Hup | d d' _ IH Hsame].
  - exact (updateImageSize_sentinelBlank d d' Hup).
  - destruct IH as [_ (img & Himg & _)]. unfold setFixedSize in Hset.
    rewrite Himg in Hset. exact (makeImage_sentinelBlank _ d' Hset).
  - destruct IH as [Hwf (img & Himg & Hsent)].
    destruct (scrollImage_spec d n Hwf)
      as (d1 & Hscr' & Hwf1 & _ & _ & _ & _ & Hsz & _ & _ & _ & _ & _ & _ & _ & Him).
    rewrite Hscr in Hscr'. injection Hscr' as <-.
    split; [assumption|]. rewrite Himg in Him.
    destruct (image d') as [img1|]; [|contradiction].
    exists img1. split; [reflexivity|]. destruct Him as [_ Him].
    rewrite Hsz, Him. assumption.
  - destruct IH as [Hwf (img & Himg & Hsent)].
    destruct (updateImage_spec d w Hwf)
      as (d2 & img2 & Hup' & Himg2 & Hwf2 & _ & _ & _ & _ & Hkeep).
    rewrite Hup in Hup'. injection Hup' as ->.
    destruct (Hkeep img Himg) as [Hsz Hcell].
    apply diffImage_sentinelBlank; try assumption.
    rewrite Hsz, Hcell. assumption.
  - destruct IH as [Hwf (img & Himg & Hsent)].
    destruct Hsame as (E1 & E2 & E3 & E4 & E5 & E6).
    split.
    + unfold wellFormed in *. rewrite E1, E2, E3, E4, E5, E6. exact Hwf.
    + exists img. rewrite E1, E2. split; assumption.
Qed.
End Sentinel.

(** X27.  [makeImage] allocates [lines * columns + 1] cells and
    [clearImage] sets every one of them, the extra cell [image[image_size]]
    included, to the blank cell.  In every display that can arise, the
    double-width probe [image[qMin(loc(x,y)+1, image_size)]] of
    [paintContents] reads inside the allocation for every column [x >= 0]
    and row [y >= 0]; the extra cell still holds the blank cell, whose code
    point is the space, so the probe of the last cell of the grid reads a
    code point other than 0 and the last cell is not taken for the first
    half of a double-width glyph. *)
Lemma probe_reads_inside_on_the_grid :
  forall (HC : HeaderConstants) (d : TerminalDisplay),
    reachableDisplay d ->
    (forall d0 d1, makeImage d0 = Some d1 ->
       exists img1,
         image d1 = Some img1 /\
         image_size d1 = lines d1 * columns d1 /\
         Z.of_nat (length img1) = lines d1 * columns d1 + 1 /\
         forall i, 0 <= i <= image_size d1 -> cell_at img1 i = blankCharacter) /\
    exists img,
      image d = Some img /\
      image_size d = lines d * columns d /\
      Z.of_nat (length img) = lines d * columns d + 1 /\
      (forall x y, 0 <= x -> 0 <= y ->
         0 <= probeIndex d x y < Z.of_nat (length img)) /\
      cell_at img (image_size d) = blankCharacter /\
      character blankCharacter = 32 /\
      probeIndex d (columns d - 1) (lines d - 1) = image_size d /\
      paintContents_doubleWidth d img (columns d - 1) (lines d - 1) = false.
Proof.
  intros HC d Hreach. split.
  - intros d0 d1 Hmk.
    destruct (makeImage_spec d0 (makeImage_some_extent d0 d1 Hmk))
      as (d1' & img & Hmk' & Himg & Hsize & Hlen & Hblank & _).
    rewrite Hmk in Hmk'. injection Hmk' as <-.
    exists img. split; [assumption|]. split; [assumption|]. split; [lia|]. assumption.
  - destruct (reachableDisplay_sentinelBlank d Hreach)
      as [(Hl & Hc & _ & _ & Hw) (img & Himg & Hsent)].
    rewrite Himg in Hw. destruct Hw as [Hsize Hlen].
    exists img. split; [assumption|]. split; [assumption|]. split; [lia|].
    assert (Hlast : probeIndex d (columns d - 1) (lines d - 1) = image_size d).
    { unfold probeIndex, loc. nia. }
    split; [|split; [assumption | split; [reflexivity | split; [assumption|]]]].
    + intros x y Hx Hy. unfold probeIndex, loc. nia.
    + unfold paintContents_doubleWidth. rewrite Hlast, Hsent. reflexivity.
Qed.

(* ------------------------------------------------------------------ *)
(** ** The line store *)

Module HistoryFacts.
Import History.

Lemma addCellsAll_index (chunks : list (list Character * Z)) :
  forall h, _index (addCellsAll h chunks) = _index h.
Proof.
  unfold addCellsAll. induction chunks as [|tc chunks IH]; intros h; cbn;
    [reflexivity|]. now rewrite IH.
Qed.

Lemma addCellsAll_cells (chunks : list (list Character * Z)) :
  forall h, _cells (addCellsAll h chunks) = _cells h ++ written chunks.
Proof.
  unfold addCellsAll, written. induction chunks as [|tc chunks IH]; intros h; cbn.
  - now rewrite app_nil_r.
  - rewrite IH. cbn. now rewrite app_assoc.
Qed.

(** In every store that can arise the index array is not empty and its last
    boundary lies inside the cell array. *)
Lemma reachable_index (h : HistoryScrollFile) :
  reachable h ->
  _index h <> [] /\ 0 <= last (_index h) 0 <= Z.of_nat (length (_cells h)).
Proof.
  induction 1 as [|h text count _ [IH1 IH2]|h wrapped _ [IH1 IH2]]; cbn.
  - split; [discriminate | lia].
  - split; [assumption|]. rewrite length_app. lia.
  - split; [intros E; apply app_eq_nil in E; destruct E; discriminate|].
    rewrite last_last. lia.
Qed.

Lemma get_at_last (l : list Z) :
  l <> [] -> get_at 0 l (Z.of_nat (length l) - 1) = last l 0.
Proof.
  intros Hne. destruct l as [|a l]; [congruence|]. clear Hne.
  unfold get_at. cbn [length].
  replace (Z.of_nat (S (length l)) - 1 <? 0) with false
    by (symmetry; apply Z.ltb_ge; lia).
  replace (Z.to_nat (Z.of_nat (S (length l)) - 1)) with (length l) by lia.
  revert a. induction l as [|b l IH]; intros a; [reflexivity|].
  change (nth (length (b :: l)) (a :: b :: l) 0) with (nth (length l) (b :: l) 0).
  rewrite IH. reflexivity.
Qed.

Lemma get_at_app_left (l1 l2 : list Z) (i : Z) :
  0 <= i < Z.of_nat (length l1) -> get_at 0 (l1 ++ l2) i = get_at 0 l1 i.
Proof.
  intros Hi. unfold get_at. destruct (i <? 0); [reflexivity|].
  apply app_nth1. lia.
Qed.

Lemma get_at_app_end (l : list Z) (v : Z) :
  get_at 0 (l ++ [v]) (Z.of_nat (length l)) = v.
Proof.
  unfold get_at. replace (Z.of_nat (length l) <? 0) with false
    by (symmetry; apply Z.ltb_ge; lia).
  rewrite Nat2Z.id, app_nth2 by lia. now rewrite Nat.sub_diag.
Qed.

(** The line that a run of [addCells] calls and one [addLine] complete. *)
Lemma addLine_completes (h : HistoryScrollFile) (chunks : list (list Character * Z))
    (wrapped : bool) :
  reachable h ->
  let h' := addLine (addCellsAll h chunks) wrapped in
  startOfLine h' (getLines h) = last (_index h) 0 /\
  startOfLine h' (getLines h + 1)
  = Z.of_nat (length (_cells h)) + Z.of_nat (length (written chunks)) /\
  _cells h' = _cells h ++ written chunks /\
  getLines h' = getLines h + 1.
Proof.
  intros Hr. destruct (reachable_index h Hr) as [Hne Hlast]. cbv zeta.
  assert (Hlen : (0 < length (_index h))%nat).
  { destruct (_index h); [congruence | cbn; lia]. }
  unfold startOfLine, getLines, addLine. cbn [_index _cells].
  rewrite addCellsAll_index, addCellsAll_cells.
  split; [|split; [|split]].
  - rewrite get_at_app_left by lia. now apply get_at_last.
  - replace (Z.of_nat (length (_index h)) - 1 + 1) with (Z.of_nat (length (_index h)))
      by lia.
    rewrite get_at_app_end, length_app. lia.
  - reflexivity.
  - rewrite length_app. cbn [length]. lia.
Qed.
End HistoryFacts.

(** C8.  In every line store that can arise, a run of [addCells] calls
    completed by one [addLine] creates line number [getLines] (counted before
    the calls); its length is the number of cells appended since the
    previous [addLine], and [getCells] at column 0 with that length returns
    exactly those cells, in the order written.  When nothing was pending
    before the run, they are the cells of the run itself. *)
Theorem C8_line_round_trip :
  forall (h : History.HistoryScrollFile) (chunks : list (list Character * Z))
         (wrapped : bool),
    History.reachable h ->
    let h' := History.addLine (History.addCellsAll h chunks) wrapped in
    let lineno := History.getLines h in
    let line := History.pending h ++ History.written chunks in
    History.getLines h' = lineno + 1 /\
    History.getLineLen h' lineno = Z.of_nat (length line) /\
    History.getCells h' lineno 0 (History.getLineLen h' lineno) = Some line /\
    (History.lineComplete h -> line = History.written chunks).
Proof.
  intros h chunks wrapped Hr. cbv zeta.
  destruct (HistoryFacts.addLine_completes h chunks wrapped Hr)
    as (Hstart & Hend & Hcells & Hlines).
  destruct (HistoryFacts.reachable_index h Hr) as [Hne Hlast].
  assert (Hge : 0 <= History.getLines h).
  { unfold History.getLines. destruct (History._index h); [congruence|].
    cbn [length]. lia. }
  assert (Hpend : Z.of_nat (length (History.pending h))
                  = Z.of_nat (length (History._cells h)) - last (History._index h) 0).
  { unfold History.pending. rewrite length_skipn. lia. }
  assert (Hlen : History.getLineLen
                   (History.addLine (History.addCellsAll h chunks) wrapped)
                   (History.getLines h)
                 = Z.of_nat (length (History.pending h ++ History.written chunks))).
  { unfold History.getLineLen. rewrite Hstart, Hend, length_app. lia. }
  split; [assumption|]. split; [assumption|]. split.
  - unfold History.getCells. rewrite Hlen, Hlines, Hstart, Hcells.
    replace (0 <=? History.getLines h) with true by (symmetry; apply Z.leb_le; lia).
    replace (History.getLines h <? History.getLines h + 1) with true
      by (symmetry; apply Z.ltb_lt; lia).
    replace (0 <=? 0) with true by reflexivity.
    replace (0 <=? Z.of_nat (length (History.pending h ++ History.written chunks)))
      with true by (symmetry; apply Z.leb_le; lia).
    replace (0 + Z.of_nat (length (History.pending h ++ History.written chunks))
             <=? Z.of_nat (length (History.pending h ++ History.written chunks)))
      with true by (symmetry; apply Z.leb_le; lia).
    cbn [andb]. f_equal. rewrite Nat2Z.id, Z.add_0_r.
    rewrite skipn_app.
    replace (Z.to_nat (last (History._index h) 0%Z) - length (History._cells h))%nat
      with O by lia.
    cbn [skipn]. fold (History.pending h). apply firstn_all.
  - intros Hcomplete. unfold History.pending. rewrite Hcomplete, Nat2Z.id, skipn_all.
    reflexivity.
Qed.

(* ------------------------------------------------------------------ *)
(** ** The claims on concrete displays *)

Lemma wellFormed_exampleDisplay (img : list Character) (l c ul uc : Z) (lp : list Z) :
  0 < l -> 0 < c -> ul <= l -> uc <= c -> Z.of_nat (length img) = l * c + 1 ->
  wellFormed (exampleDisplay img l c ul uc lp).
Proof. intros. unfold wellFormed. cbn. auto 10. Defined.

(** Row 0 of a blank grid of 2 rows by 5 columns becomes [AB CD]: one run
    over the five columns, and one rectangle, that of row 0 across the five
    columns. *)
Example updateImage_AB_CD :
  exists res,
    @updateImage exampleConstants displayTwoByFive windowAB_CD = Some res /\
    ur_dirtyRegion res = [mkQRect 1 1 50 20] /\
    ur_rows res
    = [mkRowReport 0 [mkRun 0 5 [65; 66; 32; 67; 68] false false] true;
       mkRowReport 1 [] false] /\
    image (ur_display res) = Some gridAB_CD.
Proof.
  eexists. split; [vm_compute; reflexivity|].
  split; [reflexivity|]. split; reflexivity.
Qed.

(** In the row [A], wide glyph, [B], the run of the wide glyph spans its two
    columns and its string holds the glyph alone. *)
Lemma C2_witness_wide_glyph :
  In wideRun
     (rs_runs (@scanOfRow exampleConstants wideDisplay wideNew 4 4 0 wideOld
                          false false false)) /\
  1 <= run_len wideRun <= 4 - run_x wideRun /\
  run_str wideRun
  = nonzeroCodePoints (newLine_of wideNew 4 0) (run_x wideRun)
                      (Z.to_nat (run_len wideRun)).
Proof.
  assert (Hin : In wideRun
                  (rs_runs (@scanOfRow exampleConstants wideDisplay wideNew 4 4 0
                                       wideOld false false false))).
  { vm_compute. right. left. reflexivity. }
  split; [exact Hin|].
  destruct (C2_run_extends_while_cells_agree exampleConstants wideDisplay wideNew
              wideOld 4 4 0 false false false wideRun Hin)
    as (_ & _ & _ & Hlen & _ & _ & Hstr).
  split; [exact Hlen | exact Hstr].
Defined.


(** With the double-height flag on rows 0 and 1, the row loop still visits
    row 1 and copies it: nothing is skipped. *)
Lemma updateImage_visits_row_below_double_height :
  @isDoubleHeight exampleConstants (lineProperties displayTwoRows_doubleHeight) 0 = true /\
  exists res,
    @updateImage exampleConstants displayTwoRows_doubleHeight windowAA = Some res /\
    In 1 (map row_y (ur_rows res)) /\
    ~ @skipsBottomHalves exampleConstants displayTwoRows_doubleHeight res /\
    cell_at gridBlank (loc displayTwoRows_doubleHeight 0 1) = plainCell 32 /\
    exists img', image (ur_display res) = Some img' /\
                 cell_at img' (loc displayTwoRows_doubleHeight 0 1) = plainCell 65.
Proof.
  split; [reflexivity|].
  eexists. split; [vm_compute; reflexivity|].
  split; [cbn; right; left; reflexivity|]. split.
  - intros Hskip. apply (Hskip 0); [reflexivity|]. cbn. right. left. reflexivity.
  - split; [reflexivity|]. eexists. split; reflexivity.
Qed.

(** With two rows in use and a window of one row that holds what the display
    holds, no row is flagged, yet the region holds the rectangle that clears
    row 1. *)
Lemma C4_counterexample_region_holds_clear_rect :
  exists res,
    @updateImage exampleConstants displayTwoRows windowOneRow = Some res /\
    flaggedRows (ur_rows res) = [] /\
    ur_dirtyRegion res = [mkQRect 1 21 20 20] /\
    QRegion_contains (ur_dirtyRegion res) 1 21 = true /\
    ~ regionIsRowRects displayTwoRows 2 res.
Proof.
  eexists. split; [vm_compute; reflexivity|].
  split; [reflexivity|]. split; [reflexivity|]. split; [reflexivity|].
  intros Hunion. destruct (proj1 (Hunion 1 21)) as (y & Hy & _); [reflexivity|].
  destruct Hy.
Qed.

Lemma sameGrid_displayAB (lp : list Z) : sameGrid (exampleDisplay rowAB 1 2 1 2 lp) rowAB windowAB.
Proof.
  split; [reflexivity|]. split; [reflexivity|].
  intros y x Hy Hx. cbn in Hy, Hx.
  assert (y = 0) by lia. assert (x = 0 \/ x = 1) as [Hx0|Hx1] by lia; subst; reflexivity.
Defined.

Lemma noDoubleHeight_unflagged `{HeaderConstants} (img : list Character)
    (l c ul uc n : Z) :
  noDoubleHeight (exampleDisplay img l c ul uc [0]) n.
Proof.
  intros y Hy. unfold isDoubleHeight. cbn [lineProperties exampleDisplay length].
  destruct (y <? Z.of_nat 1) eqn:E; [|reflexivity].
  apply Z.ltb_lt in E. assert (y = 0) by lia. subst. reflexivity.
Defined.

(** The window shows what the display holds, the row is double height: the
    region is not empty. *)
Lemma C5_counterexample_double_height_row :
  wellFormed displayAB_doubleHeight /\
  image displayAB_doubleHeight = Some rowAB /\
  sameGrid displayAB_doubleHeight rowAB windowAB /\
  scrollCount windowAB = 0 /\
  m_imPreeditLength (imState displayAB_doubleHeight) <= 0 /\
  exists res,
    @updateImage exampleConstants displayAB_doubleHeight windowAB = Some res /\
    ur_dirtyRegion res = [mkQRect 1 1 20 20] /\
    QRegion_isEmpty (ur_dirtyRegion res) = false /\
    QRegion_contains (ur_dirtyRegion res) 1 1 = true.
Proof.
  split; [apply wellFormed_exampleDisplay; cbn; lia|].
  split; [reflexivity|]. split; [apply sameGrid_displayAB|].
  split; [reflexivity|]. split; [cbn; lia|].
  eexists. split; [vm_compute; reflexivity|].
  split; [reflexivity|]. split; reflexivity.
Qed.

(** The window shows what the display holds and no row is double height:
    the region is empty. *)
Lemma C5_witness_same_row :
  sameGrid displayAB rowAB windowAB /\
  exists res,
    @updateImage exampleConstants displayAB windowAB = Some res /\
    ur_dirtyRegion res = [] /\
    QRegion_isEmpty (ur_dirtyRegion res) = true.
Proof.
  split; [apply sameGrid_displayAB|].
  apply (C5_equal_grids_give_empty_region exampleConstants displayAB windowAB rowAB).
  - apply wellFormed_exampleDisplay; cbn; lia.
  - reflexivity.
  - apply sameGrid_displayAB.
  - reflexivity.
  - cbn; lia.
  - apply noDoubleHeight_unflagged.
Defined.

(** A blank double-height row and a window showing [AB]: the second run
    still flags the row. *)
Lemma C6_counterexample_double_height_row :
  wellFormed displayBlank_doubleHeight /\
  exists r1 r2,
    @updateImage exampleConstants displayBlank_doubleHeight windowAB = Some r1 /\
    @updateImage exampleConstants (ur_display r1) (ur_window r1) = Some r2 /\
    ur_dirtyRegion r2 = [mkQRect 1 1 20 20] /\
    QRegion_isEmpty (ur_dirtyRegion r2) = false.
Proof.
  split; [apply wellFormed_exampleDisplay; cbn; lia|].
  eexists. eexists. split; [vm_compute; reflexivity|].
  split; [vm_compute; reflexivity|]. split; reflexivity.
Qed.

(** A blank row and a window showing [AB]: the second run finds nothing. *)
Lemma C6_witness_second_run :
  wellFormed displayBlank /\
  exists r1 r2,
    @updateImage exampleConstants displayBlank windowAB = Some r1 /\
    @updateImage exampleConstants (ur_display r1) (ur_window r1) = Some r2 /\
    ur_dirtyRegion r2 = [].
Proof.
  assert (Hwf : wellFormed displayBlank)
    by (apply wellFormed_exampleDisplay; cbn; lia).
  split; [exact Hwf|].
  destruct (C6_second_run_gives_empty_region exampleConstants displayBlank windowAB Hwf)
    as (r1 & r2 & H1 & H2 & H3).
  exists r1, r2. split; [exact H1|]. split; [exact H2|].
  apply H3.
  - cbn; lia.
  - apply noDoubleHeight_unflagged.
Defined.

(** One row of three columns becomes two rows of two columns. *)
Lemma updateImageSize_on_displayABC :
  wellFormed displayABC /\
  exists d' img',
    @updateImageSize exampleConstants displayABC = Some d' /\
    image d' = Some img' /\
    Z.of_nat (length img') = lines d' * columns d' + 1.
Proof.
  assert (Hwf : wellFormed displayABC).
  { unfold wellFormed. cbn. repeat split; try lia. }
  split; [exact Hwf|].
  destruct (updateImageSize_keeps_overlap_and_blanks_the_rest exampleConstants displayABC Hwf)
    as (d' & img' & H1 & H2 & H3 & _).
  exists d', img'. split; [exact H1|]. split; [exact H2 | exact H3].
Defined.

(** The line [ABC], written by two calls of [addCells], reads back. *)
Lemma C8_witness_line_ABC :
  History.reachable History.empty /\
  History.getCells
    (History.addLine (History.addCellsAll History.empty chunksABC) false) 0 0 3
  = Some [plainCell 65; plainCell 66; plainCell 67].
Proof.
  split; [constructor|].
  exact (proj1 (proj2 (proj2
           (C8_line_round_trip History.empty chunksABC false History.reach_empty)))).
Defined.


(** The display as first allocated from the fresh one. *)
Lemma probe_on_the_first_image :
  exists d,
    @updateImageSize exampleConstants freshDisplay = Some d /\
    @reachableDisplay exampleConstants d /\
    exists img,
      image d = Some img /\
      cell_at img (image_size d) = @blankCharacter exampleConstants /\
      paintContents_doubleWidth d img (columns d - 1) (lines d - 1) = false.
Proof.
  eexists. split; [vm_compute; reflexivity|].
  match goal with
  | |- reachableDisplay ?d /\ _ =>
      assert (Hreach : @reachableDisplay exampleConstants d)
        by (apply (@reach_updateImageSize exampleConstants freshDisplay);
            vm_compute; reflexivity)
  end.
  split; [exact Hreach|].
  destruct (probe_reads_inside_on_the_grid exampleConstants _ Hreach)
    as (_ & img & H1 & _ & _ & _ & H5 & _ & _ & H8).
  exists img. split; [exact H1|]. split; [exact H5 | exact H8].
Defined.

(* ================================================================== *)
(** * Further properties of the code *)

(* ------------------------------------------------------------------ *)
(** ** The history of terminal displays *)

Module ViewManagerFacts.
Import ViewManager.

Lemma removeFirst_found (td : DisplayId) (l : list DisplayId) :
  In td l ->
  exists l1 l2, l = l1 ++ td :: l2 /\ ~ In td l1 /\ removeFirst td l = Some (l1 ++ l2).
Proof.
  induction l as [|a l IH]; intros Hin; [destruct Hin|]. cbn [removeFirst].
  destruct (Nat.eqb a td) eqn:E.
  - apply Nat.eqb_eq in E. subst a. exists [], l. cbn. auto.
  - apply Nat.eqb_neq in E. destruct Hin as [Heq|Hin]; [congruence|].
    destruct (IH Hin) as (l1 & l2 & Hl & Hnot & Hrem).
    exists (a :: l1), l2. rewrite Hrem, Hl. cbn. repeat split; try reflexivity.
    intros [Ha|Hl1]; [congruence | contradiction].
Qed.

Lemma removeFirst_absent (td : DisplayId) (l : list DisplayId) :
  ~ In td l -> removeFirst td l = None.
Proof.
  induction l as [|a l IH]; intros Hnot; [reflexivity|]. cbn [removeFirst].
  destruct (Nat.eqb a td) eqn:E.
  - apply Nat.eqb_eq in E. subst a. destruct Hnot. now left.
  - rewrite IH; [reflexivity|]. intros Hin. apply Hnot. now right.
Qed.

Lemma at_index_in_range (h : History) (i : Z) :
  0 <= i < count h -> exists td, at_index h i = Some td /\ In td (_terminalDisplayHistory h).
Proof.
  intros Hi. unfold at_index, count in *.
  replace (i <? 0) with false by (symmetry; apply Z.ltb_ge; lia).
  destruct (nth_error (_terminalDisplayHistory h) (Z.to_nat i)) as [td|] eqn:E.
  - exists td. split; [reflexivity|]. eapply nth_error_In. exact E.
  - apply nth_error_None in E. lia.
Qed.

Lemma at_index_out_of_range (h : History) (i : Z) :
  i < 0 \/ count h <= i -> at_index h i = None.
Proof.
  intros Hi. unfold at_index, count in *. destruct (i <? 0) eqn:E; [reflexivity|].
  apply Z.ltb_ge in E. apply nth_error_None. lia.
Qed.
End ViewManagerFacts.

(** X1.  Outside a walk through the history, reporting a display that is in
    the history moves its first entry to the front and keeps the order of
    all other entries; the walking index stays as it is.  A display that is
    not in the history is not added. *)
Theorem X1_activated_display_moves_to_front :
  forall (h : ViewManager.History) (td : ViewManager.DisplayId),
    ViewManager._terminalDisplayHistoryIndex h < 0 ->
    (In td (ViewManager._terminalDisplayHistory h) ->
     exists l1 l2,
       ViewManager._terminalDisplayHistory h = l1 ++ td :: l2 /\
       ~ In td l1 /\
       ViewManager.updateTerminalDisplayHistory h (Some td) false
       = Some (ViewManager.mkHistory (td :: l1 ++ l2)
                 (ViewManager._terminalDisplayHistoryIndex h))) /\
    (~ In td (ViewManager._terminalDisplayHistory h) ->
     ViewManager.updateTerminalDisplayHistory h (Some td) false = Some h).
Proof.
  intros h td Hidx.
  unfold ViewManager.updateTerminalDisplayHistory, ViewManager.reorder.
  replace (0 <=? ViewManager._terminalDisplayHistoryIndex h) with false
    by (symmetry; apply Z.leb_gt; lia).
  cbn [andb]. split.
  - intros Hin.
    destruct (ViewManagerFacts.removeFirst_found td _ Hin) as (l1 & l2 & Hl & Hnot & Hrem).
    exists l1, l2. rewrite Hrem. auto.
  - intros Hnot. now rewrite ViewManagerFacts.removeFirst_absent.
Qed.

(** X2.  Removing a display takes its first entry out of the history and
    keeps the order of the others, whether or not the user is walking
    through the history; the walking index is not adjusted.  When the
    history holds no display twice, the display is gone afterwards. *)
Theorem X2_removed_display_leaves_history :
  forall (h : ViewManager.History) (td : ViewManager.DisplayId),
    In td (ViewManager._terminalDisplayHistory h) ->
    exists l1 l2,
      ViewManager._terminalDisplayHistory h = l1 ++ td :: l2 /\
      ~ In td l1 /\
      ViewManager.updateTerminalDisplayHistory h (Some td) true
      = Some (ViewManager.mkHistory (l1 ++ l2)
                (ViewManager._terminalDisplayHistoryIndex h)) /\
      (NoDup (ViewManager._terminalDisplayHistory h) -> ~ In td (l1 ++ l2)).
Proof.
  intros h td Hin.
  destruct (ViewManagerFacts.removeFirst_found td _ Hin) as (l1 & l2 & Hl & Hnot & Hrem).
  exists l1, l2. split; [assumption|]. split; [assumption|]. split.
  - unfold ViewManager.updateTerminalDisplayHistory, ViewManager.reorder.
    rewrite andb_false_r, Hrem. reflexivity.
  - intros Hnd. rewrite Hl in Hnd. apply NoDup_remove_2 in Hnd. exact Hnd.
Qed.

(** X3.  During a walk through the history (index at least 0) a reported
    display changes nothing.  When the walk ends ([nullptr] is reported) and
    the index is inside the list, the index goes back to -1 and the display
    at that index moves to the front; when the index is beyond the list the
    read fails; and without a walk, [nullptr] changes nothing. *)
Theorem X3_walk_freezes_history_and_its_end_moves_current_to_front :
  forall (h : ViewManager.History),
    (forall td, 0 <= ViewManager._terminalDisplayHistoryIndex h ->
       ViewManager.updateTerminalDisplayHistory h (Some td) false = Some h) /\
    (0 <= ViewManager._terminalDisplayHistoryIndex h < ViewManager.count h ->
     exists td l1 l2,
       ViewManager.at_index h (ViewManager._terminalDisplayHistoryIndex h) = Some td /\
       ViewManager._terminalDisplayHistory h = l1 ++ td :: l2 /\
       ~ In td l1 /\
       ViewManager.updateTerminalDisplayHistory h None false
       = Some (ViewManager.mkHistory (td :: l1 ++ l2) (-1))) /\
    (ViewManager.count h <= ViewManager._terminalDisplayHistoryIndex h ->
     forall remove, ViewManager.updateTerminalDisplayHistory h None remove = None) /\
    (ViewManager._terminalDisplayHistoryIndex h < 0 ->
     forall remove, ViewManager.updateTerminalDisplayHistory h None remove = Some h).
Proof.
  intros h. split; [|split; [|split]].
  - intros td Hidx. unfold ViewManager.updateTerminalDisplayHistory, ViewManager.reorder.
    replace (0 <=? ViewManager._terminalDisplayHistoryIndex h) with true
      by (symmetry; apply Z.leb_le; lia).
    reflexivity.
  - intros Hidx.
    destruct (ViewManagerFacts.at_index_in_range h _ Hidx) as (td & Hat & Hin).
    destruct (ViewManagerFacts.removeFirst_found td _ Hin) as (l1 & l2 & Hl & Hnot & Hrem).
    exists td, l1, l2. split; [assumption|]. split; [assumption|]. split; [assumption|].
    unfold ViewManager.updateTerminalDisplayHistory, ViewManager.reorder.
    replace (0 <=? ViewManager._terminalDisplayHistoryIndex h) with true
      by (symmetry; apply Z.leb_le; lia).
    rewrite Hat. cbn. rewrite Hrem. reflexivity.
  - intros Hidx remove. unfold ViewManager.updateTerminalDisplayHistory.
    pose proof (Zle_0_nat (length (ViewManager._terminalDisplayHistory h))) as Hc.
    unfold ViewManager.count in Hidx.
    replace (0 <=? ViewManager._terminalDisplayHistoryIndex h) with true
      by (symmetry; apply Z.leb_le; lia).
    rewrite ViewManagerFacts.at_index_out_of_range; [reflexivity|].
    right. unfold ViewManager.count. lia.
  - intros Hidx remove. unfold ViewManager.updateTerminalDisplayHistory.
    replace (0 <=? ViewManager._terminalDisplayHistoryIndex h) with false
      by (symmetry; apply Z.leb_gt; lia).
    reflexivity.
Qed.

(** X4.  With at least two displays in the history and the index at -1 or
    inside the list, [activateLastUsedView] succeeds, leaves the list as it
    is and switches to the display at the new index, which lies inside the
    list: 1 (forward) or the last position (reverse) when the walk starts,
    and otherwise the next (forward) or previous (reverse) position,
    wrapping round at the ends.  With fewer than two displays it does
    nothing. *)
Theorem X4_activateLastUsedView_steps_round_the_history :
  forall (h : ViewManager.History) (reverse : bool),
    -1 <= ViewManager._terminalDisplayHistoryIndex h < ViewManager.count h ->
    (ViewManager.count h <= 1 ->
     ViewManager.activateLastUsedView h reverse = Some (h, None)) /\
    (2 <= ViewManager.count h ->
     exists i' td,
       ViewManager.activateLastUsedView h reverse
       = Some (ViewManager.mkHistory (ViewManager._terminalDisplayHistory h) i', Some td) /\
       0 <= i' < ViewManager.count h /\
       ViewManager.at_index h i' = Some td /\
       i' = (if ViewManager._terminalDisplayHistoryIndex h =? -1
             then (if reverse then ViewManager.count h - 1 else 1)
             else (ViewManager._terminalDisplayHistoryIndex h
                   + (if reverse then -1 else 1)) mod ViewManager.count h)).
Proof.
  intros h reverse Hidx. split.
  - intros Hc. unfold ViewManager.activateLastUsedView.
    replace (ViewManager.count h <=? 1) with true by (symmetry; apply Z.leb_le; lia).
    reflexivity.
  - intros Hc. unfold ViewManager.activateLastUsedView.
    replace (ViewManager.count h <=? 1) with false by (symmetry; apply Z.leb_gt; lia).
    set (i := ViewManager._terminalDisplayHistoryIndex h) in *.
    set (n := ViewManager.count h) in *.
    set (i' := if i =? -1 then (if reverse then n - 1 else 1)
               else if reverse then (if i =? 0 then n - 1 else i - 1)
               else (if n - 1 <=? i then 0 else i + 1)).
    assert (Hrange : 0 <= i' < n).
    { subst i'. destruct (Z.eqb_spec i (-1)); [destruct reverse; lia|].
      destruct reverse.
      - destruct (Z.eqb_spec i 0); lia.
      - destruct (Z.leb_spec (n - 1) i); lia. }
    assert (Hmod : i' = (if i =? -1 then (if reverse then n - 1 else 1)
                         else (i + (if reverse then -1 else 1)) mod n)).
    { subst i'. destruct (Z.eqb_spec i (-1)); [reflexivity|].
      destruct reverse.
      - destruct (Z.eqb_spec i 0) as [Hz|Hnz].
        + apply (Z.mod_unique_pos _ _ (-1)); lia.
        + apply (Z.mod_unique_pos _ _ 0); lia.
      - destruct (Z.leb_spec (n - 1) i).
        + apply (Z.mod_unique_pos _ _ 1); lia.
        + apply (Z.mod_unique_pos _ _ 0); lia. }
    assert (Hat : exists td,
              ViewManager.at_index
                (ViewManager.mkHistory (ViewManager._terminalDisplayHistory h) i') i'
              = Some td).
    { destruct (ViewManagerFacts.at_index_in_range
                  (ViewManager.mkHistory (ViewManager._terminalDisplayHistory h) i') i')
        as (td & Htd & _); [exact Hrange|]. exists td. exact Htd. }
    destruct Hat as (td & Hat).
    exists i', td. rewrite Hat. split; [reflexivity|]. split; [exact Hrange|].
    split; [exact Hat | exact Hmod].
Qed.

(** A step of [activateLastUsedView] during a walk, by cases. *)
Lemma activateLastUsedView_step (h : ViewManager.History) (reverse : bool) :
  2 <= ViewManager.count h ->
  0 <= ViewManager._terminalDisplayHistoryIndex h < ViewManager.count h ->
  exists i' td,
    ViewManager.activateLastUsedView h reverse
    = Some (ViewManager.mkHistory (ViewManager._terminalDisplayHistory h) i', Some td) /\
    0 <= i' < ViewManager.count h /\
    i' = (if reverse
          then (if ViewManager._terminalDisplayHistoryIndex h =? 0
                then ViewManager.count h - 1
                else ViewManager._terminalDisplayHistoryIndex h - 1)
          else (if ViewManager.count h - 1 <=? ViewManager._terminalDisplayHistoryIndex h
                then 0
                else ViewManager._terminalDisplayHistoryIndex h + 1)).
Proof.
  intros Hc Hidx. unfold ViewManager.activateLastUsedView.
  replace (ViewManager.count h <=? 1) with false by (symmetry; apply Z.leb_gt; lia).
  replace (ViewManager._terminalDisplayHistoryIndex h =? -1) with false
    by (symmetry; apply Z.eqb_neq; lia).
  set (i := ViewManager._terminalDisplayHistoryIndex h) in *.
  set (n := ViewManager.count h) in *.
  set (i' := if reverse then (if i =? 0 then n - 1 else i - 1)
             else (if n - 1 <=? i then 0 else i + 1)).
  assert (Hrange : 0 <= i' < n).
  { subst i'. destruct reverse.
    - destruct (Z.eqb_spec i 0); lia.
    - destruct (Z.leb_spec (n - 1) i); lia. }
  destruct (ViewManagerFacts.at_index_in_range
              (ViewManager.mkHistory (ViewManager._terminalDisplayHistory h) i') i')
    as (td & Htd & _); [exact Hrange|].
  exists i', td. rewrite Htd. split; [reflexivity|]. split; [exact Hrange | reflexivity].
Qed.

(** X5.  In a history of at least two displays whose index is inside the
    list ([0 <= index < count]), a step back undoes a step forward and a
    step forward undoes a step back: the index returns to where it was and
    the display switched to is the one at that index. *)
Theorem X5_step_back_undoes_step_forward :
  forall (h : ViewManager.History) (reverse : bool),
    2 <= ViewManager.count h ->
    0 <= ViewManager._terminalDisplayHistoryIndex h < ViewManager.count h ->
    exists h1 td1 td2,
      ViewManager.activateLastUsedView h reverse = Some (h1, Some td1) /\
      ViewManager.activateLastUsedView h1 (negb reverse) = Some (h, Some td2) /\
      ViewManager.at_index h (ViewManager._terminalDisplayHistoryIndex h) = Some td2.
Proof.
  intros h reverse Hc Hidx.
  destruct (ViewManagerFacts.at_index_in_range h _ Hidx) as (td2 & Hat2 & _).
  destruct (activateLastUsedView_step h reverse Hc Hidx) as (i' & td1 & Hact & Hrange & Hi').
  exists (ViewManager.mkHistory (ViewManager._terminalDisplayHistory h) i'), td1, td2.
  split; [exact Hact|]. split; [|exact Hat2].
  unfold ViewManager.activateLastUsedView.
  change (ViewManager.count
            (ViewManager.mkHistory (ViewManager._terminalDisplayHistory h) i'))
    with (ViewManager.count h).
  replace (ViewManager.count h <=? 1) with false by (symmetry; apply Z.leb_gt; lia).
  cbn [ViewManager._terminalDisplayHistoryIndex ViewManager._terminalDisplayHistory].
  set (i := ViewManager._terminalDisplayHistoryIndex h) in *.
  set (n := ViewManager.count h) in *.
  assert (Hback :
    (if i' =? -1 then (if negb reverse then n - 1 else 1)
     else if negb reverse then (if i' =? 0 then n - 1 else i' - 1)
     else (if n - 1 <=? i' then 0 else i' + 1)) = i).
  { replace (i' =? -1) with false by (symmetry; apply Z.eqb_neq; lia).
    subst i'. destruct reverse; cbn [negb].
    - destruct (Z.eqb_spec i 0).
      + replace (n - 1 <=? n - 1) with true by (symmetry; apply Z.leb_le; lia). lia.
      + replace (n - 1 <=? i - 1) with false by (symmetry; apply Z.leb_gt; lia). lia.
    - destruct (Z.leb_spec (n - 1) i).
      + rewrite Z.eqb_refl. lia.
      + replace (i + 1 =? 0) with false by (symmetry; apply Z.eqb_neq; lia). lia. }
  rewrite Hback.
  change (ViewManager.at_index (ViewManager.mkHistory (ViewManager._terminalDisplayHistory h) i) i)
    with (ViewManager.at_index h i).
  rewrite Hat2. destruct h as [hist idx]. reflexivity.
Qed.

(** X6.  Outside a walk, once display [a] and then another display [b] of
    the history have been reported as active, [b] is the first entry and
    [a] the second, and [toggleTwoViews] switches to [a]. *)
Theorem X6_toggleTwoViews_returns_to_previous_display :
  forall (h : ViewManager.History) (a b : ViewManager.DisplayId),
    ViewManager._terminalDisplayHistoryIndex h < 0 ->
    In a (ViewManager._terminalDisplayHistory h) ->
    In b (ViewManager._terminalDisplayHistory h) ->
    a <> b ->
    exists h1 h2 rest,
      ViewManager.updateTerminalDisplayHistory h (Some a) false = Some h1 /\
      ViewManager.updateTerminalDisplayHistory h1 (Some b) false = Some h2 /\
      ViewManager._terminalDisplayHistory h2 = b :: a :: rest /\
      ViewManager.toggleTwoViews h2 = Some a.
Proof.
  intros h a b Hidx Ha Hb Hab.
  destruct (ViewManagerFacts.removeFirst_found a _ Ha) as (l1 & l2 & Hl & Hnot & Hrem).
  assert (Hb1 : In b (l1 ++ l2)).
  { rewrite Hl in Hb. apply in_app_or in Hb. apply in_or_app.
    destruct Hb as [Hb|[Hb|Hb]]; [now left | congruence | now right]. }
  destruct (ViewManagerFacts.removeFirst_found b _ Hb1) as (m1 & m2 & Hm & Hnotb & Hremb).
  exists (ViewManager.mkHistory (a :: l1 ++ l2) (ViewManager._terminalDisplayHistoryIndex h)),
         (ViewManager.mkHistory (b :: a :: m1 ++ m2)
            (ViewManager._terminalDisplayHistoryIndex h)),
         (m1 ++ m2).
  assert (Hneg : (0 <=? ViewManager._terminalDisplayHistoryIndex h) = false)
    by (apply Z.leb_gt; lia).
  split; [|split; [|split]].
  - unfold ViewManager.updateTerminalDisplayHistory, ViewManager.reorder.
    rewrite Hneg, Hrem. reflexivity.
  - unfold ViewManager.updateTerminalDisplayHistory, ViewManager.reorder.
    cbn [ViewManager._terminalDisplayHistoryIndex ViewManager._terminalDisplayHistory
         ViewManager.removeFirst].
    rewrite Hneg. cbn [andb].
    replace (Nat.eqb a b) with false by (symmetry; apply Nat.eqb_neq; assumption).
    rewrite Hremb. reflexivity.
  - reflexivity.
  - unfold ViewManager.toggleTwoViews, ViewManager.count.
    cbn [ViewManager._terminalDisplayHistory length].
    replace (Z.of_nat (S (S (length (m1 ++ m2)))) <=? 1) with false
      by (symmetry; apply Z.leb_gt; lia).
    reflexivity.
Qed.

(** X7.  In a tab with more than one display, [focusAnotherTerminal] gives
    the focus to the display of the tab that comes first in the history,
    that is the most recently used one, and does nothing when the history
    holds none of the tab's displays.  Otherwise it switches to the first
    entry of the history, whether or not that display is in the tab. *)
Theorem X7_focusAnotherTerminal_picks_most_recently_used :
  forall (h : ViewManager.History) (tab : list ViewManager.DisplayId),
    ((1 < length tab)%nat ->
     (forall td, ViewManager.focusAnotherTerminal h tab = ViewManager.SetFocus td <->
        exists l1 l2,
          ViewManager._terminalDisplayHistory h = l1 ++ td :: l2 /\
          In td tab /\ forall x, In x l1 -> ~ In x tab) /\
     (ViewManager.focusAnotherTerminal h tab = ViewManager.NoFocus <->
      forall x, In x (ViewManager._terminalDisplayHistory h) -> ~ In x tab)) /\
    ((length tab <= 1)%nat ->
     ViewManager.focusAnotherTerminal h tab
     = match ViewManager._terminalDisplayHistory h with
       | first :: _ => ViewManager.SwitchTo first
       | [] => ViewManager.NoFocus
       end).
Proof.
  intros h tab.
  assert (Hmem : forall x,
            existsb (fun terminalDisplay => Nat.eqb terminalDisplay x) tab = true
            <-> In x tab).
  { intros x. rewrite existsb_exists. split.
    - intros (y & Hy & E). apply Nat.eqb_eq in E. now subst.
    - intros Hx. exists x. split; [assumption | apply Nat.eqb_refl]. }
  assert (Hfind : forall l,
            match find (fun historyItem =>
                          existsb (fun terminalDisplay => Nat.eqb terminalDisplay historyItem)
                                  tab) l with
            | Some td => exists l1 l2, l = l1 ++ td :: l2 /\ In td tab
                                       /\ forall x, In x l1 -> ~ In x tab
            | None => forall x, In x l -> ~ In x tab
            end).
  { induction l as [|a l IH]; cbn [find]; [intros x []|].
    destruct (existsb (fun terminalDisplay => Nat.eqb terminalDisplay a) tab) eqn:E.
    - exists [], l. split; [reflexivity|]. split; [now apply Hmem|]. intros x [].
    - destruct (find _ l) as [td|].
      + destruct IH as (l1 & l2 & Hl & Htd & Hbefore).
        exists (a :: l1), l2. split; [now rewrite Hl|]. split; [assumption|].
        intros x [<-|Hx]; [|now apply Hbefore].
        intros Ha. apply Hmem in Ha. congruence.
      + intros x [<-|Hx]; [|now apply IH].
        intros Ha. apply Hmem in Ha. congruence. }
  split.
  - intros Htab. unfold ViewManager.focusAnotherTerminal.
    replace (1 <? length tab)%nat with true by (symmetry; apply Nat.ltb_lt; lia).
    specialize (Hfind (ViewManager._terminalDisplayHistory h)).
    destruct (find (fun historyItem =>
                      existsb (fun terminalDisplay => Nat.eqb terminalDisplay historyItem)
                              tab)
                   (ViewManager._terminalDisplayHistory h)) as [found|].
    + split.
      * intros td. split.
        -- intros [= <-]. exact Hfind.
        -- intros (l1 & l2 & Hl & Htd & Hbefore).
           destruct Hfind as (k1 & k2 & Hk & Hfound & Hkbefore).
           f_equal.
           assert (Hcmp : forall (p1 p2 q1 q2 : list ViewManager.DisplayId) u v,
                     p1 ++ u :: p2 = q1 ++ v :: q2 ->
                     In u tab -> In v tab ->
                     (forall x, In x p1 -> ~ In x tab) ->
                     (forall x, In x q1 -> ~ In x tab) -> u = v).
           { induction p1 as [|p p1 IHp]; intros p2 q1 q2 u v Heq Hu Hv Hp Hq.
             - destruct q1 as [|q q1]; cbn in Heq; injection Heq as Huv _; [assumption|].
               subst q. exfalso. apply (Hq u); [now left | assumption].
             - destruct q1 as [|q q1]; cbn in Heq; injection Heq as Hpq Hrest.
               + subst p. exfalso. apply (Hp v); [now left | assumption].
               + apply (IHp p2 q1 q2 u v Hrest Hu Hv).
                 * intros x Hx. apply Hp. now right.
                 * intros x Hx. apply Hq. now right. }
           apply (Hcmp k1 k2 l1 l2 found td); try assumption.
           transitivity (ViewManager._terminalDisplayHistory h);
             [symmetry; exact Hk | exact Hl].
      * split; [discriminate|]. intros Hnone.
        destruct Hfind as (k1 & k2 & Hk & Hfound & _). exfalso.
        apply (Hnone found); [|assumption]. rewrite Hk. apply in_or_app. right. now left.
    + split.
      * intros td. split; [discriminate|].
        intros (l1 & l2 & Hl & Htd & _). exfalso. apply (Hfind td); [|assumption].
        rewrite Hl. apply in_or_app. right. now left.
      * split; [intros _; exact Hfind | reflexivity].
  - intros Htab. unfold ViewManager.focusAnotherTerminal.
    replace (1 <? length tab)%nat with false by (symmetry; apply Nat.ltb_ge; lia).
    reflexivity.
Qed.

(* ------------------------------------------------------------------ *)
(** ** Line-drawing characters and the background blend *)

Lemma land_high_low (hi lo n : Z) :
  0 <= n -> 0 <= lo < 2 ^ n -> Z.land (hi * 2 ^ n) lo = 0.
Proof.
  intros Hn Hlo. apply Z.bits_inj'. intros m Hm. rewrite Z.land_spec, Z.bits_0.
  destruct (Z_lt_dec m n) as [Hlt|Hge].
  - rewrite Z.mul_pow2_bits_low by lia. reflexivity.
  - destruct (Z.eq_dec lo 0) as [->|Hnz].
    + rewrite Z.bits_0. apply andb_false_r.
    + rewrite (Z.bits_above_log2 lo m); [apply andb_false_r | lia |].
      assert (Z.log2 lo < n) by (apply Z.log2_lt_pow2; lia). lia.
Qed.

(** Bytes packed with shifts and [|] come back with shifts and [& 0xff]. *)
Lemma lor_low_bits (hi lo n : Z) :
  0 <= n -> 0 <= lo < 2 ^ n -> Z.lor (Z.shiftl hi n) lo = hi * 2 ^ n + lo.
Proof.
  intros Hn Hlo. rewrite Z.shiftl_mul_pow2 by lia.
  pose proof (land_high_low hi lo n Hn Hlo) as Hdisj.
  rewrite <- Z.lxor_lor by exact Hdisj.
  symmetry. apply Z.add_nocarry_lxor. exact Hdisj.
Qed.

(** [c & 0xFF80] clears the low seven bits of a 16-bit value. *)
Lemma land_FF80 (c : Z) :
  0 <= c < 65536 -> Z.land c 0xFF80 = c / 128 * 128.
Proof.
  intros Hc.
  pose proof (Z.div_mod c 128 ltac:(lia)) as Hdm.
  pose proof (Z.mod_pos_bound c 128 ltac:(lia)) as Hm.
  assert (Hq : 0 <= c / 128 < 512)
    by (split; [apply Z.div_pos; lia | apply Z.div_lt_upper_bound; lia]).
  assert (Ec : c = Z.lor (Z.shiftl (c / 128) 7) (c mod 128)).
  { rewrite lor_low_bits by (change (2 ^ 7) with 128; lia).
    change (2 ^ 7) with 128. lia. }
  rewrite Ec at 1. change 0xFF80 with (Z.shiftl 511 7).
  rewrite Z.land_lor_distr_l, <- Z.shiftl_land.
  change 511 with (Z.ones 9) at 1. rewrite Z.land_ones by lia.
  rewrite (Z.mod_small (c / 128)) by (change (2 ^ 9) with 512; lia).
  rewrite (Z.land_comm (c mod 128)), (Z.shiftl_mul_pow2 511) by lia.
  rewrite land_high_low by (change (2 ^ 7) with 128; lia).
  rewrite Z.lor_0_r, Z.shiftl_mul_pow2 by lia. reflexivity.
Qed.

(** X8.  A 16-bit code point is a line-drawing character exactly when it
    lies in the block U+2500 .. U+257F. *)
Theorem X8_isLineChar_is_the_box_drawing_block (c : Z) :
  0 <= c < 65536 ->
  (isLineChar c = true <-> 0x2500 <= c <= 0x257F).
Proof.
  intros Hc. unfold isLineChar. rewrite land_FF80 by exact Hc.
  rewrite Z.eqb_eq.
  pose proof (Z.div_mod c 128 ltac:(lia)) as Hdm.
  pose proof (Z.mod_pos_bound c 128 ltac:(lia)) as Hm.
  lia.
Qed.

Lemma byte_of_land (a : Z) : Z.land a 0xff = a mod 256.
Proof. change 0xff with (Z.ones 8). rewrite Z.land_ones by lia. reflexivity. Qed.

Lemma blendChannel_spec (c blend : Z) :
  0 <= c <= 255 -> 0 <= blend <= 255 ->
  blendChannel c blend = Z.quot (c * 192) 255 + Z.quot (blend * 63) 255 /\
  Z.min c blend - 1 <= blendChannel c blend <= Z.max c blend /\
  0 <= blendChannel c blend <= 255.
Proof.
  intros Hc Hb. unfold blendChannel. change (255 - 192) with 63.
  rewrite !Z.quot_div_nonneg by lia.
  pose proof (Z.div_mod (c * 192) 255 ltac:(lia)) as E1.
  pose proof (Z.mod_pos_bound (c * 192) 255 ltac:(lia)) as B1.
  pose proof (Z.div_mod (blend * 63) 255 ltac:(lia)) as E2.
  pose proof (Z.mod_pos_bound (blend * 63) 255 ltac:(lia)) as B2.
  lia.
Qed.

Lemma packed_channels (a r g b : Z) :
  0 <= a <= 255 -> 0 <= r <= 255 -> 0 <= g <= 255 -> 0 <= b <= 255 ->
  let col := Z.lor (Z.lor (Z.lor (Z.shiftl a 24) (Z.shiftl r 16)) (Z.shiftl g 8)) b in
  qAlpha col = a /\ qRed col = r /\ qGreen col = g /\ qBlue col = b /\
  0 <= col < 2 ^ 32.
Proof.
  intros Ha Hr Hg Hb col.
  assert (Ecol : col = a * 2 ^ 24 + r * 2 ^ 16 + g * 2 ^ 8 + b).
  { unfold col.
    replace (Z.shiftl a 24) with (Z.shiftl (Z.shiftl a 8) 16)
      by (rewrite Z.shiftl_shiftl by lia; reflexivity).
    rewrite <- Z.shiftl_lor.
    replace (Z.shiftl (Z.lor (Z.shiftl a 8) r) 16)
      with (Z.shiftl (Z.shiftl (Z.lor (Z.shiftl a 8) r) 8) 8)
      by (rewrite Z.shiftl_shiftl by lia; reflexivity).
    rewrite <- Z.shiftl_lor.
    rewrite (lor_low_bits a r 8) by lia.
    rewrite (lor_low_bits _ g 8) by lia.
    rewrite (lor_low_bits _ b 8) by lia.
    lia. }
  unfold qAlpha, qRed, qGreen, qBlue. rewrite !byte_of_land.
  rewrite !Z.shiftr_div_pow2 by lia. rewrite Ecol.
  change (2 ^ 24) with 16777216. change (2 ^ 16) with 65536.
  change (2 ^ 8) with 256. change (2 ^ 32) with 4294967296.
  repeat split; try lia.
  all: repeat match goal with
       | |- context [?x / ?y] =>
           let q := fresh "q" in
           pose proof (Z.div_mod x y ltac:(lia));
           pose proof (Z.mod_pos_bound x y ltac:(lia));
           set (q := x / y) in *; clearbody q
       | |- context [?x mod ?y] =>
           let q := fresh "m" in
           pose proof (Z.div_mod x y ltac:(lia));
           pose proof (Z.mod_pos_bound x y ltac:(lia));
           set (q := x mod y) in *; clearbody q
       end; lia.
Qed.

Lemma channel_is_a_byte (rgb : Z) :
  (0 <= qAlpha rgb <= 255) /\ (0 <= qRed rgb <= 255) /\
  (0 <= qGreen rgb <= 255) /\ (0 <= qBlue rgb <= 255).
Proof.
  unfold qAlpha, qRed, qGreen, qBlue. rewrite !byte_of_land.
  repeat split;
    match goal with
    | |- context [?x mod 256] => pose proof (Z.mod_pos_bound x 256 ltac:(lia)); lia
    end.
Qed.

(** X9.  Each channel of the colour the background is filled with under
    true transparency is [c*192/255 + blend*63/255] of the two colours'
    channels, unpacks from the packed colour unchanged, and lies between
    the smaller of the two channels less one and the larger. *)
Theorem X9_blend_keeps_each_channel_between_its_inputs (col blend_color : Z) :
  Forall (fun channel : Z -> Z =>
            let c := channel col in
            let blend := channel blend_color in
            let out := channel (blendBackground col blend_color) in
            out = Z.quot (c * 192) 255 + Z.quot (blend * 63) 255 /\
            Z.min c blend - 1 <= out <= Z.max c blend)
         [qAlpha; qRed; qGreen; qBlue].
Proof.
  destruct (channel_is_a_byte col) as (Ha & Hr & Hg & Hb).
  destruct (channel_is_a_byte blend_color) as (Ha' & Hr' & Hg' & Hb').
  destruct (blendChannel_spec _ _ Ha Ha') as (Ea & Ba & Ra).
  destruct (blendChannel_spec _ _ Hr Hr') as (Er & Br & Rr).
  destruct (blendChannel_spec _ _ Hg Hg') as (Eg & Bg & Rg).
  destruct (blendChannel_spec _ _ Hb Hb') as (Eb & Bb & Rb).
  destruct (packed_channels _ _ _ _ Ra Rr Rg Rb) as (Pa & Pr & Pg & Pb & _).
  fold (blendBackground col blend_color) in Pa, Pr, Pg, Pb.
  repeat constructor; cbv zeta;
    rewrite ?Pa, ?Pr, ?Pg, ?Pb, <- ?Ea, <- ?Er, <- ?Eg, <- ?Eb; lia.
Qed.

(* ------------------------------------------------------------------ *)
(** ** The geometry of the grid *)

(** X10.  When the display follows the widget's size, [calcGeometry]
    leaves one column at least, and as many columns as whole characters fit
    into the content width once it holds one character (likewise for the
    lines); the used extent stays inside the grid, and the width left to
    the content is the contents rectangle less the two rims and the scroll
    bar, if it is shown. *)
Theorem X10_calcGeometry_fits_the_grid_into_the_widget (d : TerminalDisplay) :
  isFixedSize d = false ->
  0 < font_w (widget d) -> 0 < font_h (widget d) ->
  let d1 := calcGeometry d in
  let g := widget d in
  contentWidth d1 =
    rw (contentsRect g) - 2 * rimX g
    - match scrollLoc g with SCROLLBAR_NONE => 0 | _ => scrollbarWidth g end /\
  contentHeight d1 = rh (contentsRect g) - 2 * rimY g + 1 /\
  1 <= columns d1 /\ 1 <= lines d1 /\
  (font_w g <= contentWidth d1 ->
   columns d1 * font_w g <= contentWidth d1 < (columns d1 + 1) * font_w g) /\
  (contentWidth d1 < font_w g -> columns d1 = 1) /\
  (font_h g <= contentHeight d1 ->
   lines d1 * font_h g <= contentHeight d1 < (lines d1 + 1) * font_h g) /\
  (contentHeight d1 < font_h g -> lines d1 = 1) /\
  usedColumns d1 = Z.min (usedColumns d) (columns d1) /\
  usedLines d1 = Z.min (usedLines d) (lines d1).
Proof.
  intros Hfix Hw Hh d1 g. subst d1 g.
  unfold calcGeometry.
  cbn [contentWidth contentHeight columns lines usedColumns usedLines widget].
  rewrite Hfix.
  set (cw := match scrollLoc (widget d) with
             | SCROLLBAR_NONE => rw (contentsRect (widget d)) - 2 * rimX (widget d)
             | _ => rw (contentsRect (widget d)) - 2 * rimX (widget d)
                    - scrollbarWidth (widget d)
             end).
  set (ch := rh (contentsRect (widget d)) - 2 * rimY (widget d) + 1).
  assert (Ecw : cw = rw (contentsRect (widget d)) - 2 * rimX (widget d)
                     - match scrollLoc (widget d) with
                       | SCROLLBAR_NONE => 0
                       | _ => scrollbarWidth (widget d)
                       end)
    by (unfold cw; destruct (scrollLoc (widget d)); lia).
  assert (Hquot : forall a b, 0 < b ->
            (b <= a -> 1 <= Z.quot a b /\ Z.quot a b * b <= a < (Z.quot a b + 1) * b)
            /\ (a < b -> Z.quot a b <= 0)).
  { intros a b Hb. split.
    - intros Hab. rewrite Z.quot_div_nonneg by lia.
      pose proof (Z.div_mod a b ltac:(lia)).
      pose proof (Z.mod_pos_bound a b Hb).
      assert (1 <= a / b) by (apply Z.div_le_lower_bound; lia). nia.
    - intros Hab. destruct (Z_lt_dec a 0) as [Hneg|Hnn].
      + pose proof (Z.quot_opp_l a b ltac:(lia)) as Ho.
        assert (0 <= Z.quot (- a) b) by (apply Z.quot_pos; lia). lia.
      + rewrite Z.quot_small by lia. lia. }
  destruct (Hquot cw (font_w (widget d)) Hw) as [Hwfit Hwsmall].
  destruct (Hquot ch (font_h (widget d)) Hh) as [Hhfit Hhsmall].
  split; [exact Ecw|]. split; [reflexivity|].
  split; [lia|]. split; [lia|].
  split; [intros Hge; specialize (Hwfit Hge); rewrite Z.max_r by lia; lia|].
  split; [intros Hlt; specialize (Hwsmall Hlt); lia|].
  split; [intros Hge; specialize (Hhfit Hge); rewrite Z.max_r by lia; lia|].
  split; [intros Hlt; specialize (Hhsmall Hlt); lia|].
  split; reflexivity.
Qed.

(** X11.  [calcGeometry] settles at once: a second call changes nothing,
    whether the size is fixed or follows the widget. *)
Theorem X11_calcGeometry_twice_is_calcGeometry_once (d : TerminalDisplay) :
  calcGeometry (calcGeometry d) = calcGeometry d.
Proof.
  unfold calcGeometry. cbn.
  destruct (isFixedSize d); [reflexivity|].
  f_equal; lia.
Qed.

(** X12.  On a display that holds an image, [setFixedSize] always succeeds:
    the grid has [max 1 lins] lines and [max 1 cols] columns whatever the
    widget measures, the size is marked fixed, the used extent is cut to
    the grid, and the new image holds the blank cell everywhere: what the
    display showed is not carried over. *)
Theorem X12_setFixedSize_gives_a_blank_grid_of_the_given_size
    `{HeaderConstants} (d : TerminalDisplay) (old : list Character) (cols lins : Z) :
  image d = Some old ->
  exists d1 img,
    setFixedSize d cols lins = Some d1 /\
    isFixedSize d1 = true /\
    lines d1 = Z.max 1 lins /\ columns d1 = Z.max 1 cols /\
    usedLines d1 = Z.min (usedLines d) (Z.max 1 lins) /\
    usedColumns d1 = Z.min (usedColumns d) (Z.max 1 cols) /\
    image d1 = Some img /\
    image_size d1 = Z.max 1 lins * Z.max 1 cols /\
    Z.of_nat (length img) = image_size d1 + 1 /\
    forall i, 0 <= i <= image_size d1 -> cell_at img i = blankCharacter.
Proof.
  intros Himg. unfold setFixedSize. rewrite Himg.
  match goal with
  | |- exists d1 img, makeImage ?D = _ /\ _ => set (d0 := D)
  end.
  assert (Hd0 : isFixedSize d0 = false \/
                (0 < lines d0 /\ 0 < columns d0 /\
                 usedLines d0 <= lines d0 /\ usedColumns d0 <= columns d0))
    by (right; unfold d0; cbn; lia).
  assert (Hmk : makeImage d0 =
                Some (with_image (calcGeometry d0) (lines d0 * columns d0)
                        (Some (clearImage (lines d0 * columns d0)
                                 (malloc_cells (lines d0 * columns d0 + 1)))))).
  { unfold makeImage.
    replace (lines (calcGeometry d0)) with (lines d0) by reflexivity.
    replace (columns (calcGeometry d0)) with (columns d0) by reflexivity.
    replace (usedLines (calcGeometry d0)) with (usedLines d0) by reflexivity.
    replace (usedColumns (calcGeometry d0)) with (usedColumns d0) by reflexivity.
    replace (0 <? lines d0) with true by (symmetry; apply Z.ltb_lt; unfold d0; cbn; lia).
    replace (0 <? columns d0) with true by (symmetry; apply Z.ltb_lt; unfold d0; cbn; lia).
    replace (usedLines d0 <=? lines d0) with true
      by (symmetry; apply Z.leb_le; unfold d0; cbn; lia).
    replace (usedColumns d0 <=? columns d0) with true
      by (symmetry; apply Z.leb_le; unfold d0; cbn; lia).
    reflexivity. }
  assert (Hsize : 0 <= lines d0 * columns d0) by (unfold d0; cbn; nia).
  assert (Hlen : Z.of_nat (length (malloc_cells (lines d0 * columns d0 + 1)))
                 = lines d0 * columns d0 + 1)
    by (rewrite malloc_cells_length; lia).
  destruct (clearImage_spec _ _ Hlen) as [Hclen Hblank].
  eexists. eexists. split; [exact Hmk|].
  split; [reflexivity|]. split; [reflexivity|]. split; [reflexivity|].
  split; [reflexivity|]. split; [reflexivity|]. split; [reflexivity|].
  split; [reflexivity|].
  split.
  - cbn [with_image image_size]. rewrite Hclen. exact Hlen.
  - intros i Hi. apply Hblank. exact Hi.
Qed.

(* ------------------------------------------------------------------ *)
(** ** From a point of the widget to a cell, and back *)

(** X13.  Whatever the point, [characterPosition] answers with a line and
    a column of the used extent, as soon as the extent holds one cell and
    the font is one pixel wide and high at least. *)
Theorem X13_characterPosition_stays_in_the_used_extent
    (d : TerminalDisplay) (px py : Z) :
  0 < font_w (widget d) -> 0 < font_h (widget d) ->
  1 <= usedLines d -> 1 <= usedColumns d ->
  let (line, column) := characterPosition d px py in
  0 <= line < usedLines d /\ 0 <= column < usedColumns d.
Proof.
  intros _ _ Hl Hc. unfold characterPosition. cbv zeta.
  repeat match goal with
         | |- context [if ?b then _ else _] => destruct b eqn:?
         end;
  rewrite ?Z.ltb_lt, ?Z.ltb_ge, ?Z.leb_le, ?Z.leb_gt in *; lia.
Qed.

(** X14.  Every point of the rectangle that [updateImage] reports for row
    [y] is mapped back by [characterPosition] to line [y] and to one of the
    compared columns; the point [dx], [dy] pixels into the cell of column
    [x] lies in that rectangle and is mapped to [(y, x)]. *)
Theorem X14_points_of_a_row_rectangle_map_back_to_the_row
    (d : TerminalDisplay) (columnsToUpdate y px py : Z) :
  0 < font_w (widget d) -> 0 < font_h (widget d) ->
  0 <= y < usedLines d -> columnsToUpdate <= usedColumns d ->
  QRect_contains (rowRect d columnsToUpdate y) px py = true ->
  (exists x, 0 <= x < columnsToUpdate /\ characterPosition d px py = (y, x)) /\
  (forall x dx dy,
     0 <= x < columnsToUpdate -> 0 <= dx < font_w (widget d) ->
     0 <= dy < font_h (widget d) ->
     let qx := bX d + tLx d + font_w (widget d) * x + dx in
     let qy := bY d + tLy d + font_h (widget d) * y + dy in
     QRect_contains (rowRect d columnsToUpdate y) qx qy = true /\
     characterPosition d qx qy = (y, x)).
Proof.
  intros Hw Hh Hy Hcu Hin.
  assert (Hcell : forall a b q r, 0 < b -> 0 <= r < b -> 0 <= q ->
                    a = b * q + r -> Z.quot a b = q).
  { intros a b q r Hb Hr Hq ->. rewrite Z.quot_div_nonneg by nia.
    symmetry. apply (Z.div_unique_pos _ _ q r); lia. }
  assert (Hpos : forall qx qy x dx dy,
            0 <= x < usedColumns d -> 0 <= dx < font_w (widget d) ->
            0 <= dy < font_h (widget d) ->
            qx = bX d + tLx d + font_w (widget d) * x + dx ->
            qy = bY d + tLy d + font_h (widget d) * y + dy ->
            characterPosition d qx qy = (y, x)).
  { intros qx qy x dx dy Hx Hdx Hdy Eqx Eqy. unfold characterPosition, tLx, tLy in *.
    cbv zeta.
    rewrite (Hcell (qx - rx (contentsRect (widget d)) - bX d) _ x dx) by lia.
    rewrite (Hcell (qy - ry (contentsRect (widget d)) - bY d) _ y dy) by lia.
    replace (y <? 0) with false by (symmetry; apply Z.ltb_ge; lia).
    replace (x <? 0) with false by (symmetry; apply Z.ltb_ge; lia).
    replace (usedLines d <=? y) with false by (symmetry; apply Z.leb_gt; lia).
    replace (usedColumns d <=? x) with false by (symmetry; apply Z.leb_gt; lia).
    reflexivity. }
  split.
  - unfold QRect_contains, rowRect in Hin. cbn [rx ry rw rh] in Hin.
    rewrite !andb_true_iff, !Z.leb_le, !Z.ltb_lt in Hin.
    destruct Hin as (((Hx0 & Hx1) & Hy0) & Hy1).
    set (ox := px - (bX d + tLx d)) in *.
    pose proof (Z.div_mod ox (font_w (widget d)) ltac:(lia)) as Hdm.
    pose proof (Z.mod_pos_bound ox (font_w (widget d)) Hw) as Hm.
    assert (Hq0 : 0 <= ox / font_w (widget d)) by (apply Z.div_pos; unfold ox; lia).
    assert (Hq1 : ox / font_w (widget d) < columnsToUpdate)
      by (apply Z.div_lt_upper_bound; unfold ox; lia).
    exists (ox / font_w (widget d)). split; [lia|].
    apply (Hpos px py _ (ox mod font_w (widget d))
                (py - (bY d + tLy d + font_h (widget d) * y))); unfold ox in *; lia.
  - intros x dx dy Hx Hdx Hdy qx qy. split.
    + unfold QRect_contains, rowRect. cbn [rx ry rw rh].
      rewrite !andb_true_iff, !Z.leb_le, !Z.ltb_lt. subst qx qy.
      split; [split; [split|]|]; nia.
    + apply (Hpos qx qy x dx dy); subst qx qy; lia.
Qed.

(* ------------------------------------------------------------------ *)
(** ** Drawing the line characters *)

Lemma whenSet_inside (toDraw bit x0 y0 x1 y1 : Z) (p : Primitive) :
  primitiveInside x0 y0 x1 y1 p ->
  Forall (primitiveInside x0 y0 x1 y1) (whenSet toDraw bit p).
Proof.
  intros Hp. unfold whenSet. destruct (Z.land toDraw bit =? 0); repeat constructor.
  exact Hp.
Qed.

(** The strokes and dots of one character stay inside its cell when the
    cell is five pixels wide and high, or more. *)
Lemma drawLineChar_inside (LineChars : Z -> Z) (x y w h code : Z) :
  5 <= w -> 5 <= h ->
  Forall (primitiveInside x y (x + w - 1) (y + h - 1))
         (drawLineChar LineChars x y w h code).
Proof.
  intros Hw Hh. unfold drawLineChar. cbv zeta.
  assert (Hqw : 2 <= Z.quot w 2 /\ Z.quot w 2 + 3 <= w).
  { rewrite Z.quot_div_nonneg by lia.
    pose proof (Z.div_mod w 2 ltac:(lia)). pose proof (Z.mod_pos_bound w 2 ltac:(lia)).
    lia. }
  assert (Hqh : 2 <= Z.quot h 2 /\ Z.quot h 2 + 3 <= h).
  { rewrite Z.quot_div_nonneg by lia.
    pose proof (Z.div_mod h 2 ltac:(lia)). pose proof (Z.mod_pos_bound h 2 ltac:(lia)).
    lia. }
  set (qw := Z.quot w 2) in *. set (qh := Z.quot h 2) in *.
  repeat (apply Forall_app; split);
    apply whenSet_inside; unfold primitiveInside; lia.
Qed.

Lemma drawLineCharString_from_inside (LineChars : Z -> Z)
    (font_w' font_h' x y : Z) (str : list Z) :
  5 <= font_w' -> 5 <= font_h' ->
  forall i0,
  Forall (fun p => exists i,
            i0 <= i < i0 + Z.of_nat (length str) /\
            LineChars (QChar_cell (nth (Z.to_nat (i - i0)) str 0)) <> 0 /\
            primitiveInside (x + font_w' * i) y
                            (x + font_w' * i + font_w' - 1) (y + font_h' - 1) p)
         (drawLineCharString_from LineChars font_w' font_h' x y i0 str).
Proof.
  intros Hw Hh. induction str as [|c rest IH]; intros i0; cbn [drawLineCharString_from].
  - constructor.
  - apply Forall_app. split.
    + destruct (LineChars (QChar_cell c) =? 0) eqn:Ez; [constructor|].
      apply Z.eqb_neq in Ez.
      eapply Forall_impl; [|apply drawLineChar_inside; assumption].
      intros p Hp. exists i0. split; [cbn [length]; lia|].
      split; [rewrite Z.sub_diag; exact Ez | exact Hp].
    + eapply Forall_impl; [|apply (IH (i0 + 1))].
      intros p (i & Hi & Hz & Hp). exists i. split; [cbn [length]; lia|].
      split; [|exact Hp].
      replace (Z.to_nat (i - i0)) with (S (Z.to_nat (i - (i0 + 1)))) by lia.
      exact Hz.
Qed.

(** X15.  With a font of five pixels or more each way, every stroke and dot
    [drawLineCharString] draws lies inside the cell of one character of the
    string, a character whose entry in the table of line characters is not
    zero, and runs from left to right or from top to bottom; a string whose
    characters have no entry draws nothing. *)
Theorem X15_line_characters_are_drawn_inside_their_cells
    (LineChars : Z -> Z) (d : TerminalDisplay) (x y : Z) (str : list Z) :
  5 <= font_w (widget d) -> 5 <= font_h (widget d) ->
  Forall (fun p => exists i,
            0 <= i < Z.of_nat (length str) /\
            LineChars (QChar_cell (nth (Z.to_nat i) str 0)) <> 0 /\
            primitiveInside (x + font_w (widget d) * i) y
                            (x + font_w (widget d) * i + font_w (widget d) - 1)
                            (y + font_h (widget d) - 1) p)
         (drawLineCharString LineChars d x y str) /\
  ((forall c, In c str -> LineChars (QChar_cell c) = 0) ->
   drawLineCharString LineChars d x y str = []).
Proof.
  intros Hw Hh. split.
  - unfold drawLineCharString.
    eapply Forall_impl;
      [|apply (drawLineCharString_from_inside LineChars _ _ x y str Hw Hh 0)].
    intros p (i & Hi & Hz & Hp). exists i. rewrite Z.sub_0_r in Hz.
    split; [lia|]. split; assumption.
  - intros Hnone. unfold drawLineCharString. generalize 0.
    induction str as [|c rest IH]; intros i0; cbn [drawLineCharString_from].
    + reflexivity.
    + rewrite (Hnone c) by (left; reflexivity). cbn [Z.eqb app].
      apply IH. intros c' Hc'. apply Hnone. right. exact Hc'.
Qed.

(* ------------------------------------------------------------------ *)
(** ** Blinking text *)

Section Blinker.
Context {HC : HeaderConstants}.

Section BlinkerOfRow.
Variables (im : InputMethodState) (y : Z).
Variables (newLine : Z -> Character) (dirty : Z -> bool) (columnsToUpdate : Z).

Local Abbreviation scan := (scanRow im y newLine dirty columnsToUpdate).
Local Abbreviation blinkBit := (fun x => Z.land (rendition (newLine x)) RE_BLINK).

(** [hasBlinker] is only ever set in the column loop. *)
Lemma scanRow_blinker_kept :
  forall (fuel : nat) (x : Z) (acc : RowScan),
    rs_hasBlinker acc = true -> rs_hasBlinker (scan fuel x acc) = true.
Proof.
  induction fuel as [|fuel IH]; intros x acc Hacc; cbn [scanRow]; [assumption|].
  destruct (x <? columnsToUpdate); [|assumption].
  destruct (dirty x); [destruct (character (newLine x) =? 0)|];
    apply IH; cbn [rs_hasBlinker]; rewrite Hacc; reflexivity.
Qed.

(** When the loop sets it, a column from [x] on carries the bit. *)
Lemma scanRow_blinker_sound :
  forall (fuel : nat) (x : Z) (acc : RowScan),
    rs_hasBlinker (scan fuel x acc) = true ->
    rs_hasBlinker acc = true \/
    exists c, x <= c < columnsToUpdate /\ blinkBit c <> 0.
Proof.
  induction fuel as [|fuel IH]; intros x acc Hres; cbn [scanRow] in Hres;
    [left; assumption|].
  destruct (x <? columnsToUpdate) eqn:Ex; [|left; assumption].
  apply Z.ltb_lt in Ex.
  assert (Hhere : forall x' acc',
            x <= x' ->
            rs_hasBlinker acc' = rs_hasBlinker acc || negb (blinkBit x =? 0) ->
            rs_hasBlinker (scan fuel x' acc') = true ->
            rs_hasBlinker acc = true \/
            exists c, x <= c < columnsToUpdate /\ blinkBit c <> 0).
  { intros x' acc' Hx' Eacc Hr. destruct (IH x' acc' Hr) as [Ha|(c & Hc & Hb)].
    - rewrite Eacc in Ha. apply orb_true_iff in Ha. destruct Ha as [Ha|Ha].
      + left. exact Ha.
      + right. exists x. split; [lia|]. apply negb_true_iff, Z.eqb_neq in Ha. exact Ha.
    - right. exists c. split; [lia | exact Hb]. }
  destruct (dirty x); [destruct (character (newLine x) =? 0)|].
  - apply Hhere in Hres; [exact Hres | lia | reflexivity].
  - apply Hhere in Hres; [exact Hres | | reflexivity].
    pose proof (runFrom_len_pos newLine dirty columnsToUpdate x). lia.
  - apply Hhere in Hres; [exact Hres | lia | reflexivity].
Qed.

(** A cell that is drawn (its code point is not 0) and carries the bit sets
    [hasBlinker], also when the loop jumps over it inside a run: the cells
    of a run share the rendition of its first cell. *)
Lemma scanRow_blinker_complete :
  forall (fuel : nat) (x : Z) (acc : RowScan) (c : Z),
    (Z.to_nat (columnsToUpdate - x) <= fuel)%nat ->
    x <= c < columnsToUpdate ->
    character (newLine c) <> 0 -> blinkBit c <> 0 ->
    rs_hasBlinker (scan fuel x acc) = true.
Proof.
  induction fuel as [|fuel IH]; intros x acc c Hfuel Hc Hnz Hb; [lia|].
  cbn [scanRow].
  replace (x <? columnsToUpdate) with true by (symmetry; apply Z.ltb_lt; lia).
  destruct (Z.eq_dec c x) as [->|Hne].
  { assert (Hset : negb (blinkBit x =? 0) = true)
      by (apply negb_true_iff, Z.eqb_neq; exact Hb).
    destruct (dirty x); [destruct (character (newLine x) =? 0)|];
      apply scanRow_blinker_kept; cbn [rs_hasBlinker]; rewrite Hset;
      apply orb_true_r. }
  destruct (dirty x) eqn:Ed; [destruct (character (newLine x) =? 0) eqn:Ez|].
  - apply (IH _ _ c); [lia | lia | assumption | assumption].
  - apply Z.eqb_neq in Ez.
    destruct (runFrom_spec newLine dirty columnsToUpdate x ltac:(lia) Ez)
      as (_ & Hlen & Hin & _ & _).
    set (r := runFrom newLine dirty columnsToUpdate x) in *.
    destruct (Z_lt_dec c (x + run_len r)) as [Hinside|Hafter].
    + apply scanRow_blinker_kept. cbn [rs_hasBlinker].
      destruct (Hin (c - x) ltac:(lia)) as (_ & _ & Hrend & _).
      { replace (x + (c - x)) with c by lia. exact Hnz. }
      replace (x + (c - x)) with c in Hrend by lia.
      rewrite <- Hrend.
      replace (negb (blinkBit c =? 0)) with true
        by (symmetry; apply negb_true_iff, Z.eqb_neq; exact Hb).
      apply orb_true_r.
    + apply (IH _ _ c); [lia | lia | assumption | assumption].
  - apply (IH _ _ c); [lia | lia | assumption | assumption].
Qed.
End BlinkerOfRow.

Variables (d : TerminalDisplay) (newimg : list Character).
Variables (columns' columnsToUpdate : Z).

(** What the row loop knows of [hasBlinker] after the rows below [k]. *)
Local Abbreviation blinkerInv :=
  (fun (k : Z) (st : DiffState) =>
     (ds_hasBlinker st = true ->
      resizing d = false /\
      exists y x, 0 <= y < k /\ 0 <= x < columnsToUpdate /\
                  asksToBlink newimg columns' y x) /\
     (resizing d = false ->
      forall y x, 0 <= y < k -> 0 <= x < columnsToUpdate ->
                  character (newLine_of newimg columns' y x) <> 0 ->
                  asksToBlink newimg columns' y x ->
                  ds_hasBlinker st = true)).

Lemma updateRow_blinker (k : Z) (st : DiffState) :
  0 <= k -> blinkerInv k st ->
  blinkerInv (k + 1) (updateRow d newimg columns' columnsToUpdate k st).
Proof.
  intros Hk [Hsound Hcomplete]. unfold updateRow. cbn [ds_hasBlinker].
  unfold scanOfRow. destruct (resizing d) eqn:Eres.
  - cbn [rs_hasBlinker]. split.
    + intros Hb. destruct (Hsound Hb) as [Hf _]. discriminate.
    + intros Hf. discriminate.
  - split.
    + intros Hb. split; [reflexivity|].
      apply scanRow_blinker_sound in Hb. cbn [rs_hasBlinker] in Hb.
      destruct Hb as [Hb|(c & Hc & Hbit)].
      * destruct (Hsound Hb) as (_ & y & x & Hy & Hx & Hbl).
        exists y, x. split; [lia|]. split; assumption.
      * exists k, c. split; [lia|]. split; [lia | exact Hbit].
    + intros _ y x Hy Hx Hnz Hbl.
      destruct (Z.eq_dec y k) as [->|Hne].
      * apply (scanRow_blinker_complete _ _ _ _ _ _ _ _ x);
          [lia | lia | exact Hnz | exact Hbl].
      * apply scanRow_blinker_kept. cbn [rs_hasBlinker].
        apply (Hcomplete eq_refl y x); [lia | assumption | assumption | assumption].
Qed.

Lemma rowLoop_blinker (n : Z) (img : list Character) (imEdit0 imSel0 : bool) :
  blinkerInv (Z.max 0 n)
    (for_range 0 n (updateRow d newimg columns' columnsToUpdate)
               (mkDiffState img [] false imEdit0 imSel0 0 [])).
Proof.
  assert (Hstart : forall k, k <= 0 ->
            blinkerInv k (mkDiffState img [] false imEdit0 imSel0 0 [])).
  { intros k Hk. cbn [ds_hasBlinker]. split; [discriminate|].
    intros _ y x Hy. lia. }
  destruct (Z_le_dec 0 n) as [Hn|Hn].
  - rewrite Z.max_r by lia.
    apply (for_range_invariant blinkerInv); [assumption | apply Hstart; lia |].
    intros i t Hi Hinv. apply updateRow_blinker; [lia | exact Hinv].
  - rewrite for_range_empty by lia. rewrite Z.max_l by lia. apply Hstart. lia.
Qed.
End Blinker.

(** X16.  After [updateImage] the blink timer runs exactly when
    [hasBlinker] is set.  [hasBlinker] is set only if the display is not
    being resized and a cell of the compared extent of the new image has
    [RE_BLINK] in its rendition, and it is set whenever such a cell has a
    code point other than 0 and the display, which already holds an image,
    is not being resized; on a display that is being resized it is
    cleared. *)
Theorem X16_blink_timer_follows_the_blinking_cells
    `{HeaderConstants} (d : TerminalDisplay) (w : ScreenWindow) :
  wellFormed d ->
  exists res,
    updateImage d w = Some res /\
    let d' := ur_display res in
    blinkT_isActive d' = hasBlinker d' /\
    (hasBlinker d' = true ->
     exists y x, 0 <= y < usedLines d' /\ 0 <= x < usedColumns d' /\
                 asksToBlink (getImage w) (windowColumns w) y x) /\
    (image d <> None -> resizing d = false ->
     forall y x, 0 <= y < usedLines d' -> 0 <= x < usedColumns d' ->
                 character (cell_at (getImage w) (y * windowColumns w + x)) <> 0 ->
                 asksToBlink (getImage w) (windowColumns w) y x ->
                 hasBlinker d' = true) /\
    (image d <> None -> resizing d = true -> hasBlinker d' = false).
Proof.
  intros Hwf.
  destruct (updateImage_spec d w Hwf)
    as (d2 & img & Hup & Himg & Hwf2 & _ & _ & _ & Hsame & _).
  exists (diffImage d2 (resetScrollCount w) img). split; [exact Hup|].
  cbv zeta.
  pose proof (rowLoop_blinker d2 (getImage w) (windowColumns w)
                (columnsToUpdate_of d2 (resetScrollCount w))
                (linesToUpdate_of d2 (resetScrollCount w))
                img (m_isIMEdit d2) (m_isIMSel d2)) as [Hsound Hcomplete].
  assert (Hlt : Z.max 0 (linesToUpdate_of d2 (resetScrollCount w))
                = linesToUpdate_of d2 (resetScrollCount w)).
  { destruct Hwf2 as (Hl & _). unfold linesToUpdate_of. lia. }
  rewrite Hlt in Hsound, Hcomplete.
  unfold diffImage.
  cbn [ur_display blinkT_isActive hasBlinker usedLines usedColumns blinking
       getImage windowColumns resetScrollCount] in *.
  split; [reflexivity|]. split; [|split].
  - intros Hb. destruct (Hsound Hb) as (_ & y & x & Hy & Hx & Hbl).
    exists y, x. split; [exact Hy|]. split; [exact Hx | exact Hbl].
  - intros Hsome Hres y x Hy Hx Hnz Hbl.
    destruct (Hsame Hsome) as (_ & _ & _ & _ & _ & _ & Hres2).
    apply (Hcomplete ltac:(congruence) y x Hy Hx Hnz Hbl).
  - intros Hsome Hres. destruct (Hsame Hsome) as (_ & _ & _ & _ & _ & _ & Hres2).
    match goal with
    | |- ?b = false => destruct b eqn:Eb; [|reflexivity]
    end.
    destruct (Hsound eq_refl) as (Hf & _). congruence.
Qed.

(* ------------------------------------------------------------------ *)
(** ** Scrolling the image *)

(** [scrollImage] moves cells by [n * usedColumns] places: the cell at
    index [i] of the block written by [memmove] is the old cell at
    [i + n * usedColumns], every other cell is left alone. *)
Lemma scrollImage_moves_cells (d : TerminalDisplay) (n : Z) (img : list Character) :
  wellFormed d -> image d = Some img ->
  exists d1 img1,
    scrollImage d n = Some d1 /\ image d1 = Some img1 /\
    wellFormed d1 /\
    lines d1 = lines d /\ columns d1 = columns d /\
    usedLines d1 = usedLines d /\ usedColumns d1 = usedColumns d /\
    image_size d1 = image_size d /\
    forall i, 0 <= i <= image_size d ->
      cell_at img1 i =
      if negb (n =? 0) && (Z.abs n <? usedLines d)
         && (Z.max 0 (- n) * usedColumns d <=? i)
         && (i <? Z.max 0 (- n) * usedColumns d
                  + (usedLines d - Z.abs n) * usedColumns d)
      then cell_at img (i + n * usedColumns d) else cell_at img i.
Proof.
  intros Hwf Himg.
  destruct (scrollImage_spec d n Hwf)
    as (d1 & Hscroll & Hwf1 & Hl & Hc & Hul & Huc & Hsz & _).
  pose proof Hwf as (Hlines & Hcols & Hule & Huce & Hshape).
  rewrite Himg in Hshape. destruct Hshape as [Hsize Hlen].
  pose proof Hscroll as Hcall.
  unfold scrollImage in Hscroll. rewrite Himg in Hscroll.
  destruct (n =? 0) eqn:En0; cbn [orb negb andb] in *.
  { injection Hscroll as <-. exists d, img. repeat (split; [assumption|]).
    intros i Hi. reflexivity. }
  apply Z.eqb_neq in En0.
  destruct (usedLines d <=? Z.abs n) eqn:Eabs.
  { injection Hscroll as <-. exists d, img. repeat (split; [assumption|]).
    intros i Hi. apply Z.leb_le in Eabs.
    replace (Z.abs n <? usedLines d) with false by (symmetry; apply Z.ltb_ge; lia).
    reflexivity. }
  apply Z.leb_gt in Eabs.
  replace (Z.abs n <? usedLines d) with true by (symmetry; apply Z.ltb_lt; lia).
  cbn [andb].
  destruct (0 <? n) eqn:Epos.
  - apply Z.ltb_lt in Epos.
    destruct (n * usedColumns d <? image_size d); [|discriminate].
    injection Hscroll as <-. eexists. eexists.
    split; [exact Hcall|]. split; [reflexivity|].
    do 6 (split; [assumption|]).
    intros i Hi. rewrite cell_at_memcpy.
    replace (n * usedColumns d + (i - 0)) with (i + n * usedColumns d) by lia.
    match goal with
    | |- (if ?a then _ else _) = (if ?b then _ else _) =>
        replace a with b; [reflexivity|]
    end.
    apply eq_true_iff_eq.
    rewrite !andb_true_iff, !Z.leb_le, !Z.ltb_lt. lia.
  - apply Z.ltb_ge in Epos.
    injection Hscroll as <-. eexists. eexists.
    split; [exact Hcall|]. split; [reflexivity|].
    do 6 (split; [assumption|]).
    intros i Hi. rewrite cell_at_memcpy.
    replace (0 + (i - Z.abs n * usedColumns d)) with (i + n * usedColumns d) by lia.
    match goal with
    | |- (if ?a then _ else _) = (if ?b then _ else _) =>
        replace a with b; [reflexivity|]
    end.
    apply eq_true_iff_eq.
    rewrite !andb_true_iff, !Z.leb_le, !Z.ltb_lt.
    rewrite (Z.max_r 0 (- n)) by lia. rewrite (Z.abs_neq n) by lia. nia.
Qed.

(** X17.  When the used width is the full width, [scrollImage(n)] moves
    rows: row [y] of the used extent takes the content of the old row
    [y + n] if that is a row of the used extent too, and every other row
    of the grid keeps its content; the call succeeds for every [n]. *)
Theorem X17_scrollImage_moves_rows_of_the_used_extent
    (d : TerminalDisplay) (n : Z) (img : list Character) :
  wellFormed d -> image d = Some img -> usedColumns d = columns d ->
  exists d1 img1,
    scrollImage d n = Some d1 /\ image d1 = Some img1 /\
    forall x y, 0 <= x < columns d -> 0 <= y < lines d ->
      cell_at img1 (loc d x y) =
      if (y <? usedLines d) && (0 <=? y + n) && (y + n <? usedLines d)
      then cell_at img (loc d x (y + n)) else cell_at img (loc d x y).
Proof.
  intros Hwf Himg Hfull.
  destruct (scrollImage_moves_cells d n img Hwf Himg)
    as (d1 & img1 & Hscroll & Himg1 & _ & _ & _ & _ & _ & _ & Hcells).
  exists d1, img1. split; [exact Hscroll|]. split; [exact Himg1|].
  intros x y Hx Hy.
  pose proof Hwf as (Hlines & Hcols & Hule & Huce & Hshape).
  rewrite Himg in Hshape. destruct Hshape as [Hsize Hlen].
  unfold loc in *. rewrite Hcells by nia. rewrite Hfull.
  destruct (Z.eq_dec n 0) as [->|Hn0].
  { cbn [Z.eqb negb andb]. rewrite Z.add_0_r.
    destruct ((y <? usedLines d) && (0 <=? y) && (y <? usedLines d)); reflexivity. }
  replace (n =? 0) with false by (symmetry; apply Z.eqb_neq; exact Hn0).
  cbn [negb andb].
  destruct ((y <? usedLines d) && (0 <=? y + n) && (y + n <? usedLines d)) eqn:Erow.
  - rewrite !andb_true_iff, Z.leb_le, !Z.ltb_lt in Erow.
    destruct Erow as ((Hyu & Hyn0) & Hyn1).
    replace (Z.abs n <? usedLines d) with true by (symmetry; apply Z.ltb_lt; lia).
    replace (Z.max 0 (- n) * columns d <=? y * columns d + x) with true
      by (symmetry; apply Z.leb_le; nia).
    replace (y * columns d + x <?
             Z.max 0 (- n) * columns d + (usedLines d - Z.abs n) * columns d)
      with true by (symmetry; apply Z.ltb_lt; nia).
    cbn [andb]. f_equal. lia.
  - match goal with
    | |- (if ?c then _ else _) = _ => destruct c eqn:Eflat; [|reflexivity]
    end.
    exfalso.
    rewrite !andb_true_iff, Z.leb_le, !Z.ltb_lt in Eflat.
    destruct Eflat as ((Habs & Hlo) & Hhi).
    assert (Hrow : (y <? usedLines d) && (0 <=? y + n) && (y + n <? usedLines d) = true).
    { rewrite !andb_true_iff, Z.leb_le, !Z.ltb_lt.
      destruct (Z_lt_dec 0 n).
      - rewrite Z.max_l in Hlo, Hhi by lia. rewrite Z.abs_eq in Hhi by lia.
        assert (y < usedLines d - n) by nia. lia.
      - rewrite Z.max_r in Hlo, Hhi by lia. rewrite Z.abs_neq in Hhi by lia.
        assert (- n <= y) by nia.
        assert (y < usedLines d) by nia. lia. }
    congruence.
Qed.

(** X18.  Scrolling by [n] rows and back loses only the rows that left the
    used extent: after [scrollImage(n)] and [scrollImage(-n)] on a display
    whose used width is the full width, every row from [max 0 n] up to
    [usedLines + min 0 n] holds what it held before, and so does every row
    beyond the used extent. *)
Theorem X18_scrolling_back_restores_the_rows_that_stayed
    (d : TerminalDisplay) (n : Z) (img : list Character) :
  wellFormed d -> image d = Some img -> usedColumns d = columns d ->
  exists d1 d2 img2,
    scrollImage d n = Some d1 /\ scrollImage d1 (- n) = Some d2 /\
    image d2 = Some img2 /\
    forall x y, 0 <= x < columns d -> 0 <= y < lines d ->
      (Z.max 0 n <= y < usedLines d + Z.min 0 n \/ usedLines d <= y) ->
      cell_at img2 (loc d x y) = cell_at img (loc d x y).
Proof.
  intros Hwf Himg Hfull.
  destruct (scrollImage_moves_cells d n img Hwf Himg)
    as (d1 & img1 & Hscroll1 & Himg1 & Hwf1 & Hl1 & Hc1 & Hul1 & Huc1 & Hsz1 & Hcells1).
  destruct (scrollImage_moves_cells d1 (- n) img1 Hwf1 Himg1)
    as (d2 & img2 & Hscroll2 & Himg2 & _ & _ & _ & _ & _ & _ & Hcells2).
  exists d1, d2, img2. split; [exact Hscroll1|]. split; [exact Hscroll2|].
  split; [exact Himg2|].
  intros x y Hx Hy Hrow.
  pose proof Hwf as (Hlines & Hcols & Hule & Huce & Hshape).
  rewrite Himg in Hshape. destruct Hshape as [Hsize Hlen].
  rewrite Hul1, Huc1, Hsz1 in Hcells2. rewrite Hfull in Hcells1, Hcells2.
  rewrite Z.abs_opp, Z.opp_involutive in Hcells2.
  unfold loc. set (i := y * columns d + x).
  assert (Hi : 0 <= i <= image_size d) by (unfold i; nia).
  assert (Hrow_lo : forall k, k * columns d <= i -> k <= y) by (intros k Hk; unfold i in Hk; nia).
  assert (Hrow_hi : forall k, i < k * columns d -> y < k) by (intros k Hk; unfold i in Hk; nia).
  assert (Hflat_lo : forall k, k <= y -> k * columns d <= i) by (intros k Hk; unfold i; nia).
  assert (Hflat_hi : forall k, y < k -> i < k * columns d) by (intros k Hk; unfold i; nia).
  rewrite (Hcells2 i Hi).
  destruct (Z_lt_dec 0 n) as [Hpos|Hnpos].
  - (* down by [n], then up again *)
    rewrite (Z.max_r 0 n), (Z.abs_eq n) in * by lia.
    rewrite (Z.max_l 0 (- n)) in * by lia.
    replace (- n =? 0) with false by (symmetry; apply Z.eqb_neq; lia).
    cbn [negb andb].
    destruct (n <? usedLines d) eqn:Eabs; cbn [andb].
    2:{ rewrite (Hcells1 i Hi).
        replace (n =? 0) with false by (symmetry; apply Z.eqb_neq; lia).
        cbn [negb andb]. reflexivity. }
    apply Z.ltb_lt in Eabs.
    replace (n * columns d + (usedLines d - n) * columns d)
      with (usedLines d * columns d) by lia.
    destruct ((n * columns d <=? i) && (i <? usedLines d * columns d)) eqn:Eback.
    + rewrite andb_true_iff, Z.leb_le, Z.ltb_lt in Eback. destruct Eback as [Hlo Hhi].
      pose proof (Hrow_lo _ Hlo). pose proof (Hrow_hi _ Hhi).
      rewrite Hcells1 by nia.
      replace (n =? 0) with false by (symmetry; apply Z.eqb_neq; lia).
      replace (n <? usedLines d) with true by (symmetry; apply Z.ltb_lt; lia).
      replace (0 * columns d <=? i + - n * columns d) with true
        by (symmetry; apply Z.leb_le; nia).
      replace (i + - n * columns d <? 0 * columns d + (usedLines d - n) * columns d)
        with true by (symmetry; apply Z.ltb_lt; nia).
      cbn [negb andb]. f_equal. lia.
    + rewrite (Hcells1 i Hi).
      match goal with
      | |- (if ?c then _ else _) = _ => destruct c eqn:Efwd; [|reflexivity]
      end.
      exfalso.
      rewrite !andb_true_iff, Z.leb_le, !Z.ltb_lt in Efwd.
      destruct Efwd as ((_ & _) & Hhi).
      assert (Hyu : y < usedLines d - n) by (apply Hrow_hi; lia).
      assert (Hb : (n * columns d <=? i) && (i <? usedLines d * columns d) = true).
      { rewrite andb_true_iff, Z.leb_le, Z.ltb_lt.
        split; [apply Hflat_lo | apply Hflat_hi]; destruct Hrow as [Hrow|Hrow]; lia. }
      congruence.
  - destruct (Z.eq_dec n 0) as [->|Hn0].
    { cbn [Z.opp Z.eqb negb andb]. rewrite (Hcells1 i Hi). reflexivity. }
    (* up by [-n], then down again *)
    rewrite (Z.max_l 0 n), (Z.abs_neq n) in * by lia.
    rewrite (Z.max_r 0 (- n)) in * by lia.
    replace (- n =? 0) with false by (symmetry; apply Z.eqb_neq; lia).
    cbn [negb andb].
    destruct (- n <? usedLines d) eqn:Eabs; cbn [andb].
    2:{ rewrite (Hcells1 i Hi).
        replace (n =? 0) with false by (symmetry; apply Z.eqb_neq; lia).
        cbn [negb andb]. reflexivity. }
    apply Z.ltb_lt in Eabs.
    destruct ((0 * columns d <=? i)
              && (i <? 0 * columns d + (usedLines d - - n) * columns d)) eqn:Eback.
    + rewrite andb_true_iff, Z.leb_le, Z.ltb_lt in Eback. destruct Eback as [Hlo Hhi].
      assert (Hyu : y < usedLines d - - n) by (apply Hrow_hi; lia).
      rewrite Hcells1 by nia.
      replace (n =? 0) with false by (symmetry; apply Z.eqb_neq; lia).
      replace (- n <? usedLines d) with true by (symmetry; apply Z.ltb_lt; lia).
      replace (- n * columns d <=? i + - n * columns d) with true
        by (symmetry; apply Z.leb_le; nia).
      replace (i + - n * columns d <? - n * columns d + (usedLines d - - n) * columns d)
        with true by (symmetry; apply Z.ltb_lt; nia).
      cbn [negb andb]. f_equal. lia.
    + rewrite (Hcells1 i Hi).
      match goal with
      | |- (if ?c then _ else _) = _ => destruct c eqn:Efwd; [|reflexivity]
      end.
      exfalso.
      rewrite !andb_true_iff, Z.leb_le, !Z.ltb_lt in Efwd.
      destruct Efwd as ((_ & Hlo) & Hhi).
      replace (- n * columns d + (usedLines d - - n) * columns d)
        with (usedLines d * columns d) in Hhi by lia.
      pose proof (Hrow_hi _ Hhi) as Hyu.
      assert (Hb : (0 * columns d <=? i)
                   && (i <? 0 * columns d + (usedLines d - - n) * columns d) = true).
      { rewrite andb_true_iff, Z.leb_le, Z.ltb_lt. split; [lia|].
        replace (0 * columns d + (usedLines d - - n) * columns d)
          with ((usedLines d + n) * columns d) by lia.
        apply Hflat_hi. destruct Hrow as [Hrow|Hrow]; lia. }
      congruence.
Qed.

(* ------------------------------------------------------------------ *)
(** ** Repainting a rectangle *)

Section PaintContents.
Context {HC : HeaderConstants}.
Variables (d : TerminalDisplay) (img : list Character).

(** *** The loops come to their end *)

Section Fuel.
Variables (rlx x y : Z) (cf cb : CharacterColor) (cr : Z).
Variables (lineDraw doubleWidth : bool).

Local Abbreviation extend :=
  (extendFragment d img rlx x y cf cb cr lineDraw doubleWidth).
Local Abbreviation same :=
  (sameFragment d img rlx x y cf cb cr lineDraw doubleWidth).

Lemma sameFragment_true (len c : Z) : same len = Some (Some c) -> x + len <= rlx.
Proof.
  unfold sameFragment. destruct (x + len <=? rlx) eqn:E; [|discriminate].
  intros _. apply Z.leb_le. exact E.
Qed.

Lemma sameFragment_beyond (len : Z) : rlx < x + len -> same len = Some None.
Proof.
  intros Hlen. unfold sameFragment.
  replace (x + len <=? rlx) with false by (symmetry; apply Z.leb_gt; lia).
  reflexivity.
Qed.

(** One more unit of fuel changes nothing once the fuel covers the columns
    left. *)
Lemma extendFragment_fuel_step :
  forall (fuel : nat) (len : Z) (str : list Z),
    (Z.to_nat (rlx - x - len + 1) <= fuel)%nat ->
    extend (S fuel) len str = extend fuel len str.
Proof.
  induction fuel as [|fuel IH]; intros len str Hfuel.
  - cbn [extendFragment]. rewrite sameFragment_beyond by lia. reflexivity.
  - remember (S fuel) as f1 eqn:Ef1. cbn [extendFragment]. subst f1.
    cbn [extendFragment].
    destruct (same len) as [[c|]|] eqn:Es; try reflexivity.
    apply sameFragment_true in Es. apply IH. destruct doubleWidth; lia.
Qed.

Lemma extendFragment_enough_fuel (extra : nat) (str : list Z) :
  extend (Z.to_nat (rlx - x) + extra)%nat 1 str = extend (Z.to_nat (rlx - x)) 1 str.
Proof.
  induction extra as [|extra IH].
  - now rewrite Nat.add_0_r.
  - rewrite Nat.add_succ_r. rewrite extendFragment_fuel_step by lia. exact IH.
Qed.

(** The loop only lengthens the fragment, and it puts at most one code
    point into the buffer for every column it looks at. *)
Lemma extendFragment_grows :
  forall (fuel : nat) (len : Z) (str : list Z) (len' : Z) (str' : list Z),
    extend fuel len str = Some (len', str') ->
    len <= len' /\
    (Z.of_nat (length str) <= len /\ Z.of_nat (length str) <= rlx - x + 1 ->
     Z.of_nat (length str') <= rlx - x + 1).
Proof.
  induction fuel as [|fuel IH]; intros len str len' str' Hres; cbn [extendFragment] in Hres.
  - injection Hres as <- <-. split; [lia | intros [_ Hb]; exact Hb].
  - destruct (same len) as [[c|]|] eqn:Es; [| |discriminate].
    + apply sameFragment_true in Es.
      apply IH in Hres. destruct Hres as [Hlen Hstr].
      split; [destruct doubleWidth; lia|].
      intros [Hl Hb]. apply Hstr.
      destruct (c =? 0); [destruct doubleWidth; lia|].
      rewrite length_app. cbn [length]. destruct doubleWidth; lia.
    + injection Hres as <- <-. split; [lia | intros [_ Hb]; exact Hb].
Qed.
End Fuel.

Lemma fragmentAt_fuel (rlx : Z) (extra : nat) (x y : Z) :
  fragmentAt d img rlx extra x y = fragmentAt d img rlx 0 x y.
Proof.
  unfold fragmentAt.
  destruct (readCell img (loc d x y)) as [cell|]; [|reflexivity].
  destruct (readCell img (probeIndex d x y)) as [probe|]; [|reflexivity].
  rewrite extendFragment_enough_fuel, Nat.add_0_r. reflexivity.
Qed.

Lemma fragmentAt_start (rlx : Z) (extra : nat) (x y : Z) (f : Fragment) :
  fragmentAt d img rlx extra x y = Some f ->
  frag_x f = x /\ frag_y f = y /\ 1 <= frag_len f.
Proof.
  unfold fragmentAt.
  destruct (readCell img (loc d x y)) as [cell|]; [|discriminate].
  destruct (readCell img (probeIndex d x y)) as [probe|]; [|discriminate].
  destruct (extendFragment _ _ _ _ _ _ _ _ _ _ _ _ _) as [[len str]|] eqn:Ee;
    [|discriminate].
  apply extendFragment_grows in Ee. destruct Ee as [Hlen _].
  destruct (x + len <? usedColumns d).
  - destruct (readCell img (loc d (x + len) y)) as [next|]; [|discriminate].
    intros [= <-]. cbn. destruct (character next =? 0); lia.
  - intros [= <-]. cbn. lia.
Qed.

Local Abbreviation columnsLeft := (fun rlx x => Z.to_nat (rlx - x + 1)).

Lemma paintRow_fuel (rlx : Z) :
  forall (fuel1 fuel2 extra1 extra2 : nat) (x y : Z),
    (columnsLeft rlx x <= fuel1)%nat -> (columnsLeft rlx x <= fuel2)%nat ->
    paintRow d img rlx extra1 fuel1 x y = paintRow d img rlx extra2 fuel2 x y.
Proof.
  induction fuel1 as [|fuel1 IH]; intros fuel2 extra1 extra2 x y H1 H2.
  - destruct fuel2 as [|fuel2]; [reflexivity|]. cbn [paintRow].
    replace (x <=? rlx) with false by (symmetry; apply Z.leb_gt; lia). reflexivity.
  - destruct fuel2 as [|fuel2]; cbn [paintRow].
    + replace (x <=? rlx) with false by (symmetry; apply Z.leb_gt; lia). reflexivity.
    + destruct (x <=? rlx) eqn:Ex; [|reflexivity]. apply Z.leb_le in Ex.
      rewrite (fragmentAt_fuel rlx extra1), (fragmentAt_fuel rlx extra2).
      destruct (fragmentAt d img rlx 0 x y) as [f|] eqn:Ef; [|reflexivity].
      apply fragmentAt_start in Ef. destruct Ef as (_ & _ & Hlen).
      rewrite (IH fuel2 extra1 extra2) by lia. reflexivity.
Qed.

Lemma paintRow_moves_down (rlx : Z) (extra : nat) :
  forall (fuel : nat) (x y yend : Z) (frs : list Fragment),
    paintRow d img rlx extra fuel x y = Some (yend, frs) -> y <= yend.
Proof.
  induction fuel as [|fuel IH]; intros x y yend frs Hres; cbn [paintRow] in Hres.
  - injection Hres as <- _. lia.
  - destruct (x <=? rlx); [|injection Hres as <- _; lia].
    destruct (fragmentAt d img rlx extra x y) as [f|]; [|discriminate].
    destruct (paintRow d img rlx extra fuel _ _) as [[y1 rest]|] eqn:Er; [|discriminate].
    injection Hres as <- _. apply IH in Er.
    destruct (isDoubleHeight (lineProperties d) y); lia.
Qed.

Local Abbreviation linesLeft := (fun rly y => Z.to_nat (rly - y + 1)).

Lemma paintRows_fuel (lux rlx rly : Z) :
  forall (fuel1 fuel2 extra1 extra2 : nat) (y : Z),
    (linesLeft rly y <= fuel1)%nat -> (linesLeft rly y <= fuel2)%nat ->
    paintRows d img lux rlx rly extra1 fuel1 y
    = paintRows d img lux rlx rly extra2 fuel2 y.
Proof.
  induction fuel1 as [|fuel1 IH]; intros fuel2 extra1 extra2 y H1 H2.
  - destruct fuel2 as [|fuel2]; [reflexivity|]. cbn [paintRows].
    replace (y <=? rly) with false by (symmetry; apply Z.leb_gt; lia). reflexivity.
  - destruct fuel2 as [|fuel2]; cbn [paintRows].
    + replace (y <=? rly) with false by (symmetry; apply Z.leb_gt; lia). reflexivity.
    + destruct (y <=? rly) eqn:Ey; [|reflexivity]. apply Z.leb_le in Ey.
      destruct (readCell img (loc d lux y)) as [cell|]; [|reflexivity].
      set (x := if (character cell =? 0) && negb (lux =? 0) then lux - 1 else lux).
      rewrite (paintRow_fuel rlx (Z.to_nat (rlx - x + 1) + extra1)
                 (Z.to_nat (rlx - x + 1) + extra2) extra1 extra2) by lia.
      destruct (paintRow d img rlx extra2 _ x y) as [[yend row]|] eqn:Er;
        [|reflexivity].
      apply paintRow_moves_down in Er.
      rewrite (IH fuel2 extra1 extra2) by lia. reflexivity.
Qed.

(** *** The reads stay inside the image *)

Hypothesis Hwf : wellFormed d.
Hypothesis Himg : image d = Some img.

Lemma image_shape :
  0 < lines d /\ 0 < columns d /\
  usedLines d <= lines d /\ usedColumns d <= columns d /\
  image_size d = lines d * columns d /\
  Z.of_nat (length img) = image_size d + 1.
Proof.
  destruct Hwf as (Hl & Hc & Hul & Huc & Hshape). rewrite Himg in Hshape.
  destruct Hshape as [Hsize Hlen]. auto 10.
Qed.

Lemma readCell_inside (i : Z) :
  0 <= i <= image_size d -> readCell img i = Some (cell_at img i).
Proof.
  intros Hi. destruct image_shape as (_ & _ & _ & _ & _ & Hlen). unfold readCell.
  replace (0 <=? i) with true by (symmetry; apply Z.leb_le; lia).
  replace (i <? Z.of_nat (length img)) with true by (symmetry; apply Z.ltb_lt; lia).
  reflexivity.
Qed.

Lemma readCell_loc (x y : Z) :
  0 <= x < columns d -> 0 <= y < lines d ->
  readCell img (loc d x y) = Some (cell_at img (loc d x y)).
Proof.
  intros Hx Hy. destruct image_shape as (_ & _ & _ & _ & Hsize & _).
  apply readCell_inside. unfold loc. nia.
Qed.

Lemma readCell_probe (x y : Z) :
  0 <= x -> 0 <= y ->
  readCell img (probeIndex d x y) = Some (cell_at img (probeIndex d x y)).
Proof.
  intros Hx Hy. destruct image_shape as (Hl & Hc & _ & _ & Hsize & _).
  apply readCell_inside. unfold probeIndex, loc. nia.
Qed.

Section Row.
Variables (rlx y : Z).
Hypothesis Hrlx : rlx < usedColumns d.
Hypothesis Hy : 0 <= y < lines d.

Lemma sameFragment_inside (x : Z) (cf cb : CharacterColor) (cr : Z)
    (lineDraw doubleWidth : bool) (len : Z) :
  0 <= x + len ->
  sameFragment d img rlx x y cf cb cr lineDraw doubleWidth len <> None.
Proof.
  intros Hlen. destruct image_shape as (_ & _ & _ & Huc & _). unfold sameFragment.
  destruct (x + len <=? rlx) eqn:E; [|discriminate]. apply Z.leb_le in E.
  rewrite readCell_loc by lia.
  destruct (_ && _ && _); [|discriminate].
  rewrite readCell_probe by lia.
  destruct (_ && _); discriminate.
Qed.

Lemma extendFragment_inside (x : Z) (cf cb : CharacterColor) (cr : Z)
    (lineDraw doubleWidth : bool) :
  forall (fuel : nat) (len : Z) (str : list Z),
    0 <= x + len ->
    extendFragment d img rlx x y cf cb cr lineDraw doubleWidth fuel len str <> None.
Proof.
  induction fuel as [|fuel IH]; intros len str Hlen; cbn [extendFragment];
    [discriminate|].
  pose proof (sameFragment_inside x cf cb cr lineDraw doubleWidth len Hlen) as Hs.
  destruct (sameFragment d img rlx x y cf cb cr lineDraw doubleWidth len)
    as [[c|]|]; [|discriminate|congruence].
  apply IH. destruct doubleWidth; lia.
Qed.

(** The fragment that starts at a column between 0 and [rlx]. *)
Lemma fragmentAt_inside (extra : nat) (x : Z) :
  0 <= x <= rlx ->
  exists f,
    fragmentAt d img rlx extra x y = Some f /\
    frag_x f = x /\ frag_y f = y /\ 1 <= frag_len f /\
    fragmentOfImage d img f.
Proof.
  intros Hx. destruct image_shape as (_ & _ & _ & Huc & _).
  destruct (fragmentAt d img rlx extra x y) as [f|] eqn:Ef.
  - exists f. split; [reflexivity|].
    destruct (fragmentAt_start _ _ _ _ _ Ef) as (Hfx & Hfy & Hlen).
    split; [exact Hfx|]. split; [exact Hfy|]. split; [exact Hlen|].
    unfold fragmentAt in Ef.
    rewrite readCell_loc, readCell_probe in Ef by lia.
    destruct (extendFragment _ _ _ _ _ _ _ _ _ _ _ _ _) as [[len str]|] eqn:Ee;
      [|discriminate].
    apply extendFragment_grows in Ee. destruct Ee as [_ Hstr].
    assert (Hbuf : Z.of_nat (length str) <= rlx - x + 1).
    { apply Hstr. destruct (character (cell_at img (loc d x y)) =? 0); cbn [length]; lia. }
    unfold fragmentOfImage, paintContents_doubleWidth.
    destruct (x + len <? usedColumns d).
    + destruct (readCell img (loc d (x + len) y)) as [next|]; [|discriminate].
      injection Ef as <-. cbn [frag_x frag_y frag_str frag_lineDraw frag_doubleWidth].
      split; [lia|]. split; [lia|]. split; reflexivity.
    + injection Ef as <-. cbn [frag_x frag_y frag_str frag_lineDraw frag_doubleWidth].
      split; [lia|]. split; [lia|]. split; reflexivity.
  - exfalso. unfold fragmentAt in Ef.
    rewrite readCell_loc, readCell_probe in Ef by lia.
    destruct (extendFragment _ _ _ _ _ _ _ _ _ _ _ _ _) as [[len str]|] eqn:Ee.
    + pose proof (extendFragment_grows _ _ _ _ _ _ _ _ _ _ _ _ _ Ee) as [Hlen _].
      destruct (x + len <? usedColumns d) eqn:El; [|discriminate].
      apply Z.ltb_lt in El. rewrite readCell_loc in Ef by lia. discriminate.
    + apply extendFragment_inside in Ee; [exact Ee | lia].
Qed.

Hypothesis Hsingle : isDoubleHeight (lineProperties d) y = false.

(** The fragments of a row of single height follow one another to beyond
    [rlx], and [y] stays. *)
Lemma paintRow_tiles (extra : nat) :
  forall (fuel : nat) (x : Z),
    0 <= x -> (Z.to_nat (rlx - x + 1) <= fuel)%nat ->
    exists frs xend,
      paintRow d img rlx extra fuel x y = Some (y, frs) /\
      tilesRow y x frs xend /\ rlx < xend /\
      Forall (fragmentOfImage d img) frs.
Proof.
  induction fuel as [|fuel IH]; intros x Hx Hfuel; cbn [paintRow].
  - exists [], x. split; [reflexivity|]. split; [reflexivity|]. split; [lia|].
    constructor.
  - destruct (x <=? rlx) eqn:Ex.
    + apply Z.leb_le in Ex.
      destruct (fragmentAt_inside extra x ltac:(lia))
        as (f & Hf & Hfx & Hfy & Hlen & Hfrag).
      rewrite Hf, Hsingle.
      destruct (IH (x + (frag_len f - 1) + 1) ltac:(lia) ltac:(lia))
        as (frs & xend & Hrow & Htiles & Hend & Hall).
      rewrite Hrow. exists (f :: frs), xend. split; [reflexivity|].
      split.
      * cbn [tilesRow]. split; [exact Hfy|]. split; [exact Hfx|]. split; [exact Hlen|].
        replace (x + frag_len f) with (x + (frag_len f - 1) + 1) by lia. exact Htiles.
      * split; [exact Hend|]. constructor; assumption.
    + apply Z.leb_gt in Ex.
      exists [], x. split; [reflexivity|]. split; [reflexivity|]. split; [lia|].
      constructor.
Qed.
End Row.

Hypothesis Hsingle : noDoubleHeight d (usedLines d).

(** The rows from [y] to [rly], when none of them is of double height. *)
Lemma paintRows_tiles (lux rlx rly : Z) (extra : nat) :
  0 <= lux < usedColumns d -> rlx < usedColumns d -> rly < usedLines d ->
  forall (fuel : nat) (y : Z),
    0 <= y -> (Z.to_nat (rly - y + 1) <= fuel)%nat ->
    exists rows,
      paintRows d img lux rlx rly extra fuel y = Some (concat rows) /\
      length rows = Z.to_nat (rly - y + 1) /\
      tilesRows lux rlx y rows /\
      Forall (fragmentOfImage d img) (concat rows).
Proof.
  intros Hlux Hrlx Hrly.
  destruct image_shape as (_ & _ & Hul & Huc & _).
  induction fuel as [|fuel IH]; intros y Hy Hfuel; cbn [paintRows].
  - exists []. split; [reflexivity|]. split; [cbn [length]; lia|].
    split; [exact I | constructor].
  - destruct (y <=? rly) eqn:Ey.
    + apply Z.leb_le in Ey.
      rewrite readCell_loc by lia.
      set (x := if (character (cell_at img (loc d lux y)) =? 0) && negb (lux =? 0)
                then lux - 1 else lux).
      assert (Hx : 0 <= x /\ lux - 1 <= x <= lux).
      { unfold x. destruct (character (cell_at img (loc d lux y)) =? 0); cbn [andb];
          [|lia].
        destruct (lux =? 0) eqn:E0; cbn [negb]; [lia|]. apply Z.eqb_neq in E0. lia. }
      destruct (paintRow_tiles rlx y Hrlx ltac:(lia) (Hsingle y ltac:(lia)) extra
                  (Z.to_nat (rlx - x + 1) + extra) x ltac:(lia) ltac:(lia))
        as (row & xend & Hrow & Htiles & Hend & Hall).
      rewrite Hrow.
      destruct (IH (y + 1) ltac:(lia) ltac:(lia)) as (rows & Hrows & Hcount & Hrest & Hall').
      rewrite Hrows. exists (row :: rows). split; [reflexivity|].
      split; [cbn [length]; lia|].
      split.
      * cbn [tilesRows]. split; [|exact Hrest].
        exists x, xend. split; [lia|]. split; [exact Hend | exact Htiles].
      * cbn [concat]. apply Forall_app. split; assumption.
    + apply Z.leb_gt in Ey.
      exists []. split; [reflexivity|]. split; [cbn [length]; lia|].
      split; [exact I | constructor].
Qed.
End PaintContents.

(** The four corners of the loop lie in the used extent once it holds a
    cell. *)
Lemma cellColumn_range (d : TerminalDisplay) (px : Z) :
  1 <= usedColumns d -> 0 <= cellColumn d px < usedColumns d.
Proof. intros Huc. unfold cellColumn. lia. Qed.

Lemma cellLine_range (d : TerminalDisplay) (py : Z) :
  1 <= usedLines d -> 0 <= cellLine d py < usedLines d.
Proof. intros Hul. unfold cellLine. lia. Qed.

(** [paintContents] on a display without double-height lines. *)
Lemma paintContents_rows `{HeaderConstants} (d : TerminalDisplay)
    (img : list Character) (rect_left rect_top rect_right rect_bottom : Z) :
  wellFormed d -> image d = Some img ->
  1 <= usedLines d -> 1 <= usedColumns d ->
  noDoubleHeight d (usedLines d) ->
  exists rows,
    (forall extra,
       paintContents_fuel d rect_left rect_top rect_right rect_bottom extra
       = Some (concat rows)) /\
    length rows
    = Z.to_nat (cellLine d rect_bottom - cellLine d rect_top + 1) /\
    tilesRows (cellColumn d rect_left) (cellColumn d rect_right)
              (cellLine d rect_top) rows /\
    Forall (fragmentOfImage d img) (concat rows).
Proof.
  intros Hwf Himg Hul Huc Hsingle.
  pose proof (cellColumn_range d rect_left Huc) as Hlux.
  pose proof (cellColumn_range d rect_right Huc) as Hrlx.
  pose proof (cellLine_range d rect_top Hul) as Hluy.
  pose proof (cellLine_range d rect_bottom Hul) as Hrly.
  destruct (paintRows_tiles d img Hwf Himg Hsingle
              (cellColumn d rect_left) (cellColumn d rect_right)
              (cellLine d rect_bottom) 0 Hlux ltac:(lia) ltac:(lia)
              (Z.to_nat (cellLine d rect_bottom - cellLine d rect_top + 1))
              (cellLine d rect_top) ltac:(lia) ltac:(lia))
    as (rows & Hrows & Hcount & Htiles & Hall).
  exists rows. split; [|split; [exact Hcount | split; [exact Htiles | exact Hall]]].
  intros extra. unfold paintContents_fuel. rewrite Himg. cbv zeta.
  rewrite <- Hrows. apply paintRows_fuel; lia.
Qed.

(** What lies in a chain of fragments. *)
Lemma tilesRow_bounds (y : Z) :
  forall (frs : list Fragment) (x0 xend : Z),
    tilesRow y x0 frs xend ->
    x0 <= xend /\
    forall f, In f frs ->
      frag_y f = y /\ x0 <= frag_x f /\ 1 <= frag_len f /\
      frag_x f + frag_len f <= xend.
Proof.
  induction frs as [|g frs IH]; intros x0 xend Htiles; cbn [tilesRow] in Htiles.
  - subst xend. split; [lia | intros f []].
  - destruct Htiles as (Hgy & Hgx & Hglen & Hrest).
    destruct (IH _ _ Hrest) as [Hle Hin]. split; [lia|].
    intros f [<-|Hf]; [lia|].
    destruct (Hin f Hf) as (Hfy & Hfx & Hflen & Hfend). lia.
Qed.

Lemma tilesRow_covers (y : Z) :
  forall (frs : list Fragment) (x0 xend c : Z),
    tilesRow y x0 frs xend -> x0 <= c < xend ->
    exists f, In f frs /\ frag_x f <= c < frag_x f + frag_len f /\
      forall g, In g frs -> frag_x g <= c < frag_x g + frag_len g -> g = f.
Proof.
  induction frs as [|h frs IH]; intros x0 xend c Htiles Hc; cbn [tilesRow] in Htiles.
  - lia.
  - destruct Htiles as (Hhy & Hhx & Hhlen & Hrest).
    destruct (tilesRow_bounds _ _ _ _ Hrest) as [_ Hbounds].
    destruct (Z_lt_dec c (x0 + frag_len h)) as [Hhere|Hlater].
    + exists h. split; [left; reflexivity|]. split; [lia|].
      intros g [<-|Hg] Hgc; [reflexivity|]. destruct (Hbounds g Hg). lia.
    + destruct (IH _ _ c Hrest ltac:(lia)) as (f & Hf & Hfc & Huniq).
      exists f. split; [right; exact Hf|]. split; [exact Hfc|].
      intros g [<-|Hg] Hgc; [lia | apply Huniq; assumption].
Qed.

Lemma tilesRows_rows (lux rlx : Z) :
  forall (rows : list (list Fragment)) (y0 : Z),
    tilesRows lux rlx y0 rows ->
    forall f, In f (concat rows) ->
      y0 <= frag_y f < y0 + Z.of_nat (length rows).
Proof.
  induction rows as [|row rows IH]; intros y0 Htiles f Hf; cbn [tilesRows concat] in *.
  - destruct Hf.
  - destruct Htiles as [(x0 & xend & _ & _ & Hrow) Hrest].
    apply in_app_or in Hf. destruct Hf as [Hf|Hf].
    + destruct (tilesRow_bounds _ _ _ _ Hrow) as [_ Hb]. destruct (Hb f Hf) as (Hy & _).
      cbn [length]. lia.
    + specialize (IH _ Hrest f Hf). cbn [length]. lia.
Qed.

(** Every cell of the rows and columns tiled lies in one fragment, and in
    one only. *)
Lemma tilesRows_covers (lux rlx : Z) :
  forall (rows : list (list Fragment)) (y0 y c : Z),
    tilesRows lux rlx y0 rows ->
    y0 <= y < y0 + Z.of_nat (length rows) -> lux <= c <= rlx ->
    exists f, In f (concat rows) /\ frag_y f = y /\
      frag_x f <= c < frag_x f + frag_len f /\
      forall g, In g (concat rows) -> frag_y g = y ->
        frag_x g <= c < frag_x g + frag_len g -> g = f.
Proof.
  induction rows as [|row rows IH]; intros y0 y c Htiles Hy Hc;
    cbn [tilesRows concat length] in *.
  - lia.
  - destruct Htiles as [(x0 & xend & Hx0 & Hxend & Hrow) Hrest].
    destruct (tilesRow_bounds _ _ _ _ Hrow) as [_ Hb].
    destruct (Z.eq_dec y y0) as [->|Hne].
    + destruct (tilesRow_covers _ _ _ _ c Hrow ltac:(lia)) as (f & Hf & Hfc & Huniq).
      exists f. split; [apply in_or_app; left; exact Hf|].
      split; [apply (Hb f Hf)|]. split; [exact Hfc|].
      intros g Hg Hgy Hgc. apply in_app_or in Hg. destruct Hg as [Hg|Hg].
      * apply Huniq; assumption.
      * pose proof (tilesRows_rows _ _ _ _ Hrest g Hg). lia.
    + destruct (IH (y0 + 1) y c Hrest ltac:(lia) Hc) as (f & Hf & Hfy & Hfc & Huniq).
      exists f. split; [apply in_or_app; right; exact Hf|].
      split; [exact Hfy|]. split; [exact Hfc|].
      intros g Hg Hgy Hgc. apply in_app_or in Hg. destruct Hg as [Hg|Hg].
      * destruct (Hb g Hg) as (Hy0 & _). lia.
      * apply Huniq; assumption.
Qed.

(** X19.  On a well-formed display whose font is one pixel wide and high at
    least, and whose used extent holds a cell and has no double-height
    line, [paintContents] comes to its end for every
    rectangle without a read outside the image: it returns its fragments,
    more fuel for its loops gives the same fragments, the string of every
    fragment fits the buffer of [usedColumns] code points, and the two
    flags of a fragment are those of its first cell, the double-width flag
    being the probe at [qMin(loc(x,y)+1, image_size)]. *)
Theorem X19_paintContents_ends_and_reads_inside_the_image `{HeaderConstants}
    (d : TerminalDisplay) (img : list Character)
    (rect_left rect_top rect_right rect_bottom : Z) :
  wellFormed d -> image d = Some img ->
  0 < font_w (widget d) -> 0 < font_h (widget d) ->
  1 <= usedLines d -> 1 <= usedColumns d ->
  noDoubleHeight d (usedLines d) ->
  exists frags,
    paintContents d rect_left rect_top rect_right rect_bottom = Some frags /\
    (forall extra,
       paintContents_fuel d rect_left rect_top rect_right rect_bottom extra
       = Some frags) /\
    Forall (fragmentOfImage d img) frags.
Proof.
  intros Hwf Himg _ _ Hul Huc Hsingle.
  destruct (paintContents_rows d img rect_left rect_top rect_right rect_bottom
              Hwf Himg Hul Huc Hsingle) as (rows & Hfuel & _ & _ & Hall).
  exists (concat rows). split; [apply (Hfuel 0%nat)|]. split; [exact Hfuel | exact Hall].
Qed.

(** X20.  Under the same conditions the fragments [paintContents] draws
    are those of the rows [luy] to [rly], in order, and in every row they
    follow one another from column [lux], or the column before it, to
    beyond column [rlx]: every cell of the rows [luy .. rly] and the
    columns [lux .. rlx] lies in one fragment, and in one only. *)
Theorem X20_paintContents_draws_every_cell_once `{HeaderConstants}
    (d : TerminalDisplay) (img : list Character)
    (rect_left rect_top rect_right rect_bottom : Z) :
  wellFormed d -> image d = Some img ->
  0 < font_w (widget d) -> 0 < font_h (widget d) ->
  1 <= usedLines d -> 1 <= usedColumns d ->
  noDoubleHeight d (usedLines d) ->
  let lux := cellColumn d rect_left in
  let luy := cellLine d rect_top in
  let rlx := cellColumn d rect_right in
  let rly := cellLine d rect_bottom in
  exists rows,
    paintContents d rect_left rect_top rect_right rect_bottom = Some (concat rows) /\
    length rows = Z.to_nat (rly - luy + 1) /\
    tilesRows lux rlx luy rows /\
    forall y c, luy <= y <= rly -> lux <= c <= rlx ->
      exists f, In f (concat rows) /\ frag_y f = y /\
        frag_x f <= c < frag_x f + frag_len f /\
        forall g, In g (concat rows) -> frag_y g = y ->
          frag_x g <= c < frag_x g + frag_len g -> g = f.
Proof.
  intros Hwf Himg _ _ Hul Huc Hsingle lux luy rlx rly.
  destruct (paintContents_rows d img rect_left rect_top rect_right rect_bottom
              Hwf Himg Hul Huc Hsingle) as (rows & Hfuel & Hcount & Htiles & _).
  exists rows. split; [apply (Hfuel 0%nat)|]. split; [exact Hcount|].
  split; [exact Htiles|].
  intros y c Hy Hc.
  apply (tilesRows_covers _ _ _ _ y c Htiles); [|exact Hc].
  rewrite Hcount. subst lux luy rlx rly. lia.
Qed.

(* ------------------------------------------------------------------ *)
(** ** The history of terminal displays, continued *)

(** X21.  When the session of a display finishes, the display leaves a
    history without duplicates for good, all other displays stay in their
    order, and the display that is given the focus next is never the one
    that has just been closed. *)
Theorem X21_a_closed_display_never_gets_the_focus :
  forall (h : ViewManager.History) (view : ViewManager.DisplayId)
         (tab : list ViewManager.DisplayId),
    NoDup (ViewManager._terminalDisplayHistory h) ->
    exists h' choice,
      ViewManager.sessionFinished h view tab = Some (h', choice) /\
      ViewManager._terminalDisplayHistory h'
      = filter (fun td => negb (Nat.eqb td view)) (ViewManager._terminalDisplayHistory h) /\
      ViewManager._terminalDisplayHistoryIndex h'
      = ViewManager._terminalDisplayHistoryIndex h /\
      ~ In view (ViewManager._terminalDisplayHistory h') /\
      NoDup (ViewManager._terminalDisplayHistory h') /\
      choice <> ViewManager.SetFocus view /\
      choice <> ViewManager.SwitchTo view.
Proof.
  intros h view tab Hnodup.
  assert (Hfilter : forall l, NoDup l ->
            match ViewManager.removeFirst view l with
            | Some rest => rest = filter (fun td => negb (Nat.eqb td view)) l
            | None => l = filter (fun td => negb (Nat.eqb td view)) l
            end).
  { assert (Hkeep : forall l, ~ In view l ->
              filter (fun td => negb (Nat.eqb td view)) l = l).
    { induction l as [|a l IH]; intros Hnot; [reflexivity|]. cbn [filter].
      destruct (Nat.eqb a view) eqn:E; cbn [negb].
      - apply Nat.eqb_eq in E. subst a. destruct Hnot. left. reflexivity.
      - rewrite IH; [reflexivity|]. intros Hin. apply Hnot. right. exact Hin. }
    induction l as [|a l IH]; intros Hnd; [reflexivity|].
    inversion Hnd as [|a' l' Hnotin Hnd']; subst.
    cbn [ViewManager.removeFirst filter].
    destruct (Nat.eqb a view) eqn:E; cbn [negb].
    - apply Nat.eqb_eq in E. subst a. symmetry. apply Hkeep. exact Hnotin.
    - specialize (IH Hnd').
      destruct (ViewManager.removeFirst view l) as [rest|].
      + rewrite IH. reflexivity.
      + rewrite <- IH. reflexivity. }
  set (h' := ViewManager.reorder h view true).
  assert (Hlist : ViewManager._terminalDisplayHistory h'
                  = filter (fun td => negb (Nat.eqb td view))
                           (ViewManager._terminalDisplayHistory h)).
  { unfold h', ViewManager.reorder. rewrite andb_false_r.
    specialize (Hfilter _ Hnodup).
    destruct (ViewManager.removeFirst view (ViewManager._terminalDisplayHistory h));
      [cbn; exact Hfilter | exact Hfilter]. }
  assert (Hidx : ViewManager._terminalDisplayHistoryIndex h'
                 = ViewManager._terminalDisplayHistoryIndex h).
  { unfold h', ViewManager.reorder. rewrite andb_false_r.
    destruct (ViewManager.removeFirst view (ViewManager._terminalDisplayHistory h));
      reflexivity. }
  assert (Hgone : ~ In view (ViewManager._terminalDisplayHistory h')).
  { rewrite Hlist. intros Hin. apply filter_In in Hin. destruct Hin as [_ Hneq].
    rewrite Nat.eqb_refl in Hneq. discriminate. }
  exists h', (ViewManager.focusAnotherTerminal h' tab).
  split; [reflexivity|]. split; [exact Hlist|]. split; [exact Hidx|].
  split; [exact Hgone|].
  split; [rewrite Hlist; apply NoDup_filter; exact Hnodup|].
  unfold ViewManager.focusAnotherTerminal.
  destruct (1 <? length tab)%nat.
  - match goal with
    | |- context [find ?f ?l] => destruct (find f l) as [item|] eqn:Efind
    end.
    + apply find_some in Efind. destruct Efind as [Hin _].
      split; [|discriminate]. intros [= ->]. contradiction.
    + split; discriminate.
  - destruct (ViewManager._terminalDisplayHistory h') as [|first rest] eqn:El.
    + split; discriminate.
    + split; [discriminate|]. intros [= ->]. apply Hgone. left. reflexivity.
Qed.

(** X22.  The walking index is not adjusted when a display is removed: if
    the walk stands at the last entry of a history without duplicates and
    a display of the history is closed, the index is left beyond the end of
    the list, and the end of the walk, which reads the list at the index,
    fails. *)
Theorem X22_closing_a_display_during_a_walk_can_strand_the_index :
  forall (h : ViewManager.History) (view : ViewManager.DisplayId),
    In view (ViewManager._terminalDisplayHistory h) ->
    ViewManager._terminalDisplayHistoryIndex h = ViewManager.count h - 1 ->
    exists h',
      ViewManager.updateTerminalDisplayHistory h (Some view) true = Some h' /\
      ViewManager._terminalDisplayHistoryIndex h' = ViewManager.count h' /\
      ViewManager.at_index h' (ViewManager._terminalDisplayHistoryIndex h') = None /\
      forall remove, ViewManager.updateTerminalDisplayHistory h' None remove = None.
Proof.
  intros h view Hin Hidx.
  destruct (ViewManagerFacts.removeFirst_found view _ Hin) as (l1 & l2 & Hl & _ & Hrem).
  unfold ViewManager.updateTerminalDisplayHistory at 1. unfold ViewManager.reorder.
  rewrite andb_false_r, Hrem.
  eexists. split; [reflexivity|].
  assert (Hcount : ViewManager._terminalDisplayHistoryIndex h
                   = Z.of_nat (length (l1 ++ l2))).
  { rewrite Hidx. unfold ViewManager.count.
    transitivity (Z.of_nat (length (l1 ++ view :: l2)) - 1).
    - f_equal. f_equal. f_equal. exact Hl.
    - rewrite !length_app. cbn [length]. lia. }
  split; [exact Hcount|].
  assert (Hnone : ViewManager.at_index
                    (ViewManager.mkHistory (l1 ++ l2)
                       (ViewManager._terminalDisplayHistoryIndex h))
                    (ViewManager._terminalDisplayHistoryIndex h) = None).
  { apply ViewManagerFacts.at_index_out_of_range. right.
    unfold ViewManager.count. cbn [ViewManager._terminalDisplayHistory]. lia. }
  split; [exact Hnone|].
  intros remove. unfold ViewManager.updateTerminalDisplayHistory.
  cbn [ViewManager._terminalDisplayHistoryIndex ViewManager._terminalDisplayHistory].
  replace (0 <=? ViewManager._terminalDisplayHistoryIndex h) with true
    by (symmetry; apply Z.leb_le; lia).
  cbn [ViewManager._terminalDisplayHistoryIndex ViewManager._terminalDisplayHistory] in Hnone.
  rewrite Hnone. reflexivity.
Qed.

(* ------------------------------------------------------------------ *)
(** ** Selecting with the mouse *)

Section SelectionFacts.
Variable LINE_WRAPPED : Z.
Variable charClass : Z -> Z.
Variables (d : TerminalDisplay) (img : list Character).
Hypothesis Hwf : wellFormed d.
Hypothesis Himg : image d = Some img.

Local Abbreviation wrapped := (lineWrapped LINE_WRAPPED d).
Local Abbreviation classAt := (fun j => charClass (character (cell_at img j))).

Lemma lineWrapped_inside (y : Z) :
  0 <= y < Z.of_nat (length (lineProperties d)) -> exists b, wrapped y = Some b.
Proof.
  intros Hy. unfold lineWrapped.
  replace (0 <=? y) with true by (symmetry; apply Z.leb_le; lia).
  replace (y <? Z.of_nat (length (lineProperties d))) with true
    by (symmetry; apply Z.ltb_lt; lia).
  eexists. reflexivity.
Qed.

(** *** The lines of a wrapped paragraph *)

Lemma findLineStart_spec :
  forall (n : nat) (y : Z),
    Z.to_nat y = n -> 0 <= y -> y <= Z.of_nat (length (lineProperties d)) ->
    exists y1,
      (forall fuel, (n <= fuel)%nat -> findLineStart LINE_WRAPPED d fuel y = Some y1) /\
      0 <= y1 <= y /\
      (forall y', y1 <= y' < y -> wrapped y' = Some true) /\
      (y1 = 0 \/ wrapped (y1 - 1) = Some false).
Proof.
  induction n as [|n IH]; intros y Hn Hy Hlen.
  - assert (y = 0) by lia. subst y. exists 0.
    split; [|split; [lia | split; [intros y' Hy'; lia | left; reflexivity]]].
    intros [|fuel] _; reflexivity.
  - destruct (lineWrapped_inside (y - 1) ltac:(lia)) as [b Hb].
    destruct b.
    + destruct (IH (y - 1) ltac:(lia) ltac:(lia) ltac:(lia))
        as (y1 & Hfuel & Hrange & Hrows & Hstop).
      exists y1. split; [|split; [lia | split; [|exact Hstop]]].
      * intros [|fuel] Hf; [lia|]. cbn [findLineStart].
        replace (0 <? y) with true by (symmetry; apply Z.ltb_lt; lia).
        rewrite Hb. apply Hfuel. lia.
      * intros y' Hy'. destruct (Z.eq_dec y' (y - 1)) as [->|Hne]; [exact Hb|].
        apply Hrows. lia.
    + exists y. split; [|split; [lia | split; [intros y' Hy'; lia | right; exact Hb]]].
      intros [|fuel] Hf; [lia|]. cbn [findLineStart].
      replace (0 <? y) with true by (symmetry; apply Z.ltb_lt; lia).
      rewrite Hb. reflexivity.
Qed.

Lemma findLineEnd_spec :
  forall (n : nat) (y : Z),
    Z.to_nat (lines d - 1 - y) = n -> 0 <= y <= lines d - 1 ->
    lines d - 1 <= Z.of_nat (length (lineProperties d)) ->
    exists y3,
      (forall fuel, (n <= fuel)%nat -> findLineEnd LINE_WRAPPED d fuel y = Some y3) /\
      y <= y3 <= lines d - 1 /\
      (forall y', y <= y' < y3 -> wrapped y' = Some true) /\
      (y3 = lines d - 1 \/ wrapped y3 = Some false).
Proof.
  induction n as [|n IH]; intros y Hn Hy Hlen.
  - assert (y = lines d - 1) by lia. exists y.
    split; [|split; [lia | split; [intros y' Hy'; lia | left; assumption]]].
    intros [|fuel] _; [reflexivity|]. cbn [findLineEnd].
    replace (y <? lines d - 1) with false by (symmetry; apply Z.ltb_ge; lia).
    reflexivity.
  - destruct (lineWrapped_inside y ltac:(lia)) as [b Hb].
    destruct b.
    + destruct (IH (y + 1) ltac:(lia) ltac:(lia) Hlen)
        as (y3 & Hfuel & Hrange & Hrows & Hstop).
      exists y3. split; [|split; [lia | split; [|exact Hstop]]].
      * intros [|fuel] Hf; [lia|]. cbn [findLineEnd].
        replace (y <? lines d - 1) with true by (symmetry; apply Z.ltb_lt; lia).
        rewrite Hb. apply Hfuel. lia.
      * intros y' Hy'. destruct (Z.eq_dec y' y) as [->|Hne]; [exact Hb|].
        apply Hrows. lia.
    + exists y. split; [|split; [lia | split; [intros y' Hy'; lia | right; exact Hb]]].
      intros [|fuel] Hf; [lia|]. cbn [findLineEnd].
      replace (y <? lines d - 1) with true by (symmetry; apply Z.ltb_lt; lia).
      rewrite Hb. reflexivity.
Qed.

(** *** The boundaries of a word *)

(** The index [i] of a position is that of its column and line. *)
Local Abbreviation onGrid :=
  (fun s => ws_i s = loc d (ws_x s) (ws_y s) /\
            0 <= ws_x s < columns d /\ 0 <= ws_y s < lines d).

Lemma findWordStart_spec (selClass : Z) :
  forall (n : nat) (s : WordScan),
    Z.to_nat (ws_i s) = n -> onGrid s ->
    ws_y s <= Z.of_nat (length (lineProperties d)) ->
    exists s',
      (forall fuel, (n <= fuel)%nat ->
         findWordStart LINE_WRAPPED charClass d img selClass (columns d - 1) fuel s
         = Some s') /\
      onGrid s' /\ ws_y s' <= ws_y s /\ ws_i s' <= ws_i s /\
      (forall j, ws_i s' <= j < ws_i s -> classAt j = selClass) /\
      (forall y, ws_y s' <= y < ws_y s -> wrapped y = Some true) /\
      ((ws_x s' = 0 /\ (ws_y s' = 0 \/ wrapped (ws_y s' - 1) = Some false))
       \/ classAt (ws_i s' - 1) <> selClass).
Proof.
  destruct (image_shape d img Hwf Himg) as (Hl & Hc & Hul & Huc & Hsize & Hlen).
  induction n as [|n IH]; intros s Hn (Hi & Hx & Hy) Hlp.
  - assert (Hzero : ws_x s = 0 /\ ws_y s = 0) by (unfold loc in Hi; nia).
    destruct Hzero as [Hx0 Hy0].
    exists s. split.
    + intros [|fuel] _; [reflexivity|]. cbn [findWordStart]. unfold wordStartGoesOn.
      rewrite Hx0, Hy0. reflexivity.
    + split; [auto|]. split; [lia|]. split; [lia|].
      split; [intros j Hj; lia|]. split; [intros y Hy'; lia|]. left. auto.
  - assert (Hstay :
              wordStartGoesOn LINE_WRAPPED charClass d img selClass s = Some false ->
              ((ws_x s = 0 /\ (ws_y s = 0 \/ wrapped (ws_y s - 1) = Some false))
               \/ classAt (ws_i s - 1) <> selClass) ->
              exists s',
                (forall fuel, (S n <= fuel)%nat ->
                   findWordStart LINE_WRAPPED charClass d img selClass (columns d - 1)
                                 fuel s = Some s') /\
                onGrid s' /\ ws_y s' <= ws_y s /\ ws_i s' <= ws_i s /\
                (forall j, ws_i s' <= j < ws_i s -> classAt j = selClass) /\
                (forall y, ws_y s' <= y < ws_y s -> wrapped y = Some true) /\
                ((ws_x s' = 0 /\ (ws_y s' = 0 \/ wrapped (ws_y s' - 1) = Some false))
                 \/ classAt (ws_i s' - 1) <> selClass)).
    { intros Hgo Hcond. exists s. split.
      - intros [|fuel] Hf; [lia|]. cbn [findWordStart]. rewrite Hgo. reflexivity.
      - split; [auto|]. split; [lia|]. split; [lia|].
        split; [intros j Hj; lia|]. split; [intros y Hy'; lia | exact Hcond]. }
    assert (Hmove : forall s1,
              wordStartGoesOn LINE_WRAPPED charClass d img selClass s = Some true ->
              s1 = (if 0 <? ws_x s
                    then mkWordScan (ws_i s - 1) (ws_x s - 1) (ws_y s)
                    else mkWordScan (ws_i s - 1) (columns d - 1) (ws_y s - 1)) ->
              ws_i s1 = ws_i s - 1 -> onGrid s1 -> ws_y s1 <= ws_y s ->
              classAt (ws_i s - 1) = selClass ->
              (forall y, ws_y s1 <= y < ws_y s -> wrapped y = Some true) ->
              exists s',
                (forall fuel, (S n <= fuel)%nat ->
                   findWordStart LINE_WRAPPED charClass d img selClass (columns d - 1)
                                 fuel s = Some s') /\
                onGrid s' /\ ws_y s' <= ws_y s /\ ws_i s' <= ws_i s /\
                (forall j, ws_i s' <= j < ws_i s -> classAt j = selClass) /\
                (forall y, ws_y s' <= y < ws_y s -> wrapped y = Some true) /\
                ((ws_x s' = 0 /\ (ws_y s' = 0 \/ wrapped (ws_y s' - 1) = Some false))
                 \/ classAt (ws_i s' - 1) <> selClass)).
    { intros s1 Hgo Hs1 Hi1 Hgrid1 Hy1 Hclass Hrows1.
      destruct (IH s1 ltac:(lia) Hgrid1 ltac:(lia))
        as (s' & Hfuel & Hgrid' & Hy' & Hi' & Hcells & Hrows & Hstop).
      exists s'. split.
      - intros [|fuel] Hf; [lia|]. cbn [findWordStart]. rewrite Hgo, <- Hs1.
        apply Hfuel. lia.
      - split; [exact Hgrid'|]. split; [lia|]. split; [lia|]. split; [|split].
        + intros j Hj. destruct (Z.eq_dec j (ws_i s - 1)) as [->|Hne]; [exact Hclass|].
          apply Hcells. lia.
        + intros y Hyy. destruct (Z_lt_dec y (ws_y s1)) as [Hlt|Hge].
          * apply Hrows. lia.
          * apply Hrows1. lia.
        + exact Hstop. }
    assert (Hread : 1 <= ws_i s ->
              readCell img (ws_i s - 1) = Some (cell_at img (ws_i s - 1))).
    { intros Hpos. apply (readCell_inside d img Hwf Himg). unfold loc in Hi. nia. }
    destruct (0 <? ws_x s) eqn:Ex.
    + apply Z.ltb_lt in Ex.
      assert (Hpos : 1 <= ws_i s) by (unfold loc in Hi; nia).
      destruct (Z.eq_dec (classAt (ws_i s - 1)) selClass) as [Heq|Hneq].
      * apply (Hmove (mkWordScan (ws_i s - 1) (ws_x s - 1) (ws_y s))).
        -- unfold wordStartGoesOn.
           replace (0 <? ws_x s) with true by (symmetry; apply Z.ltb_lt; lia).
           rewrite (Hread Hpos). f_equal. apply Z.eqb_eq. exact Heq.
        -- replace (0 <? ws_x s) with true by (symmetry; apply Z.ltb_lt; lia).
           reflexivity.
        -- reflexivity.
        -- cbn [ws_i ws_x ws_y]. unfold loc in *. split; [lia|]. split; lia.
        -- cbn [ws_y]. lia.
        -- exact Heq.
        -- cbn [ws_y]. intros y Hyy. lia.
      * apply Hstay; [|right; exact Hneq].
        unfold wordStartGoesOn.
        replace (0 <? ws_x s) with true by (symmetry; apply Z.ltb_lt; lia).
        rewrite (Hread Hpos). f_equal. apply Z.eqb_neq. exact Hneq.
    + apply Z.ltb_ge in Ex. assert (Hx0 : ws_x s = 0) by lia.
      destruct (0 <? ws_y s) eqn:Ey.
      * apply Z.ltb_lt in Ey.
        assert (Hpos : 1 <= ws_i s) by (unfold loc in Hi; nia).
        destruct (lineWrapped_inside (ws_y s - 1) ltac:(lia)) as [b Hb].
        destruct b.
        -- destruct (Z.eq_dec (classAt (ws_i s - 1)) selClass) as [Heq|Hneq].
           ++ apply (Hmove (mkWordScan (ws_i s - 1) (columns d - 1) (ws_y s - 1))).
              ** unfold wordStartGoesOn.
                 replace (0 <? ws_x s) with false by (symmetry; apply Z.ltb_ge; lia).
                 replace (0 <? ws_y s) with true by (symmetry; apply Z.ltb_lt; lia).
                 rewrite Hb, (Hread Hpos). f_equal. apply Z.eqb_eq. exact Heq.
              ** replace (0 <? ws_x s) with false by (symmetry; apply Z.ltb_ge; lia).
                 reflexivity.
              ** reflexivity.
              ** cbn [ws_i ws_x ws_y]. unfold loc in *. split; [lia|]. split; lia.
              ** cbn [ws_y]. lia.
              ** exact Heq.
              ** cbn [ws_y]. intros y Hyy. assert (y = ws_y s - 1) by lia. subst y.
                 exact Hb.
           ++ apply Hstay; [|right; exact Hneq].
              unfold wordStartGoesOn.
              replace (0 <? ws_x s) with false by (symmetry; apply Z.ltb_ge; lia).
              replace (0 <? ws_y s) with true by (symmetry; apply Z.ltb_lt; lia).
              rewrite Hb, (Hread Hpos). f_equal. apply Z.eqb_neq. exact Hneq.
        -- apply Hstay; [|left; split; [exact Hx0 | right; exact Hb]].
           unfold wordStartGoesOn.
           replace (0 <? ws_x s) with false by (symmetry; apply Z.ltb_ge; lia).
           replace (0 <? ws_y s) with true by (symmetry; apply Z.ltb_lt; lia).
           rewrite Hb. reflexivity.
      * apply Z.ltb_ge in Ey.
        apply Hstay; [|left; split; [exact Hx0 | left; lia]].
        unfold wordStartGoesOn.
        replace (0 <? ws_x s) with false by (symmetry; apply Z.ltb_ge; lia).
        replace (0 <? ws_y s) with false by (symmetry; apply Z.ltb_ge; lia).
        reflexivity.
Qed.

Hypothesis Hfull : usedColumns d = columns d.
Hypothesis Hproperties : usedLines d - 1 <= Z.of_nat (length (lineProperties d)).

Local Abbreviation onUsedGrid :=
  (fun s => ws_i s = loc d (ws_x s) (ws_y s) /\
            0 <= ws_x s < usedColumns d /\ 0 <= ws_y s < usedLines d).

Lemma findWordEnd_spec (selClass : Z) :
  forall (n : nat) (s : WordScan),
    Z.to_nat (image_size d - 1 - ws_i s) = n -> onUsedGrid s ->
    exists s',
      (forall fuel, (n <= fuel)%nat ->
         findWordEnd LINE_WRAPPED charClass d img selClass fuel s = Some s') /\
      onUsedGrid s' /\ ws_y s <= ws_y s' /\ ws_i s <= ws_i s' /\
      (forall j, ws_i s < j <= ws_i s' -> classAt j = selClass) /\
      (forall y, ws_y s <= y < ws_y s' -> wrapped y = Some true) /\
      ((ws_x s' = usedColumns d - 1 /\
        (ws_y s' = usedLines d - 1 \/ wrapped (ws_y s') = Some false))
       \/ classAt (ws_i s' + 1) <> selClass).
Proof.
  destruct (image_shape d img Hwf Himg) as (Hl & Hc & Hul & Huc & Hsize & Hlen).
  assert (Hstay : forall (n : nat) (s : WordScan),
            onUsedGrid s ->
            wordEndGoesOn LINE_WRAPPED charClass d img selClass s = Some false ->
            ((ws_x s = usedColumns d - 1 /\
              (ws_y s = usedLines d - 1 \/ wrapped (ws_y s) = Some false))
             \/ classAt (ws_i s + 1) <> selClass) ->
            exists s',
              (forall fuel, (n <= fuel)%nat ->
                 findWordEnd LINE_WRAPPED charClass d img selClass fuel s = Some s') /\
              onUsedGrid s' /\ ws_y s <= ws_y s' /\ ws_i s <= ws_i s' /\
              (forall j, ws_i s < j <= ws_i s' -> classAt j = selClass) /\
              (forall y, ws_y s <= y < ws_y s' -> wrapped y = Some true) /\
              ((ws_x s' = usedColumns d - 1 /\
                (ws_y s' = usedLines d - 1 \/ wrapped (ws_y s') = Some false))
               \/ classAt (ws_i s' + 1) <> selClass)).
  { intros n s Hgrid Hgo Hcond. exists s. split.
    - intros [|fuel] Hf; [reflexivity|]. cbn [findWordEnd]. rewrite Hgo. reflexivity.
    - split; [exact Hgrid|]. split; [lia|]. split; [lia|].
      split; [intros j Hj; lia|]. split; [intros y Hy'; lia | exact Hcond]. }
  induction n as [|n IH]; intros s Hn Hgrid; pose proof Hgrid as (Hi & Hx & Hy).
  - assert (Hlast : ws_x s = usedColumns d - 1 /\ ws_y s = usedLines d - 1)
      by (unfold loc in Hi; nia).
    destruct Hlast as [Hxl Hyl].
    apply Hstay; [exact Hgrid | | left; split; [exact Hxl | left; exact Hyl]].
    unfold wordEndGoesOn.
    replace (ws_x s <? usedColumns d - 1) with false by (symmetry; apply Z.ltb_ge; lia).
    replace (ws_y s <? usedLines d - 1) with false by (symmetry; apply Z.ltb_ge; lia).
    reflexivity.
  - assert (Hmove : forall s1,
              wordEndGoesOn LINE_WRAPPED charClass d img selClass s = Some true ->
              s1 = (if ws_x s <? usedColumns d - 1
                    then mkWordScan (ws_i s + 1) (ws_x s + 1) (ws_y s)
                    else mkWordScan (ws_i s + 1) 0 (ws_y s + 1)) ->
              ws_i s1 = ws_i s + 1 -> onUsedGrid s1 -> ws_y s <= ws_y s1 ->
              classAt (ws_i s + 1) = selClass ->
              (forall y, ws_y s <= y < ws_y s1 -> wrapped y = Some true) ->
              exists s',
                (forall fuel, (S n <= fuel)%nat ->
                   findWordEnd LINE_WRAPPED charClass d img selClass fuel s = Some s') /\
                onUsedGrid s' /\ ws_y s <= ws_y s' /\ ws_i s <= ws_i s' /\
                (forall j, ws_i s < j <= ws_i s' -> classAt j = selClass) /\
                (forall y, ws_y s <= y < ws_y s' -> wrapped y = Some true) /\
                ((ws_x s' = usedColumns d - 1 /\
                  (ws_y s' = usedLines d - 1 \/ wrapped (ws_y s') = Some false))
                 \/ classAt (ws_i s' + 1) <> selClass)).
    { intros s1 Hgo Hs1 Hi1 Hgrid1 Hy1 Hclass Hrows1.
      destruct (IH s1 ltac:(lia) Hgrid1)
        as (s' & Hfuel & Hgrid' & Hy' & Hi' & Hcells & Hrows & Hstop).
      exists s'. split.
      - intros [|fuel] Hf; [lia|]. cbn [findWordEnd]. rewrite Hgo, <- Hs1.
        apply Hfuel. lia.
      - split; [exact Hgrid'|]. split; [lia|]. split; [lia|]. split; [|split].
        + intros j Hj. destruct (Z.eq_dec j (ws_i s + 1)) as [->|Hne]; [exact Hclass|].
          apply Hcells. lia.
        + intros y Hyy. destruct (Z_lt_dec y (ws_y s1)) as [Hlt|Hge].
          * apply Hrows1. lia.
          * apply Hrows. lia.
        + exact Hstop. }
    assert (Hread : ws_i s + 1 <= image_size d ->
              readCell img (ws_i s + 1) = Some (cell_at img (ws_i s + 1))).
    { intros Hpos. apply (readCell_inside d img Hwf Himg). unfold loc in Hi. nia. }
    assert (Hnext : ws_i s + 1 <= image_size d) by lia.
    destruct (ws_x s <? usedColumns d - 1) eqn:Ex.
    + apply Z.ltb_lt in Ex.
      destruct (Z.eq_dec (classAt (ws_i s + 1)) selClass) as [Heq|Hneq].
      * apply (Hmove (mkWordScan (ws_i s + 1) (ws_x s + 1) (ws_y s))).
        -- unfold wordEndGoesOn.
           replace (ws_x s <? usedColumns d - 1) with true
             by (symmetry; apply Z.ltb_lt; lia).
           rewrite (Hread Hnext). f_equal. apply Z.eqb_eq. exact Heq.
        -- replace (ws_x s <? usedColumns d - 1) with true
             by (symmetry; apply Z.ltb_lt; lia).
           reflexivity.
        -- reflexivity.
        -- cbn [ws_i ws_x ws_y]. unfold loc in *. split; [lia|]. split; lia.
        -- cbn [ws_y]. lia.
        -- exact Heq.
        -- cbn [ws_y]. intros y Hyy. lia.
      * apply (Hstay (S n)); [exact Hgrid | | right; exact Hneq].
        unfold wordEndGoesOn.
        replace (ws_x s <? usedColumns d - 1) with true
          by (symmetry; apply Z.ltb_lt; lia).
        rewrite (Hread Hnext). f_equal. apply Z.eqb_neq. exact Hneq.
    + apply Z.ltb_ge in Ex. assert (Hxl : ws_x s = usedColumns d - 1) by lia.
      destruct (ws_y s <? usedLines d - 1) eqn:Ey.
      * apply Z.ltb_lt in Ey.
        destruct (lineWrapped_inside (ws_y s) ltac:(lia)) as [b Hb].
        destruct b.
        -- destruct (Z.eq_dec (classAt (ws_i s + 1)) selClass) as [Heq|Hneq].
           ++ apply (Hmove (mkWordScan (ws_i s + 1) 0 (ws_y s + 1))).
              ** unfold wordEndGoesOn.
                 replace (ws_x s <? usedColumns d - 1) with false
                   by (symmetry; apply Z.ltb_ge; lia).
                 replace (ws_y s <? usedLines d - 1) with true
                   by (symmetry; apply Z.ltb_lt; lia).
                 rewrite Hb, (Hread Hnext). f_equal. apply Z.eqb_eq. exact Heq.
              ** replace (ws_x s <? usedColumns d - 1) with false
                   by (symmetry; apply Z.ltb_ge; lia).
                 reflexivity.
              ** reflexivity.
              ** cbn [ws_i ws_x ws_y]. unfold loc in *. split; [lia|]. split; lia.
              ** cbn [ws_y]. lia.
              ** exact Heq.
              ** cbn [ws_y]. intros y Hyy. assert (y = ws_y s) by lia. subst y.
                 exact Hb.
           ++ apply (Hstay (S n)); [exact Hgrid | | right; exact Hneq].
              unfold wordEndGoesOn.
              replace (ws_x s <? usedColumns d - 1) with false
                by (symmetry; apply Z.ltb_ge; lia).
              replace (ws_y s <? usedLines d - 1) with true
                by (symmetry; apply Z.ltb_lt; lia).
              rewrite Hb, (Hread Hnext). f_equal. apply Z.eqb_neq. exact Hneq.
        -- apply (Hstay (S n));
             [exact Hgrid | | left; split; [exact Hxl | right; exact Hb]].
           unfold wordEndGoesOn.
           replace (ws_x s <? usedColumns d - 1) with false
             by (symmetry; apply Z.ltb_ge; lia).
           replace (ws_y s <? usedLines d - 1) with true
             by (symmetry; apply Z.ltb_lt; lia).
           rewrite Hb. reflexivity.
      * apply Z.ltb_ge in Ey.
        apply (Hstay (S n)); [exact Hgrid | | left; split; [exact Hxl | left; lia]].
        unfold wordEndGoesOn.
        replace (ws_x s <? usedColumns d - 1) with false
          by (symmetry; apply Z.ltb_ge; lia).
        replace (ws_y s <? usedLines d - 1) with false
          by (symmetry; apply Z.ltb_ge; lia).
        reflexivity.
Qed.
End SelectionFacts.

Lemma characterPosition_cases (d : TerminalDisplay) (px py : Z) :
  1 <= usedLines d -> 1 <= usedColumns d ->
  exists line col,
    characterPosition d px py = (line, col) /\
    0 <= line < usedLines d /\ 0 <= col < usedColumns d.
Proof.
  intros Hl Hc. unfold characterPosition. cbv zeta.
  eexists. eexists. split; [reflexivity|].
  repeat match goal with
         | |- context [if ?b then _ else _] => destruct b eqn:?
         end;
  rewrite ?Z.ltb_lt, ?Z.ltb_ge, ?Z.leb_le, ?Z.leb_gt in *; lia.
Qed.

(** X23.  A double click selects the word under the pointer: on a
    well-formed display with an image, a font of at least one pixel each
    way, at least one line and one column in use, the used width the full
    width and line properties for the used lines but the last, the searches
    end whatever their fuel, and the selection runs from a cell at
    or before the clicked one to a cell at or after it, every cell between
    the two has the character class of the clicked cell, a row boundary is
    crossed only where the line is wrapped, and the word is as long as can
    be: it starts at column 0 of a line that does not continue a wrapped
    line, or after a cell of another class, and it ends at the last used
    column of a line that is not wrapped, or of the last used line, or
    before a cell of another class.  A final [@] is left out when the end
    column lies right of the start column. *)
Theorem X23_double_click_selects_the_word_under_the_pointer
    (LINE_WRAPPED : Z) (charClass : Z -> Z)
    (d : TerminalDisplay) (img : list Character) (px py : Z) :
  wellFormed d -> image d = Some img ->
  0 < font_w (widget d) -> 0 < font_h (widget d) ->
  1 <= usedLines d -> 1 <= usedColumns d ->
  usedColumns d = columns d ->
  usedLines d - 1 <= Z.of_nat (length (lineProperties d)) ->
  exists line col bx by' ex ey,
    characterPosition d px py = (line, col) /\
    (forall extra,
       mouseDoubleClickEvent LINE_WRAPPED charClass d px py extra
       = Some ((bx, by'),
               (if (character (cell_at img (loc d ex ey)) =? 64) && (0 <? ex - bx)
                then ex - 1 else ex, ey))) /\
    0 <= bx < usedColumns d /\ 0 <= ex < usedColumns d /\
    0 <= by' <= line /\ line <= ey < usedLines d /\
    loc d bx by' <= loc d col line <= loc d ex ey /\
    (forall j, loc d bx by' <= j <= loc d ex ey ->
       charClass (character (cell_at img j))
       = charClass (character (cell_at img (loc d col line)))) /\
    (forall y, by' <= y < ey -> lineWrapped LINE_WRAPPED d y = Some true) /\
    ((bx = 0 /\ (by' = 0 \/ lineWrapped LINE_WRAPPED d (by' - 1) = Some false))
     \/ charClass (character (cell_at img (loc d bx by' - 1)))
        <> charClass (character (cell_at img (loc d col line)))) /\
    ((ex = usedColumns d - 1 /\
      (ey = usedLines d - 1 \/ lineWrapped LINE_WRAPPED d ey = Some false))
     \/ charClass (character (cell_at img (loc d ex ey + 1)))
        <> charClass (character (cell_at img (loc d col line)))).
Proof.
  intros Hwf Himg _ _ Hul Huc Hfull Hlp.
  destruct (image_shape d img Hwf Himg) as (Hl & Hc & Hule & Huce & Hsize & Hlen).
  destruct (characterPosition_cases d px py Hul Huc) as (line & col & Hpos & Hline & Hcol).
  set (i0 := loc d col line).
  set (selClass := charClass (character (cell_at img i0))).
  assert (Hi0 : 0 <= i0 < image_size d) by (unfold i0, loc; nia).
  destruct (findWordStart_spec LINE_WRAPPED charClass d img Hwf Himg selClass
              (Z.to_nat i0) (mkWordScan i0 col line) eq_refl)
    as (bgn & Hbgn & (Hbi & Hbx & Hby) & Hby' & Hbi' & Hbcells & Hbrows & Hbstop).
  { cbn [ws_i ws_x ws_y]. split; [reflexivity|]. split; lia. }
  { cbn [ws_y]. lia. }
  destruct (findWordEnd_spec LINE_WRAPPED charClass d img Hwf Himg Hfull Hlp selClass
              (Z.to_nat (image_size d - 1 - i0)) (mkWordScan i0 col line) eq_refl)
    as (fin & Hfin & (Hfi & Hfx & Hfy) & Hfy' & Hfi' & Hfcells & Hfrows & Hfstop).
  { cbn [ws_i ws_x ws_y]. split; [reflexivity|]. split; lia. }
  cbn [ws_i ws_x ws_y] in *.
  exists line, col, (ws_x bgn), (ws_y bgn), (ws_x fin), (ws_y fin).
  split; [exact Hpos|]. split.
  - intros extra. unfold mouseDoubleClickEvent. rewrite Himg, Hpos.
    fold i0. rewrite (readCell_inside d img Hwf Himg i0) by lia.
    cbv zeta. fold selClass. rewrite Hfull.
    rewrite Hbgn by lia. rewrite Hfin by lia.
    rewrite (readCell_inside d img Hwf Himg (ws_i fin)) by (unfold loc in Hfi; nia).
    rewrite Hfi. reflexivity.
  - rewrite <- Hbi, <- Hfi. fold i0.
    split; [lia|]. split; [lia|]. split; [lia|]. split; [lia|]. split; [lia|].
    split; [|split; [|split]].
    + intros j Hj. fold selClass.
      destruct (Z_lt_dec j i0) as [Hlt|Hge]; [apply Hbcells; lia|].
      destruct (Z.eq_dec j i0) as [->|Hne]; [reflexivity | apply Hfcells; lia].
    + intros y Hy. destruct (Z_lt_dec y line) as [Hlt|Hge];
        [apply Hbrows; lia | apply Hfrows; lia].
    + exact Hbstop.
    + exact Hfstop.
Qed.

(** X24.  A triple click selects the whole wrapped paragraph of the line
    under the pointer: on a well-formed display with an image, a font of at
    least one pixel each way, at least one line and one column in use and
    line properties for the lines of the grid but the last, the searches end
    whatever their fuel, and the selection starts in the first line at or above
    the clicked one that does not continue a wrapped line, and ends at the
    last column of the first line at or below it that is not wrapped, or of
    the last line of the grid; every line between the two is wrapped.  The
    start column is 0, or, when the selection is cut to the beginning of
    the line, the column in that first line where the cells begin to have
    the class of the cell in the clicked column. *)
Theorem X24_triple_click_selects_the_wrapped_lines
    (LINE_WRAPPED : Z) (charClass : Z -> Z)
    (d : TerminalDisplay) (img : list Character)
    (cuttobeginningofline : bool) (px py : Z) :
  wellFormed d -> image d = Some img ->
  0 < font_w (widget d) -> 0 < font_h (widget d) ->
  1 <= usedLines d -> 1 <= usedColumns d ->
  lines d - 1 <= Z.of_nat (length (lineProperties d)) ->
  exists line col x y1 y3,
    characterPosition d px py = (line, col) /\
    (forall extra,
       mouseTripleClickEvent LINE_WRAPPED charClass d cuttobeginningofline px py extra
       = Some ((x, y1), (columns d - 1, y3))) /\
    0 <= y1 <= line /\ line <= y3 <= lines d - 1 /\
    (forall y, y1 <= y < y3 -> lineWrapped LINE_WRAPPED d y = Some true) /\
    (y1 = 0 \/ lineWrapped LINE_WRAPPED d (y1 - 1) = Some false) /\
    (y3 = lines d - 1 \/ lineWrapped LINE_WRAPPED d y3 = Some false) /\
    (cuttobeginningofline = false -> x = 0) /\
    (cuttobeginningofline = true ->
     0 <= x <= col /\
     (forall c, x <= c <= col ->
        charClass (character (cell_at img (loc d c y1)))
        = charClass (character (cell_at img (loc d col y1)))) /\
     (x = 0 \/ charClass (character (cell_at img (loc d (x - 1) y1)))
               <> charClass (character (cell_at img (loc d col y1))))).
Proof.
  intros Hwf Himg _ _ Hul Huc Hlp.
  destruct (image_shape d img Hwf Himg) as (Hl & Hc & Hule & Huce & Hsize & Hlen).
  destruct (characterPosition_cases d px py Hul Huc) as (line & col & Hpos & Hline & Hcol).
  destruct (findLineStart_spec LINE_WRAPPED d (Z.to_nat line) line eq_refl
              ltac:(lia) ltac:(lia)) as (y1 & Hstart & Hy1 & Hrows1 & Hstop1).
  destruct (findLineEnd_spec LINE_WRAPPED d (Z.to_nat (lines d - 1 - y1)) y1 eq_refl
              ltac:(lia) Hlp) as (y3 & Hend & Hy3 & Hrows3 & Hstop3).
  assert (Hline3 : line <= y3).
  { destruct (Z_le_dec line y3) as [Hle|Hgt]; [exact Hle|].
    destruct Hstop3 as [Hlast|Hnot]; [lia|].
    rewrite (Hrows1 y3) in Hnot by lia. discriminate. }
  destruct cuttobeginningofline.
  - set (i0 := loc d col y1).
    set (selClass := charClass (character (cell_at img i0))).
    assert (Hi0 : 0 <= i0 < image_size d) by (unfold i0, loc; nia).
    destruct (findWordStart_spec LINE_WRAPPED charClass d img Hwf Himg selClass
                (Z.to_nat i0) (mkWordScan i0 col y1) eq_refl)
      as (bgn & Hbgn & (Hbi & Hbx & Hby) & Hby' & Hbi' & Hbcells & Hbrows & Hbstop).
    { cbn [ws_i ws_x ws_y]. split; [reflexivity|]. split; lia. }
    { cbn [ws_y]. lia. }
    cbn [ws_i ws_x ws_y] in *.
    assert (Hsame : ws_y bgn = y1).
    { destruct (Z.eq_dec (ws_y bgn) y1) as [Heq|Hne]; [exact Heq|].
      destruct Hstop1 as [Hzero|Hnot]; [lia|].
      rewrite (Hbrows (y1 - 1)) in Hnot by lia. discriminate. }
    exists line, col, (ws_x bgn), y1, y3.
    split; [exact Hpos|]. split.
    + intros extra. unfold mouseTripleClickEvent. rewrite Himg, Hpos.
      rewrite Hstart by lia. fold i0.
      rewrite (readCell_inside d img Hwf Himg i0) by lia. fold selClass.
      rewrite Hbgn by lia. rewrite Hsame. rewrite Hend by lia. reflexivity.
    + split; [lia|]. split; [lia|].
      split; [intros y Hy; apply Hrows3; lia|].
      split; [exact Hstop1|]. split; [exact Hstop3|].
      split; [discriminate|]. intros _.
      rewrite Hsame in Hbi.
      assert (Hbx' : ws_x bgn <= col) by (unfold i0, loc in *; nia).
      split; [lia|]. split.
      * intros c Hc'. fold i0. fold selClass.
        destruct (Z.eq_dec c col) as [->|Hne]; [reflexivity|].
        apply Hbcells. unfold i0, loc in *. nia.
      * fold i0. fold selClass.
        destruct Hbstop as [[Hzero _]|Hother]; [left; exact Hzero|].
        destruct (Z.eq_dec (ws_x bgn) 0) as [Hz|Hnz]; [left; exact Hz|].
        right. replace (loc d (ws_x bgn - 1) y1) with (ws_i bgn - 1)
          by (unfold loc in *; lia).
        exact Hother.
  - exists line, col, 0, y1, y3.
    split; [exact Hpos|]. split.
    + intros extra. unfold mouseTripleClickEvent. rewrite Hpos.
      rewrite Hstart by lia. rewrite Hend by lia. reflexivity.
    + split; [lia|]. split; [lia|].
      split; [intros y Hy; apply Hrows3; lia|].
      split; [exact Hstop1|]. split; [exact Hstop3|].
      split; [reflexivity | discriminate].
Qed.

(* ------------------------------------------------------------------ *)
(** ** Three places where the code misses what it sets out to do *)

(** C3.  In [paintContents] the [y++] that skips the bottom half of a
    double-height line stands inside the column loop, so it runs once for
    every fragment of the line.  Rows 0 and 1 are the halves of a
    double-height line, row 2 shows [CD].  When the line is one fragment,
    row 0 is drawn, row 1 is skipped and row 2 is drawn.  When the line is
    [A] followed by a bold [B], [A] is drawn on row 0, [B] on row 1, and
    row 2 is never drawn.  With three fragments in a grid of two rows the
    third is read from row 2, outside the image. *)
Theorem C3_repaint_skips_one_row_for_every_fragment :
  @isDoubleHeight exampleConstants (lineProperties displayDoubleHeightBold) 0 = true /\
  @isDoubleHeight exampleConstants (lineProperties displayDoubleHeightBold) 1 = true /\
  @isDoubleHeight exampleConstants (lineProperties displayDoubleHeightBold) 2 = false /\
  @paintContents exampleConstants displayDoubleHeightPlain 0 0 29 61
  = Some [mkFragment 0 0 2 [65; 66] false false;
          mkFragment 0 2 2 [67; 68] false false] /\
  @paintContents exampleConstants displayDoubleHeightBold 0 0 29 61
  = Some [mkFragment 0 0 1 [65] false false;
          mkFragment 1 1 1 [66] false false] /\
  readCell gridDoubleHeightThree (loc displayDoubleHeightThree 2 2) = None /\
  @paintContents exampleConstants displayDoubleHeightThree 0 0 29 41 = None.
Proof.
  repeat split; vm_compute; reflexivity.
Qed.

(** C7.  [setScrollbarLocation] calls [calcGeometry] before
    [updateImageSize] saves [columns] as the stride of the old image.  On
    the well-formed display of two rows showing [AB] and [CD], showing the
    scroll bar takes one column away: the new image holds [A] and [B] in
    column 0, where the retained image had [A] and [C].  The same change of
    the grid through [resizeEvent] keeps [A] and [C]. *)
Theorem C7_scroll_bar_resize_copies_with_the_new_stride :
  wellFormed (displayABCD_following widgetWithScrollBar) /\
  cell_at gridABCD (loc (displayABCD_following widgetWithScrollBar) 0 0) = plainCell 65 /\
  cell_at gridABCD (loc (displayABCD_following widgetWithScrollBar) 0 1) = plainCell 67 /\
  (exists d',
     @setScrollbarLocation exampleConstants
       (displayABCD_following widgetWithScrollBar) SCROLLBAR_RIGHT = Some d' /\
     lines d' = 2 /\ columns d' = 1 /\
     image d' = Some [plainCell 65; plainCell 66; plainCell 32]) /\
  (exists d',
     @resizeEvent exampleConstants (displayABCD_following widgetNarrowed) = Some d' /\
     lines d' = 2 /\ columns d' = 1 /\
     image d' = Some [plainCell 65; plainCell 67; plainCell 32]).
Proof.
  split; [vm_compute; intuition discriminate|].
  split; [reflexivity|]. split; [reflexivity|].
  split; eexists; (split; [vm_compute; reflexivity|]);
    repeat split; reflexivity.
Qed.

(** C10.  [updateImage] with a window of no lines leaves [usedLines = 0]
    on the display first allocated, and [paintContents] then starts at row
    [qMin(usedLines-1, ...) = -1]: the cell [image[loc(0,-1)]] and the
    double-width probe [image[qMin(loc(0,-1)+1, image_size)]] are read at
    indices -2 and -1, before the image. *)
Theorem C10_probe_reads_before_the_image_when_no_line_is_used :
  exists d0 res img,
    @updateImageSize exampleConstants freshDisplay = Some d0 /\
    @updateImage exampleConstants d0 windowNoLines = Some res /\
    @reachableDisplay exampleConstants (ur_display res) /\
    image (ur_display res) = Some img /\
    Z.of_nat (length img) = lines (ur_display res) * columns (ur_display res) + 1 /\
    usedLines (ur_display res) = 0 /\
    cellLine (ur_display res) 0 = -1 /\
    cellLine (ur_display res) 40 = -1 /\
    loc (ur_display res) 0 (-1) = -2 /\
    probeIndex (ur_display res) 0 (-1) = -1 /\
    readCell img (probeIndex (ur_display res) 0 (-1)) = None /\
    @paintContents exampleConstants (ur_display res) 0 0 29 40 = None.
Proof.
  eexists. eexists. eexists.
  split; [vm_compute; reflexivity|].
  split; [vm_compute; reflexivity|].
  split.
  { eapply reach_updateImage with (w := windowNoLines);
      [eapply reach_updateImageSize with (d := freshDisplay); vm_compute; reflexivity
      | vm_compute; reflexivity]. }
  repeat split; vm_compute; reflexivity.
Qed.

(* ------------------------------------------------------------------ *)
(** ** The further properties on concrete inputs *)

(** Display 1 is used again: the history [3; 1; 2] becomes [1; 3; 2]. *)
Lemma X1_witness_second_display_used_again :
  ViewManager._terminalDisplayHistoryIndex exampleHistory < 0 /\
  exists l1 l2,
    [3; 1; 2]%nat = l1 ++ 1%nat :: l2 /\
    ViewManager.updateTerminalDisplayHistory exampleHistory (Some 1%nat) false
    = Some (ViewManager.mkHistory (1%nat :: l1 ++ l2) (-1)).
Proof.
  assert (Hidx : ViewManager._terminalDisplayHistoryIndex exampleHistory < 0)
    by (cbn; lia).
  split; [exact Hidx|].
  destruct (X1_activated_display_moves_to_front exampleHistory 1%nat Hidx) as [Hin _].
  destruct Hin as (l1 & l2 & Hsplit & _ & Hup); [cbn; auto|].
  exists l1, l2. split; [exact Hsplit | exact Hup].
Defined.

(** Display 1 is closed: it leaves the history [3; 1; 2]. *)
Lemma X2_witness_second_display_closed :
  In 1%nat (ViewManager._terminalDisplayHistory exampleHistory) /\
  exists l1 l2,
    [3; 1; 2]%nat = l1 ++ 1%nat :: l2 /\
    ViewManager.updateTerminalDisplayHistory exampleHistory (Some 1%nat) true
    = Some (ViewManager.mkHistory (l1 ++ l2) (-1)).
Proof.
  assert (Hin : In 1%nat (ViewManager._terminalDisplayHistory exampleHistory))
    by (cbn; auto).
  split; [exact Hin|].
  destruct (X2_removed_display_leaves_history exampleHistory 1%nat Hin)
    as (l1 & l2 & Hsplit & _ & Hup & _).
  exists l1, l2. split; [exact Hsplit | exact Hup].
Defined.

(** The first step of a walk forward through three displays leads to the
    second entry. *)
Lemma X4_witness_first_step_of_a_walk :
  -1 <= ViewManager._terminalDisplayHistoryIndex exampleHistory
     < ViewManager.count exampleHistory /\
  exists i' td,
    ViewManager.activateLastUsedView exampleHistory false
    = Some (ViewManager.mkHistory [3; 1; 2]%nat i', Some td) /\
    0 <= i' < 3.
Proof.
  assert (Hidx : -1 <= ViewManager._terminalDisplayHistoryIndex exampleHistory
                    < ViewManager.count exampleHistory) by (cbn; lia).
  split; [exact Hidx|].
  destruct (X4_activateLastUsedView_steps_round_the_history exampleHistory false Hidx)
    as [_ Hstep].
  destruct Hstep as (i' & td & Hact & Hrange & _); [cbn; lia|].
  exists i', td. split; [exact Hact | exact Hrange].
Defined.

(** A step forward and a step back during a walk lead back to the second
    entry. *)
Lemma X5_witness_forward_and_back :
  2 <= ViewManager.count walkingHistory /\
  0 <= ViewManager._terminalDisplayHistoryIndex walkingHistory
    < ViewManager.count walkingHistory /\
  exists h1 td1 td2,
    ViewManager.activateLastUsedView walkingHistory false = Some (h1, Some td1) /\
    ViewManager.activateLastUsedView h1 true = Some (walkingHistory, Some td2).
Proof.
  assert (Hcount : 2 <= ViewManager.count walkingHistory) by (cbn; lia).
  assert (Hidx : 0 <= ViewManager._terminalDisplayHistoryIndex walkingHistory
                   < ViewManager.count walkingHistory) by (cbn; lia).
  split; [exact Hcount|]. split; [exact Hidx|].
  destruct (X5_step_back_undoes_step_forward walkingHistory false Hcount Hidx)
    as (h1 & td1 & td2 & Hfwd & Hback & _).
  exists h1, td1, td2. split; [exact Hfwd | exact Hback].
Defined.

(** Display 2 is used, then display 1: the toggle leads back to display 2. *)
Lemma X6_witness_toggle_after_two_displays :
  ViewManager._terminalDisplayHistoryIndex exampleHistory < 0 /\
  In 2%nat (ViewManager._terminalDisplayHistory exampleHistory) /\
  In 1%nat (ViewManager._terminalDisplayHistory exampleHistory) /\
  2%nat <> 1%nat /\
  exists h1 h2,
    ViewManager.updateTerminalDisplayHistory exampleHistory (Some 2%nat) false = Some h1 /\
    ViewManager.updateTerminalDisplayHistory h1 (Some 1%nat) false = Some h2 /\
    ViewManager.toggleTwoViews h2 = Some 2%nat.
Proof.
  assert (Hidx : ViewManager._terminalDisplayHistoryIndex exampleHistory < 0)
    by (cbn; lia).
  assert (Ha : In 2%nat (ViewManager._terminalDisplayHistory exampleHistory))
    by (cbn; auto).
  assert (Hb : In 1%nat (ViewManager._terminalDisplayHistory exampleHistory))
    by (cbn; auto).
  assert (Hab : 2%nat <> 1%nat) by discriminate.
  split; [exact Hidx|]. split; [exact Ha|]. split; [exact Hb|]. split; [exact Hab|].
  destruct (X6_toggleTwoViews_returns_to_previous_display exampleHistory 2%nat 1%nat
              Hidx Ha Hb Hab) as (h1 & h2 & rest & H1 & H2 & _ & Htoggle).
  exists h1, h2. split; [exact H1|]. split; [exact H2 | exact Htoggle].
Defined.

(** U+2500, the first character of the block. *)
Lemma X8_witness_first_of_the_block :
  0 <= 0x2500 < 65536 /\ (isLineChar 0x2500 = true <-> 0x2500 <= 0x2500 <= 0x257F).
Proof.
  assert (Hc : 0 <= 0x2500 < 65536) by lia.
  split; [exact Hc|]. exact (X8_isLineChar_is_the_box_drawing_block 0x2500 Hc).
Defined.

(** A widget of 30 by 41 pixels with a font of 10 by 20: two columns, two
    lines. *)
Lemma X10_witness_widget_of_two_by_two :
  isFixedSize displayABC = false /\
  0 < font_w (widget displayABC) /\ 0 < font_h (widget displayABC) /\
  columns (calcGeometry displayABC) * font_w (widget displayABC)
    <= contentWidth (calcGeometry displayABC)
    < (columns (calcGeometry displayABC) + 1) * font_w (widget displayABC).
Proof.
  assert (Hfix : isFixedSize displayABC = false) by reflexivity.
  assert (Hw : 0 < font_w (widget displayABC)) by (cbn; lia).
  assert (Hh : 0 < font_h (widget displayABC)) by (cbn; lia).
  split; [exact Hfix|]. split; [exact Hw|]. split; [exact Hh|].
  pose proof (X10_calcGeometry_fits_the_grid_into_the_widget displayABC Hfix Hw Hh)
    as Hfit.
  cbv zeta in Hfit. destruct Hfit as (_ & _ & _ & _ & Hcols & _).
  apply Hcols. vm_compute. discriminate.
Defined.

(** The display showing [AB] and [CD] is set to three columns and one
    line. *)
Lemma X12_witness_fixed_size_three_by_one :
  image displayABCD = Some gridABCD /\
  exists d1 img,
    @setFixedSize exampleConstants displayABCD 3 1 = Some d1 /\
    image d1 = Some img /\
    cell_at img 0 = @blankCharacter exampleConstants.
Proof.
  assert (Himg : image displayABCD = Some gridABCD) by reflexivity.
  split; [exact Himg|].
  destruct (@X12_setFixedSize_gives_a_blank_grid_of_the_given_size exampleConstants
              displayABCD gridABCD 3 1 Himg)
    as (d1 & img & Hset & _ & _ & _ & _ & _ & Himg1 & Hsize & _ & Hblank).
  exists d1, img. split; [exact Hset|]. split; [exact Himg1|].
  apply Hblank. rewrite Hsize. lia.
Defined.

(** A point far to the right of and below the grid of two by two. *)
Lemma X13_witness_point_outside_the_grid :
  0 < font_w (widget displayABCD) /\ 0 < font_h (widget displayABCD) /\
  1 <= usedLines displayABCD /\ 1 <= usedColumns displayABCD /\
  let (line, column) := characterPosition displayABCD 500 500 in
  0 <= line < usedLines displayABCD /\ 0 <= column < usedColumns displayABCD.
Proof.
  assert (Hw : 0 < font_w (widget displayABCD)) by (cbn; lia).
  assert (Hh : 0 < font_h (widget displayABCD)) by (cbn; lia).
  assert (Hl : 1 <= usedLines displayABCD) by (cbn; lia).
  assert (Hc : 1 <= usedColumns displayABCD) by (cbn; lia).
  split; [exact Hw|]. split; [exact Hh|]. split; [exact Hl|]. split; [exact Hc|].
  exact (X13_characterPosition_stays_in_the_used_extent displayABCD 500 500
           Hw Hh Hl Hc).
Defined.

(** The point (12, 25) lies in the rectangle of row 1. *)
Lemma X14_witness_point_of_row_one :
  0 < font_w (widget displayABCD) /\ 0 < font_h (widget displayABCD) /\
  0 <= 1 < usedLines displayABCD /\ 2 <= usedColumns displayABCD /\
  QRect_contains (rowRect displayABCD 2 1) 12 25 = true /\
  exists x, 0 <= x < 2 /\ characterPosition displayABCD 12 25 = (1, x).
Proof.
  assert (Hw : 0 < font_w (widget displayABCD)) by (cbn; lia).
  assert (Hh : 0 < font_h (widget displayABCD)) by (cbn; lia).
  assert (Hy : 0 <= 1 < usedLines displayABCD) by (cbn; lia).
  assert (Hcu : 2 <= usedColumns displayABCD) by (cbn; lia).
  assert (Hin : QRect_contains (rowRect displayABCD 2 1) 12 25 = true) by reflexivity.
  split; [exact Hw|]. split; [exact Hh|]. split; [exact Hy|]. split; [exact Hcu|].
  split; [exact Hin|].
  exact (proj1 (X14_points_of_a_row_rectangle_map_back_to_the_row displayABCD 2 1 12 25
                  Hw Hh Hy Hcu Hin)).
Defined.

(** A string of two characters drawn with the font of 10 by 20, when no
    character has an entry in the table: nothing is drawn. *)
Lemma X15_witness_no_entry_in_the_table :
  5 <= font_w (widget displayABCD) /\ 5 <= font_h (widget displayABCD) /\
  drawLineCharString (fun _ => 0) displayABCD 1 1 [0x2500; 0x2502] = [].
Proof.
  assert (Hw : 5 <= font_w (widget displayABCD)) by (cbn; lia).
  assert (Hh : 5 <= font_h (widget displayABCD)) by (cbn; lia).
  split; [exact Hw|]. split; [exact Hh|].
  apply (proj2 (X15_line_characters_are_drawn_inside_their_cells (fun _ => 0)
                  displayABCD 1 1 [0x2500; 0x2502] Hw Hh)).
  intros c _. reflexivity.
Defined.

(** The window shows a blinking [B]: the timer runs. *)
Lemma X16_witness_blinking_B :
  wellFormed displayAB /\
  exists res,
    @updateImage exampleConstants displayAB windowBlinkingB = Some res /\
    blinkT_isActive (ur_display res) = hasBlinker (ur_display res) /\
    hasBlinker (ur_display res) = true.
Proof.
  assert (Hwf : wellFormed displayAB)
    by (apply wellFormed_exampleDisplay; cbn; lia).
  split; [exact Hwf|].
  destruct (@X16_blink_timer_follows_the_blinking_cells exampleConstants displayAB
              windowBlinkingB Hwf) as (res & Hup & Htimer & _ & Hset & _).
  exists res. split; [exact Hup|]. split; [exact Htimer|].
  assert (Hres : ur_display res
                 = ur_display (@diffImage exampleConstants displayAB
                                 (resetScrollCount windowBlinkingB) rowAB)).
  { assert (Hcomp : @updateImage exampleConstants displayAB windowBlinkingB
                    = Some (@diffImage exampleConstants displayAB
                              (resetScrollCount windowBlinkingB) rowAB))
      by reflexivity.
    rewrite Hcomp in Hup. injection Hup as <-. reflexivity. }
  apply (Hset ltac:(discriminate) eq_refl 0 1).
  - rewrite Hres. vm_compute. split; [discriminate | reflexivity].
  - rewrite Hres. vm_compute. split; [discriminate | reflexivity].
  - vm_compute. discriminate.
  - vm_compute. discriminate.
Defined.

(** The grid [AB], [CD] scrolled by one row: row 0 shows [CD]. *)
Lemma X17_witness_scroll_by_one_row :
  wellFormed displayABCD /\ image displayABCD = Some gridABCD /\
  usedColumns displayABCD = columns displayABCD /\
  exists d1 img1,
    scrollImage displayABCD 1 = Some d1 /\ image d1 = Some img1 /\
    cell_at img1 (loc displayABCD 0 0) = plainCell 67.
Proof.
  assert (Hwf : wellFormed displayABCD)
    by (apply wellFormed_exampleDisplay; cbn; lia).
  assert (Himg : image displayABCD = Some gridABCD) by reflexivity.
  assert (Hfull : usedColumns displayABCD = columns displayABCD) by reflexivity.
  split; [exact Hwf|]. split; [exact Himg|]. split; [exact Hfull|].
  destruct (X17_scrollImage_moves_rows_of_the_used_extent displayABCD 1 gridABCD
              Hwf Himg Hfull) as (d1 & img1 & Hscroll & Himg1 & Hrows).
  exists d1, img1. split; [exact Hscroll|]. split; [exact Himg1|].
  rewrite (Hrows 0 0) by (cbn; lia). reflexivity.
Defined.

(** The grid [AB], [CD] scrolled by one row and back: row 1 shows [CD]
    again. *)
Lemma X18_witness_scroll_and_back :
  wellFormed displayABCD /\ image displayABCD = Some gridABCD /\
  usedColumns displayABCD = columns displayABCD /\
  exists d1 d2 img2,
    scrollImage displayABCD 1 = Some d1 /\ scrollImage d1 (- (1)) = Some d2 /\
    image d2 = Some img2 /\
    cell_at img2 (loc displayABCD 1 1) = plainCell 68.
Proof.
  assert (Hwf : wellFormed displayABCD)
    by (apply wellFormed_exampleDisplay; cbn; lia).
  assert (Himg : image displayABCD = Some gridABCD) by reflexivity.
  assert (Hfull : usedColumns displayABCD = columns displayABCD) by reflexivity.
  split; [exact Hwf|]. split; [exact Himg|]. split; [exact Hfull|].
  destruct (X18_scrolling_back_restores_the_rows_that_stayed displayABCD 1 gridABCD
              Hwf Himg Hfull) as (d1 & d2 & img2 & H1 & H2 & Himg2 & Hrows).
  exists d1, d2, img2. split; [exact H1|]. split; [exact H2|]. split; [exact Himg2|].
  rewrite (Hrows 1 1) by (cbn; lia). reflexivity.
Defined.

(** The grid [AB], [CD] is repainted as a whole: two fragments. *)
Lemma X19_witness_repaint_two_rows :
  wellFormed displayABCD /\ image displayABCD = Some gridABCD /\
  0 < font_w (widget displayABCD) /\ 0 < font_h (widget displayABCD) /\
  1 <= usedLines displayABCD /\ 1 <= usedColumns displayABCD /\
  @noDoubleHeight exampleConstants displayABCD (usedLines displayABCD) /\
  exists frags,
    @paintContents exampleConstants displayABCD 0 0 30 41 = Some frags /\
    Forall (fragmentOfImage displayABCD gridABCD) frags.
Proof.
  assert (Hwf : wellFormed displayABCD)
    by (apply wellFormed_exampleDisplay; cbn; lia).
  assert (Himg : image displayABCD = Some gridABCD) by reflexivity.
  assert (Hw : 0 < font_w (widget displayABCD)) by (cbn; lia).
  assert (Hh : 0 < font_h (widget displayABCD)) by (cbn; lia).
  assert (Hul : 1 <= usedLines displayABCD) by (cbn; lia).
  assert (Huc : 1 <= usedColumns displayABCD) by (cbn; lia).
  assert (Hsingle : @noDoubleHeight exampleConstants displayABCD (usedLines displayABCD)).
  { intros y Hy. cbn in Hy.
    assert (Hcases : y = 0 \/ y = 1) by lia.
    destruct Hcases as [-> | ->]; reflexivity. }
  split; [exact Hwf|]. split; [exact Himg|]. split; [exact Hw|]. split; [exact Hh|].
  split; [exact Hul|]. split; [exact Huc|]. split; [exact Hsingle|].
  destruct (@X19_paintContents_ends_and_reads_inside_the_image exampleConstants
              displayABCD gridABCD 0 0 30 41 Hwf Himg Hw Hh Hul Huc Hsingle)
    as (frags & Hpaint & _ & Hall).
  exists frags. split; [exact Hpaint | exact Hall].
Defined.

(** The same repaint: the cell of row 1, column 1 lies in one fragment. *)
Lemma X20_witness_cell_of_the_second_row :
  wellFormed displayABCD /\ image displayABCD = Some gridABCD /\
  0 < font_w (widget displayABCD) /\ 0 < font_h (widget displayABCD) /\
  1 <= usedLines displayABCD /\ 1 <= usedColumns displayABCD /\
  @noDoubleHeight exampleConstants displayABCD (usedLines displayABCD) /\
  exists rows f,
    @paintContents exampleConstants displayABCD 0 0 30 41 = Some (concat rows) /\
    In f (concat rows) /\ frag_y f = 1 /\ frag_x f <= 1 < frag_x f + frag_len f.
Proof.
  assert (Hwf : wellFormed displayABCD)
    by (apply wellFormed_exampleDisplay; cbn; lia).
  assert (Himg : image displayABCD = Some gridABCD) by reflexivity.
  assert (Hw : 0 < font_w (widget displayABCD)) by (cbn; lia).
  assert (Hh : 0 < font_h (widget displayABCD)) by (cbn; lia).
  assert (Hul : 1 <= usedLines displayABCD) by (cbn; lia).
  assert (Huc : 1 <= usedColumns displayABCD) by (cbn; lia).
  assert (Hsingle : @noDoubleHeight exampleConstants displayABCD (usedLines displayABCD)).
  { intros y Hy. cbn in Hy.
    assert (Hcases : y = 0 \/ y = 1) by lia.
    destruct Hcases as [-> | ->]; reflexivity. }
  split; [exact Hwf|]. split; [exact Himg|]. split; [exact Hw|]. split; [exact Hh|].
  split; [exact Hul|]. split; [exact Huc|]. split; [exact Hsingle|].
  pose proof (@X20_paintContents_draws_every_cell_once exampleConstants
                displayABCD gridABCD 0 0 30 41 Hwf Himg Hw Hh Hul Huc Hsingle) as Hpaint.
  cbv zeta in Hpaint. destruct Hpaint as (rows & Hrows & _ & _ & Hcover).
  destruct (Hcover 1 1) as (f & Hf & Hfy & Hfc & _); [vm_compute | vm_compute |].
  - split; discriminate.
  - split; discriminate.
  - exists rows, f. split; [exact Hrows|]. split; [exact Hf|]. split; [exact Hfy | exact Hfc].
Defined.

(** The session of display 1 finishes while its tab holds the displays 1
    and 2. *)
Lemma X21_witness_second_display_finishes :
  NoDup (ViewManager._terminalDisplayHistory exampleHistory) /\
  exists h' choice,
    ViewManager.sessionFinished exampleHistory 1%nat [1; 2]%nat = Some (h', choice) /\
    ~ In 1%nat (ViewManager._terminalDisplayHistory h') /\
    choice <> ViewManager.SetFocus 1%nat.
Proof.
  assert (Hnodup : NoDup (ViewManager._terminalDisplayHistory exampleHistory)).
  { cbn. repeat constructor; cbn; intuition discriminate. }
  split; [exact Hnodup|].
  destruct (X21_a_closed_display_never_gets_the_focus exampleHistory 1%nat [1; 2]%nat
              Hnodup) as (h' & choice & Hfin & _ & _ & Hgone & _ & Hfocus & _).
  exists h', choice. split; [exact Hfin|]. split; [exact Hgone | exact Hfocus].
Defined.

(** The walk stands at the last of three displays when display 3 is
    closed. *)
Lemma X22_witness_index_beyond_the_end :
  In 3%nat (ViewManager._terminalDisplayHistory (ViewManager.mkHistory [3; 1; 2]%nat 2)) /\
  ViewManager._terminalDisplayHistoryIndex (ViewManager.mkHistory [3; 1; 2]%nat 2)
  = ViewManager.count (ViewManager.mkHistory [3; 1; 2]%nat 2) - 1 /\
  exists h',
    ViewManager.updateTerminalDisplayHistory (ViewManager.mkHistory [3; 1; 2]%nat 2)
      (Some 3%nat) true = Some h' /\
    ViewManager.updateTerminalDisplayHistory h' None false = None.
Proof.
  assert (Hin : In 3%nat (ViewManager._terminalDisplayHistory
                            (ViewManager.mkHistory [3; 1; 2]%nat 2)))
    by (cbn; auto).
  assert (Hidx : ViewManager._terminalDisplayHistoryIndex
                   (ViewManager.mkHistory [3; 1; 2]%nat 2)
                 = ViewManager.count (ViewManager.mkHistory [3; 1; 2]%nat 2) - 1)
    by reflexivity.
  split; [exact Hin|]. split; [exact Hidx|].
  destruct (X22_closing_a_display_during_a_walk_can_strand_the_index
              (ViewManager.mkHistory [3; 1; 2]%nat 2) 3%nat Hin Hidx)
    as (h' & Hup & _ & _ & Hfail).
  exists h'. split; [exact Hup | exact (Hfail false)].
Defined.

(** A double click on the [D] of the grid [AB], [CD]. *)
Lemma X23_witness_double_click_on_D :
  wellFormed displayABCD /\ image displayABCD = Some gridABCD /\
  0 < font_w (widget displayABCD) /\ 0 < font_h (widget displayABCD) /\
  1 <= usedLines displayABCD /\ 1 <= usedColumns displayABCD /\
  usedColumns displayABCD = columns displayABCD /\
  usedLines displayABCD - 1 <= Z.of_nat (length (lineProperties displayABCD)) /\
  exists bx by' ex ey,
    mouseDoubleClickEvent exampleLineWrapped exampleCharClass displayABCD 12 25 0
    = Some ((bx, by'),
            (if (character (cell_at gridABCD (loc displayABCD ex ey)) =? 64)
                && (0 <? ex - bx)
             then ex - 1 else ex, ey)) /\
    0 <= bx < usedColumns displayABCD /\ 0 <= ex < usedColumns displayABCD.
Proof.
  assert (Hwf : wellFormed displayABCD)
    by (apply wellFormed_exampleDisplay; cbn; lia).
  assert (Himg : image displayABCD = Some gridABCD) by reflexivity.
  assert (Hw : 0 < font_w (widget displayABCD)) by (cbn; lia).
  assert (Hh : 0 < font_h (widget displayABCD)) by (cbn; lia).
  assert (Hul : 1 <= usedLines displayABCD) by (cbn; lia).
  assert (Huc : 1 <= usedColumns displayABCD) by (cbn; lia).
  assert (Hfull : usedColumns displayABCD = columns displayABCD) by reflexivity.
  assert (Hlp : usedLines displayABCD - 1
                <= Z.of_nat (length (lineProperties displayABCD))) by (cbn; lia).
  split; [exact Hwf|]. split; [exact Himg|]. split; [exact Hw|]. split; [exact Hh|].
  split; [exact Hul|]. split; [exact Huc|].
  split; [exact Hfull|]. split; [exact Hlp|].
  destruct (X23_double_click_selects_the_word_under_the_pointer exampleLineWrapped
              exampleCharClass displayABCD gridABCD 12 25 Hwf Himg Hw Hh Hul Huc Hfull Hlp)
    as (line & col & bx & by' & ex & ey & _ & Hsel & Hbx & Hex & _).
  exists bx, by', ex, ey. split; [exact (Hsel 0%nat)|]. split; [exact Hbx | exact Hex].
Defined.

(** A triple click on the same cell. *)
Lemma X24_witness_triple_click_on_D :
  wellFormed displayABCD /\ image displayABCD = Some gridABCD /\
  0 < font_w (widget displayABCD) /\ 0 < font_h (widget displayABCD) /\
  1 <= usedLines displayABCD /\ 1 <= usedColumns displayABCD /\
  lines displayABCD - 1 <= Z.of_nat (length (lineProperties displayABCD)) /\
  exists x y1 y3,
    mouseTripleClickEvent exampleLineWrapped exampleCharClass displayABCD false 12 25 0
    = Some ((x, y1), (columns displayABCD - 1, y3)) /\
    x = 0.
Proof.
  assert (Hwf : wellFormed displayABCD)
    by (apply wellFormed_exampleDisplay; cbn; lia).
  assert (Himg : image displayABCD = Some gridABCD) by reflexivity.
  assert (Hw : 0 < font_w (widget displayABCD)) by (cbn; lia).
  assert (Hh : 0 < font_h (widget displayABCD)) by (cbn; lia).
  assert (Hul : 1 <= usedLines displayABCD) by (cbn; lia).
  assert (Huc : 1 <= usedColumns displayABCD) by (cbn; lia).
  assert (Hlp : lines displayABCD - 1
                <= Z.of_nat (length (lineProperties displayABCD))) by (cbn; lia).
  split; [exact Hwf|]. split; [exact Himg|]. split; [exact Hw|]. split; [exact Hh|].
  split; [exact Hul|]. split; [exact Huc|].
  split; [exact Hlp|].
  destruct (X24_triple_click_selects_the_wrapped_lines exampleLineWrapped
              exampleCharClass displayABCD gridABCD false 12 25 Hwf Himg Hw Hh Hul Huc Hlp)
    as (line & col & x & y1 & y3 & _ & Hsel & _ & _ & _ & _ & _ & Hzero & _).
  exists x, y1, y3. split; [exact (Hsel 0%nat) | exact (Hzero eq_refl)].
Defined.
